(** * kalshi_edge: risk-aware sizing, execution, calibration and signal generation

    A shallow embedding of the Python package [kalshi_edge]:
    - [execution/execute_signals.py]: [compute_order_size_for_signal] and the
      batch loop of [execute_signals];
    - [backtest/calibration.py]: [_init_buckets_from_edges], [_bucket_from_edges];
    - [backtest/live_signals.py]: [_bucket_midpoints], [estimate_p_true];
    - [signals/generate_signals.py]: [_build_probability_lookup] and the
      per-market decision of [generate_signals];
    - [signals/manage_signals.py] and [api/app.py]: the bulk status updates;
    - [portfolio/pnl.py] and [portfolio/sync_positions.py]: the positions table.

    Python [float] arithmetic is written once, against the class [PyNum], and
    instantiated twice: with exact rationals [Q] (the "exact arithmetic" reading)
    and with IEEE binary64 primitive floats (what CPython computes). *)

From Stdlib Require Import ZArith QArith Qround Qabs Qminmax Lqa Floats Sorted.
From stdpp Require Import base list gmap strings.

Set Warnings "-inexact-float".

Local Open Scope Z_scope.

(* ------------------------------------------------------------------------- *)
(** ** Python numbers *)

(** The operations on Python [float] that the sizing code uses.  [py_ceil] is
    [math.ceil] (an [int]); [py_floordiv x y] is [int(x // y)]. *)
Class PyNum (R : Type) := {
  py_of_Z : Z -> R;
  py_add : R -> R -> R;
  py_sub : R -> R -> R;
  py_neg : R -> R;
  py_mul : R -> R -> R;
  py_div : R -> R -> R;
  py_ltb : R -> R -> bool;
  py_leb : R -> R -> bool;
  py_eqb : R -> R -> bool;
  py_ceil : R -> Z;
  py_floordiv : R -> R -> Z
}.

(** Python's [min(a, b)]: the first argument unless the second is smaller. *)
Definition py_min {R} `{PyNum R} (a b : R) : R := if py_ltb b a then b else a.

(** Exact arithmetic. *)
#[global] Instance PyNum_Q : PyNum Q := {
  py_of_Z := inject_Z;
  py_add := Qplus;
  py_sub := Qminus;
  py_neg := Qopp;
  py_mul := Qmult;
  py_div := Qdiv;
  py_ltb := fun a b => negb (Qle_bool b a);
  py_leb := Qle_bool;
  py_eqb := Qeq_bool;
  py_ceil := Qceiling;
  py_floordiv := fun x y => Qfloor (x / y)
}.

(** IEEE binary64, as CPython computes it.  Rounding to an integer is exact
    and goes through the bit-level view [Prim2SF]. *)
Module F64.
Local Open Scope float_scope.

(** [math.floor] of a finite float, as an integer. *)
Definition floor_Z (x : float) : Z :=
  match Prim2SF x with
  | S754_finite s m e =>
      if (0 <=? e)%Z then cond_Zopp s (Zpos m * 2 ^ e)%Z
      else Z.div (cond_Zopp s (Zpos m)) (2 ^ (- e))%Z
  | _ => 0%Z
  end.

(** [math.ceil]. *)
Definition ceil_Z (x : float) : Z := (- floor_Z (- x))%Z.

(** [float(n)] for an integer that fits the format, rounded to nearest. *)
Definition of_Z (n : Z) : float :=
  SF2Prim (binary_normalize FloatOps.prec FloatOps.emax n 0 false).

(** C's [fmod]: exact remainder with the sign of the dividend. *)
Definition fmod (x y : float) : float :=
  match Prim2SF x, Prim2SF y with
  | S754_finite sx mx ex, S754_finite _ my ey =>
      let e := Z.min ex ey in
      let X := (Zpos mx * 2 ^ (ex - e))%Z in
      let Y := (Zpos my * 2 ^ (ey - e))%Z in
      SF2Prim (binary_normalize FloatOps.prec FloatOps.emax
                 (cond_Zopp sx (Z.modulo X Y)) e sx)
  | S754_zero _, S754_finite _ _ _ => x
  | _, _ => nan
  end.

(** [int(vx // wx)], following CPython's [float_floor_div]
    ([Objects/floatobject.c], [_float_div_mod]). *)
Definition floordiv (vx wx : float) : Z :=
  let md := fmod vx wx in
  let dv := (vx - md) / wx in
  let dv := if negb (md =? 0) && xorb (wx <? 0) (md <? 0) then dv - 1 else dv in
  if dv =? 0 then 0%Z
  else
    let fd := floor_Z dv in
    if 0.5 <? dv - of_Z fd then (fd + 1)%Z else fd.
End F64.

#[global] Instance PyNum_F64 : PyNum float := {
  py_of_Z := F64.of_Z;
  py_add := PrimFloat.add;
  py_sub := PrimFloat.sub;
  py_neg := PrimFloat.opp;
  py_mul := PrimFloat.mul;
  py_div := PrimFloat.div;
  py_ltb := PrimFloat.ltb;
  py_leb := PrimFloat.leb;
  py_eqb := PrimFloat.eqb;
  py_ceil := F64.ceil_Z;
  py_floordiv := F64.floordiv
}.

(* ------------------------------------------------------------------------- *)
(** ** Strings *)

(** [str.lower()] on ASCII text. *)
Definition ascii_lower (c : Ascii.ascii) : Ascii.ascii :=
  let n := Ascii.nat_of_ascii c in
  if (65 <=? n)%nat && (n <=? 90)%nat then Ascii.ascii_of_nat (n + 32) else c.

Fixpoint str_lower (s : string) : string :=
  match s with
  | EmptyString => EmptyString
  | String c s' => String (ascii_lower c) (str_lower s')
  end.

(** [needle in hay] for Python strings. *)
Fixpoint str_prefix (p s : string) : bool :=
  match p, s with
  | EmptyString, _ => true
  | String c p', String d s' => Ascii.eqb c d && str_prefix p' s'
  | _, _ => false
  end.

Fixpoint str_contains (needle hay : string) : bool :=
  str_prefix needle hay ||
  match hay with
  | EmptyString => false
  | String _ hay' => str_contains needle hay'
  end.

(* ------------------------------------------------------------------------- *)
(** ** Sorting *)

(** Python's [sorted(xs, key=k)] is stable: insert each element after every
    element whose key is not greater. [le] compares keys. *)
Fixpoint insert_by {A} (le : A -> A -> bool) (x : A) (xs : list A) : list A :=
  match xs with
  | [] => [x]
  | y :: ys => if le y x then y :: insert_by le x ys else x :: y :: ys
  end.

Definition sort_by {A} (le : A -> A -> bool) (xs : list A) : list A :=
  fold_left (fun acc x => insert_by le x acc) xs [].

(* ------------------------------------------------------------------------- *)
(** ** [compute_order_size_for_signal] *)

(** [MAX_CONTRACTS_CAP]. *)
Definition MAX_CONTRACTS_CAP : Z := 1000.

Section Sizing.
Context {R : Type} `{PyNum R}.

(** How a signal was executed ([execution_mode] column). *)
Inductive ExecutionMode := Simulate | Live.

(** The [last_error] texts: literal messages, and the three f-strings of
    the guard checks with the values they format. *)
Inductive ErrorText :=
| ErrText (msg : string)
| ErrRiskPerTrade (risk limit : R)
| ErrPerMarketRisk (risk limit : R)
| ErrTotalRisk (risk limit : R).

(** A row of the [signals] table.  [side] and [p_mkt] are always written by
    [generate_signals], so [signal.get("side") or ""] and
    [float(signal.get("p_mkt") or 0.0)] are the stored values. *)
Record Signal := {
  sig_id : Z;
  sig_created_at : Z;
  sig_market_ticker : string;
  sig_side : string;
  sig_p_mkt : R;
  sig_status : string;
  sig_execution_mode : option ExecutionMode;
  sig_order_id : option string;
  sig_executed_price : option R;
  sig_executed_size : option Z;
  sig_last_error : option ErrorText
}.

(** [get_risk_limits()]. *)
Record RiskLimits := {
  max_risk_per_trade : R;
  max_risk_per_market : R;
  max_risk_total : R
}.

(** The side-appropriate per-contract risk: [1.0 - price] for side
    ["no"], [price] otherwise. *)
Definition risk_per_contract_of (signal : Signal) : R :=
  let side := str_lower (sig_side signal) in
  let price := sig_p_mkt signal in
  if String.eqb side "no" then py_sub (py_of_Z 1) price else price.

(** [compute_order_size_for_signal(signal, bankroll, risk_limits,
    per_market_risk=..., total_risk=..., risk_fraction=...)];
    [config_fraction] is [get_max_risk_fraction_per_trade()], read when
    [risk_fraction] is [None].  Returns [(size, risk_per_contract)]. *)
Definition compute_order_size_for_signal (signal : Signal) (bankroll : R)
    (risk_limits : RiskLimits) (per_market_risk total_risk : R)
    (risk_fraction : option R) (config_fraction : R) : Z * R :=
  let risk_per_contract := risk_per_contract_of signal in
  if py_leb risk_per_contract (py_of_Z 0) then (0, risk_per_contract) else
  let fraction := default config_fraction risk_fraction in
  let per_trade_cap := py_min (max_risk_per_trade risk_limits) (py_mul bankroll fraction) in
  let remaining_market := py_sub (max_risk_per_market risk_limits) per_market_risk in
  let remaining_total := py_sub (max_risk_total risk_limits) total_risk in
  let max_risk := py_min (py_min per_trade_cap remaining_market) remaining_total in
  if py_leb max_risk (py_of_Z 0) then (0, risk_per_contract) else
  let target_risk := py_min (py_of_Z 3) max_risk in
  let size := py_ceil (py_div target_risk risk_per_contract) in
  let size :=
    if py_ltb max_risk (py_mul (py_of_Z size) risk_per_contract)
    then py_floordiv max_risk risk_per_contract else size in
  if size <=? 0 then (0, risk_per_contract) else
  (Z.min size MAX_CONTRACTS_CAP, risk_per_contract).
End Sizing.

Arguments Signal : clear implicits.
Arguments ErrorText : clear implicits.
Arguments RiskLimits : clear implicits.

(* ------------------------------------------------------------------------- *)
(** ** The positions ledger ([portfolio/pnl.py], [portfolio/sync_positions.py]) *)

Section Ledger.
Context {R : Type} `{PyNum R}.

(** A row of the [positions] table, keyed by [(market_ticker, side)]. *)
Record Position := {
  pos_size : Z;
  pos_avg_entry_price : R;
  pos_realized_pnl : R
}.

(** A row of the [trades] table. *)
Record Trade := {
  tr_signal_id : option Z;
  tr_market_ticker : string;
  tr_side : string;
  tr_size : Z;
  tr_price : R;
  tr_direction : string
}.

(** [_profit_yes]. *)
Definition profit_yes (avg_price trade_price : R) (direction : string) (size : Z) : R :=
  let delta := py_sub trade_price avg_price in
  if String.eqb direction "sell" then py_mul delta (py_of_Z size)
  else py_mul (py_neg delta) (py_of_Z size).

(** [_profit_no]. *)
Definition profit_no (avg_yes_price trade_yes_price : R) (direction : string) (size : Z) : R :=
  let delta := py_sub avg_yes_price trade_yes_price in
  if String.eqb direction "buy" then py_mul delta (py_of_Z size)
  else py_mul (py_neg delta) (py_of_Z size).

(** The new [(size, avg_entry_price, realized_delta)] computed by
    [_update_position] from the previous row values. *)
Definition position_delta (side : string) (size_prev : Z) (avg_prev : R)
    (size_delta : Z) (price : R) : Z * R * R :=
  let size_new := size_prev + size_delta in
  if ((0 <=? size_prev) && (0 <=? size_delta)) || ((size_prev <=? 0) && (size_delta <=? 0))
  then
    let total_cost := py_add (py_mul avg_prev (py_of_Z (Z.abs size_prev)))
                             (py_mul price (py_of_Z (Z.abs size_delta))) in
    let denom := Z.abs size_prev + Z.abs size_delta in
    let avg_new := if denom =? 0 then py_of_Z 0 else py_div total_cost (py_of_Z denom) in
    (size_new, avg_new, py_of_Z 0)
  else
    let closing := Z.min (Z.abs size_prev) (Z.abs size_delta) in
    let realized_delta :=
      if String.eqb side "yes"
      then profit_yes avg_prev price (if 0 <? size_prev then "sell" else "buy") closing
      else profit_no avg_prev price (if size_prev <? 0 then "buy" else "sell") closing in
    if Z.abs size_prev <? Z.abs size_delta then
      let remaining := Z.abs size_delta - Z.abs size_prev in
      ((if 0 <? size_delta then remaining else - remaining), price, realized_delta)
    else (size_new, avg_prev, realized_delta).

(** [_update_position(cur, market_ticker, side, size_delta, price)]: read
    the row, compute the new values, then
    [INSERT ... ON CONFLICT (market_ticker, side) DO UPDATE SET size = EXCLUDED.size,
     avg_entry_price = EXCLUDED.avg_entry_price,
     realized_pnl = positions.realized_pnl + EXCLUDED.realized_pnl]. *)
Definition update_position (positions : gmap (string * string) Position)
    (market_ticker side : string) (size_delta : Z) (price : R)
    : gmap (string * string) Position * (Z * R * R) :=
  let row := positions !! (market_ticker, side) in
  let size_prev := match row with Some r => pos_size r | None => 0 end in
  let avg_prev := match row with Some r => pos_avg_entry_price r | None => py_of_Z 0 end in
  let '(size_new, avg_new, realized_delta) :=
    position_delta side size_prev avg_prev size_delta price in
  let realized := match row with
                  | Some r => py_add (pos_realized_pnl r) realized_delta
                  | None => realized_delta
                  end in
  (<[(market_ticker, side) := {| pos_size := size_new; pos_avg_entry_price := avg_new;
                                 pos_realized_pnl := realized |}]> positions,
   (size_new, avg_new, realized_delta)).

(** [record_trade(trade)]: append the trade, then update its position. *)
Definition record_trade (trades : list Trade) (positions : gmap (string * string) Position)
    (trade : Trade) : list Trade * gmap (string * string) Position :=
  let size_delta := if String.eqb (tr_direction trade) "buy" then tr_size trade
                    else - tr_size trade in
  (trades ++ [trade],
   fst (update_position positions (tr_market_ticker trade) (tr_side trade)
          size_delta (tr_price trade))).

(** A position as returned by the venue's portfolio API. *)
Record VenuePosition := {
  vp_ticker : option string;
  vp_position : option Z;
  vp_total_cost : option Z
}.

(** [sync_positions()]: [TRUNCATE positions], then upsert one YES row per
    venue position with a known ticker, count and cost and a non-zero
    count.  [realized_default] is the column default of
    [positions.realized_pnl], which the [INSERT] does not set. *)
Definition sync_positions (realized_default : R) (venue : list VenuePosition)
    (positions : gmap (string * string) Position) : gmap (string * string) Position :=
  let _ := positions in
  fold_left
    (fun tbl pos =>
       match vp_ticker pos, vp_position pos, vp_total_cost pos with
       | Some ticker, Some count, Some cost_cents =>
           if count =? 0 then tbl else
           let avg_price := py_div (py_div (py_of_Z cost_cents) (py_of_Z 100))
                                   (py_of_Z (Z.abs count)) in
           let realized := match tbl !! (ticker, "yes"%string) with
                           | Some r => pos_realized_pnl r
                           | None => realized_default
                           end in
           <[(ticker, "yes"%string) := {| pos_size := count; pos_avg_entry_price := avg_price;
                                          pos_realized_pnl := realized |}]> tbl
       | _, _, _ => tbl
       end)
    venue ∅.
End Ledger.

Arguments Position : clear implicits.
Arguments Trade : clear implicits.

(* ------------------------------------------------------------------------- *)
(** ** [execute_signals] ([execution/execute_signals.py]) *)

Section Execution.
Context {R : Type} `{PyNum R}.

(** [OrderRequest]. *)
Record OrderRequest := {
  or_market_ticker : string;
  or_side : string;
  or_size : Z;
  or_price : R;
  or_direction : string
}.

(** The dictionary returned by [ExecutionClient.place_order]. *)
Record OrderResponse := {
  resp_order_id : option string;
  resp_id : option string;
  resp_avg_price : option R;
  resp_filled_size : option Z;
  resp_status : option string
}.

(** [client.place_order(order_req)]: a response, or an exception whose
    [str(exc)] is given. *)
Definition PlaceOrder := OrderRequest -> OrderResponse + string.

(** Python truthiness in [x or default]. *)
Definition or_str (x : option string) (d : string) : string :=
  match x with Some v => if String.eqb v "" then d else v | None => d end.
Definition or_int (x : option Z) (d : Z) : Z :=
  match x with Some v => if v =? 0 then d else v | None => d end.
Definition or_float (x : option R) (d : R) : R :=
  match x with
  | Some v => if py_leb v (py_of_Z 0) && py_leb (py_of_Z 0) v then d else v
  | None => d
  end.

(** The database and the in-memory counters of one [execute_signals] run. *)
Record ExecState := {
  es_signals : list (Signal R);
  es_trades : list (Trade R);
  es_positions : gmap (string * string) (Position R);
  es_total_risk : R;
  es_per_market : gmap string R;
  es_executed_count : Z
}.

Definition set_signals (st : ExecState) (sigs : list (Signal R)) : ExecState :=
  {| es_signals := sigs; es_trades := es_trades st; es_positions := es_positions st;
     es_total_risk := es_total_risk st; es_per_market := es_per_market st;
     es_executed_count := es_executed_count st |}.

(** [update_signal_execution(signal_id, status=..., execution_mode=...,
    order_id=..., executed_price=..., executed_size=..., error=...)]:
    [UPDATE signals SET ... WHERE id = signal_id], the optional columns
    through [COALESCE(new, old)] ([sent_at]/[filled_at] are not modelled). *)
Definition update_signal_row (status : string) (mode : ExecutionMode)
    (order_id : option string) (executed_price : option R) (executed_size : option Z)
    (error : option (ErrorText R)) (row : Signal R) : Signal R :=
  {| sig_id := sig_id row; sig_created_at := sig_created_at row;
     sig_market_ticker := sig_market_ticker row; sig_side := sig_side row;
     sig_p_mkt := sig_p_mkt row; sig_status := status;
     sig_execution_mode := Some mode;
     sig_order_id := match order_id with Some v => Some v | None => sig_order_id row end;
     sig_executed_price := match executed_price with Some v => Some v | None => sig_executed_price row end;
     sig_executed_size := match executed_size with Some v => Some v | None => sig_executed_size row end;
     sig_last_error := match error with Some v => Some v | None => sig_last_error row end |}.

Definition update_signal_execution (signal_id : Z) (status : string) (mode : ExecutionMode)
    (order_id : option string) (executed_price : option R) (executed_size : option Z)
    (error : option (ErrorText R)) (st : ExecState) : ExecState :=
  set_signals st
    (map (fun row => if sig_id row =? signal_id
                     then update_signal_row status mode order_id executed_price executed_size error row
                     else row) (es_signals st)).

Definition st_record_trade (trade : Trade R) (st : ExecState) : ExecState :=
  let '(trades, positions) := record_trade (es_trades st) (es_positions st) trade in
  {| es_signals := es_signals st; es_trades := trades; es_positions := positions;
     es_total_risk := es_total_risk st; es_per_market := es_per_market st;
     es_executed_count := es_executed_count st |}.

(** The three guard checks of the loop, in order: the error they record,
    if one fails. *)
Definition guard_checks (limits : RiskLimits R) (market_risk total_risk risk_new : R)
    : option (ErrorText R) :=
  if py_ltb (max_risk_per_trade limits) risk_new
  then Some (ErrRiskPerTrade risk_new (max_risk_per_trade limits)) else
  if py_ltb (max_risk_per_market limits) (py_add market_risk risk_new)
  then Some (ErrPerMarketRisk (py_add market_risk risk_new) (max_risk_per_market limits)) else
  if py_ltb (max_risk_total limits) (py_add total_risk risk_new)
  then Some (ErrTotalRisk (py_add total_risk risk_new) (max_risk_total limits)) else
  None.

(** After a dispatch: [total_risk += risk_new], [per_market[t] += risk_new],
    [executed_count += 1]. *)
Definition commit_risk (market_ticker : string) (risk_new : R) (st : ExecState) : ExecState :=
  {| es_signals := es_signals st; es_trades := es_trades st; es_positions := es_positions st;
     es_total_risk := py_add (es_total_risk st) risk_new;
     es_per_market := <[market_ticker := py_add (default (py_of_Z 0) (es_per_market st !! market_ticker)) risk_new]>
                        (es_per_market st);
     es_executed_count := es_executed_count st + 1 |}.

Definition INSUFFICIENT_BUDGET : string := "Insufficient risk budget for dynamic sizing".
Definition CLIENT_NOT_INITIALIZED : string :=
  "Execution client not initialized; cannot send live orders".

Section Loop.
(** The run's configuration: the effective mode, the client (if it was
    constructed), the limits, the bankroll and the configured fraction. *)
Variable mode : ExecutionMode.
Variable client : option PlaceOrder.
Variable limits : RiskLimits R.
Variable bankroll : R.
Variable config_fraction : R.

(** One iteration of [for sig in signals:]. *)
Definition execute_one (st : ExecState) (sg : Signal R) : ExecState :=
  let sig_id0 := sig_id sg in
  let market_ticker := sig_market_ticker sg in
  let trade_direction := "buy"%string in
  let current_market_risk := default (py_of_Z 0) (es_per_market st !! market_ticker) in
  let '(size, risk_per_contract) :=
    compute_order_size_for_signal sg bankroll limits current_market_risk
      (es_total_risk st) None config_fraction in
  if size <=? 0 then
    update_signal_execution sig_id0 "ignored" mode None None None
      (Some (ErrText INSUFFICIENT_BUDGET)) st
  else
  let risk_new := py_mul risk_per_contract (py_of_Z size) in
  let market_risk := default (py_of_Z 0) (es_per_market st !! market_ticker) in
  match guard_checks limits market_risk (es_total_risk st) risk_new with
  | Some err => update_signal_execution sig_id0 "ignored" mode None None None (Some err) st
  | None =>
      match mode with
      | Simulate =>
          let st := update_signal_execution sig_id0 "simulated" mode None
                      (Some (sig_p_mkt sg)) (Some size) None st in
          let st := st_record_trade
                      {| tr_signal_id := Some sig_id0; tr_market_ticker := market_ticker;
                         tr_side := sig_side sg; tr_size := size; tr_price := sig_p_mkt sg;
                         tr_direction := trade_direction |} st in
          commit_risk market_ticker risk_new st
      | Live =>
          let limit_price := sig_p_mkt sg in
          let order_req := {| or_market_ticker := market_ticker; or_side := sig_side sg;
                              or_size := size; or_price := limit_price;
                              or_direction := trade_direction |} in
          let submitted := match client with
                           | None => inr CLIENT_NOT_INITIALIZED
                           | Some place_order => place_order order_req
                           end in
          match submitted with
          | inr exc =>
              update_signal_execution sig_id0 "error" mode None None None
                (Some (ErrText exc)) st
          | inl resp =>
              let order_id := or_str (resp_order_id resp) (or_str (resp_id resp) "") in
              let executed_price := or_float (resp_avg_price resp) limit_price in
              let executed_size := or_int (resp_filled_size resp) size in
              let status := or_str (resp_status resp) "sent" in
              let st := update_signal_execution sig_id0 status mode (Some order_id)
                          (Some executed_price) (Some executed_size) None st in
              let st := st_record_trade
                          {| tr_signal_id := Some sig_id0; tr_market_ticker := market_ticker;
                             tr_side := sig_side sg; tr_size := executed_size;
                             tr_price := executed_price; tr_direction := trade_direction |} st in
              commit_risk market_ticker risk_new st
          end
      end
  end.

(** The loop over the fetched batch. *)
Definition execute_batch (signals : list (Signal R)) (st : ExecState) : ExecState :=
  fold_left execute_one signals st.
End Loop.
End Execution.

Arguments OrderResponse : clear implicits.
Arguments ExecState : clear implicits.

(** [fetch_pending_signals(limit)]: [WHERE status = 'pending'
    ORDER BY created_at ASC LIMIT limit] (rows with equal [created_at] keep
    table order; SQL leaves their order open). *)
Definition fetch_pending_signals {R} (limit : nat) (table : list (Signal R)) : list (Signal R) :=
  take limit (sort_by (fun a b : Signal R => sig_created_at a <=? sig_created_at b)
                (filter (fun row => String.eqb (sig_status row) "pending") table)).

(** [execute_signals(batch_limit)].  [client_init] is the outcome of
    [ExecutionClient()] ([None] when it raised); [total_risk] and
    [per_market] are what [compute_existing_risk] returned at batch start. *)
Definition execute_signals {R} `{PyNum R} (batch_limit : nat) (configured_mode : ExecutionMode)
    (client_init : option PlaceOrder) (limits : RiskLimits R) (bankroll config_fraction : R)
    (total_risk : R) (per_market : gmap string R)
    (table : list (Signal R)) (trades : list (Trade R))
    (positions : gmap (string * string) (Position R)) : ExecState R :=
  let signals := fetch_pending_signals batch_limit table in
  let st0 := {| es_signals := table; es_trades := trades; es_positions := positions;
                es_total_risk := total_risk; es_per_market := per_market;
                es_executed_count := 0 |} in
  match signals with
  | [] => st0
  | _ =>
      let mode := match configured_mode, client_init with
                  | Live, Some _ => Live
                  | _, _ => Simulate
                  end in
      execute_batch mode client_init limits bankroll config_fraction signals st0
  end.

(** The trade [execute_signals] records for signal [sg]. *)
Definition trade_of_signal {R} (sg : Signal R) (t : Trade R) : Prop :=
  tr_direction t = "buy"%string /\ tr_signal_id t = Some (sig_id sg) /\
  tr_market_ticker t = sig_market_ticker sg /\ tr_side t = sig_side sg.

(* ------------------------------------------------------------------------- *)
(** ** Bulk cancellation ([signals/manage_signals.py], [api/app.py]) *)

Section Cancel.
Context {R : Type} `{PyNum R}.

(** [status IN ('pending','resting','sent','simulated')]. *)
Definition open_status (status : string) : bool :=
  String.eqb status "pending" || String.eqb status "resting" ||
  String.eqb status "sent" || String.eqb status "simulated".

(** [SET status = 'cancelled', last_error = msg,
    executed_price = COALESCE(executed_price, 0),
    executed_size = COALESCE(executed_size, 0)]. *)
Definition cancel_row (msg : string) (row : Signal R) : Signal R :=
  {| sig_id := sig_id row; sig_created_at := sig_created_at row;
     sig_market_ticker := sig_market_ticker row; sig_side := sig_side row;
     sig_p_mkt := sig_p_mkt row; sig_status := "cancelled";
     sig_execution_mode := sig_execution_mode row; sig_order_id := sig_order_id row;
     sig_executed_price := Some (default (py_of_Z 0) (sig_executed_price row));
     sig_executed_size := Some (default 0 (sig_executed_size row));
     sig_last_error := Some (ErrText msg) |}.

(** [cancel_stale_signals(max_age_minutes)], with [cutoff] the instant
    [now - max_age_minutes]: open rows with [created_at < cutoff]. *)
Definition cancel_stale_signals (cutoff : Z) (table : list (Signal R)) : list (Signal R) :=
  map (fun row => if open_status (sig_status row) && (sig_created_at row <? cutoff)
                  then cancel_row "auto-cancelled stale signal" row else row) table.

(** [cancel_open_signals()] (dashboard, [POST /signals/cancel_open]). *)
Definition cancel_open_signals (table : list (Signal R)) : list (Signal R) :=
  map (fun row => if open_status (sig_status row)
                  then cancel_row "cancelled via dashboard" row else row) table.
(** [cur.rowcount] of the stale sweep: the rows its [WHERE] clause matches. *)
Definition cancel_stale_rowcount (cutoff : Z) (table : list (Signal R)) : nat :=
  length (filter (fun row => open_status (sig_status row) && (sig_created_at row <? cutoff)) table).

(** [cur.rowcount] of the dashboard cancel. *)
Definition cancel_open_rowcount (table : list (Signal R)) : nat :=
  length (filter (fun row => open_status (sig_status row)) table).
End Cancel.

(* ------------------------------------------------------------------------- *)
(** ** Calibration buckets ([backtest/calibration.py]) *)

Local Open Scope Q_scope.

(** Python's [a < b] on floats. *)
Definition Qlt_bool (a b : Q) : bool := negb (Qle_bool b a).


(** A calibration bucket ([bucket_low], [bucket_high], [n], [n_yes],
    [p_mkt_avg], [p_true]) over the number type [R]; [None] is Python's
    [None]. *)
Record BucketOf (R : Type) := {
  bucket_low : R;
  bucket_high : R;
  bucket_n : Z;
  bucket_n_yes : Z;
  bucket_p_mkt_avg : option R;
  bucket_p_true : option R
}.
Arguments bucket_low {R}.
Arguments bucket_high {R}.
Arguments bucket_n {R}.
Arguments bucket_n_yes {R}.
Arguments bucket_p_mkt_avg {R}.
Arguments bucket_p_true {R}.

(** The buckets of the calibration code, in exact arithmetic. *)
Abbreviation Bucket := (BucketOf Q).
Abbreviation Build_Bucket := (Build_BucketOf Q).

(** [zip(edges[:-1], edges[1:])]. *)
Definition edge_pairs (edges : list Q) : list (Q * Q) := combine edges (tail edges).

(** [_init_buckets_from_edges(edges)]; [inr msg] is the [ValueError]. *)
Definition init_buckets_from_edges (edges : list Q) : list Bucket + string :=
  if (length edges <? 2)%nat then inr "At least two edges are required"%string else
  fold_right
    (fun '(low, high) acc =>
       if Qle_bool high low then inr "Bin edges must be strictly increasing"%string else
       match acc with
       | inl bs => inl ({| bucket_low := low; bucket_high := high; bucket_n := 0;
                           bucket_n_yes := 0; bucket_p_mkt_avg := None;
                           bucket_p_true := None |} :: bs)
       | inr e => inr e
       end)
    (inl []) (edge_pairs edges).

(** The loop [for idx, (low, high) in enumerate(...)] of [_bucket_from_edges];
    [last_idx] is [len(edges) - 2]. *)
Fixpoint bucket_scan (p : Q) (last_idx idx : Z) (pairs : list (Q * Q)) : Z :=
  match pairs with
  | [] => last_idx
  | (low, high) :: rest =>
      let inclusive_high := Z.eqb idx last_idx in
      if (Qle_bool low p && negb (Qle_bool high p)) || (inclusive_high && Qle_bool p high)
      then idx else bucket_scan p last_idx (idx + 1)%Z rest
  end.

(** [_bucket_from_edges(p_mkt, edges)]; [None] is the [IndexError] of
    [edges[0]] on an empty list. *)
Definition bucket_from_edges (p_mkt : Q) (edges : list Q) : option Z :=
  match edges with
  | [] => None
  | e0 :: _ =>
      let last_idx := (Z.of_nat (length edges) - 2)%Z in
      if Qle_bool p_mkt e0 then Some 0%Z
      else if Qle_bool (List.last edges e0) p_mkt then Some last_idx
      else Some (bucket_scan p_mkt last_idx 0 (edge_pairs edges))
  end.

(** The part of [compute_calibration_with_bins(bin_edges)] that runs before
    any database access: the buckets are built (or the [ValueError] raised)
    first, and [_bucket_from_edges] is the selector. *)
Definition calibration_with_bins_setup (bin_edges : list Q)
    : (list Bucket * (Q -> option Z)) + string :=
  match init_buckets_from_edges bin_edges with
  | inr e => inr e
  | inl buckets => inl (buckets, fun p => bucket_from_edges p bin_edges)
  end.

(* ------------------------------------------------------------------------- *)
(** ** The expected-value estimator ([backtest/live_signals.py]) *)

(** [_bucket_midpoints(bins)]: [(midpoint, p_true)] of the buckets with a
    [p_true], sorted by midpoint. *)
Definition bucket_midpoints {R} `{PyNum R} (bins : list (BucketOf R)) : list (R * R) :=
  sort_by (fun a b : R * R => py_leb (fst a) (fst b))
    (fold_right
       (fun bucket acc =>
          match bucket_p_true bucket with
          | None => acc
          | Some pt =>
              (py_add (bucket_low bucket)
                 (py_div (py_sub (bucket_high bucket) (bucket_low bucket)) (py_of_Z 2)), pt)
              :: acc
          end) [] bins).

(** The [for (x0, y0), (x1, y1) in zip(points, points[1:])] loop, with the
    final [return points[-1][1]] as [dflt]. *)
Fixpoint interp_scan {R} `{PyNum R} (p_mkt dflt : R) (pairs : list ((R * R) * (R * R))) : R :=
  match pairs with
  | [] => dflt
  | ((x0, y0), (x1, y1)) :: rest =>
      if py_leb x0 p_mkt && py_leb p_mkt x1 then
        if py_eqb x1 x0 then y0
        else let weight := py_div (py_sub p_mkt x0) (py_sub x1 x0) in
             py_add y0 (py_mul weight (py_sub y1 y0))
      else interp_scan p_mkt dflt rest
  end.

(** [estimate_p_true(p_mkt, bins)]; [None] is the [RuntimeError] raised when
    no bucket has a [p_true]. *)
Definition estimate_p_true {R} `{PyNum R} (p_mkt : R) (bins : list (BucketOf R)) : option R :=
  let points := bucket_midpoints bins in
  match points with
  | [] => None
  | (x0, y0) :: _ =>
      let '(xl, yl) := List.last points (x0, y0) in
      if py_leb p_mkt x0 then Some y0
      else if py_leb xl p_mkt then Some yl
      else Some (interp_scan p_mkt yl (combine points (tail points)))
  end.

(* ------------------------------------------------------------------------- *)
(** ** The signal generator ([signals/generate_signals.py]) *)

(** The [lookup] closure of [_build_probability_lookup]: the [p_true] of the
    first bucket whose [p_mkt_avg] is closest to [p_mkt], among buckets with
    both values; [p_mkt] itself when there is none. *)
Definition closest_lookup (buckets : list Bucket) (p_mkt : Q) : Q :=
  let closest :=
    fold_left
      (fun best b =>
         match bucket_p_mkt_avg b, bucket_p_true b with
         | Some avg, Some pt =>
             let delta := Qabs (avg - p_mkt) in
             match best with
             | None => Some (delta, pt)
             | Some (best_delta, _) =>
                 if Qlt_bool delta best_delta then Some (delta, pt) else best
             end
         | _, _ => best
         end) buckets None in
  match closest with
  | None => p_mkt
  | Some (_, pt) => pt
  end.

(** [_build_probability_lookup()], given the buckets of
    [get_latest_calibration_result(binning_mode="extreme")] ([None] when no
    result is cached). *)
Definition build_probability_lookup (calib : option (list Bucket)) : Q -> Q :=
  match calib with
  | None => fun p => p
  | Some buckets => closest_lookup buckets
  end.

(** Module constants; durations are in seconds. *)
Definition EV_THRESHOLD_DEFAULT : Q := 2 # 100.
Definition MAX_SIGNALS_DEFAULT : Z := 100.
Definition EXPIRY_HARD_LIMIT : Z := 24 * 3600.
Definition PRO_SPORTS_LONGSHOT_THRESHOLD : Q := 15 # 100.
Definition PRO_SPORTS_CATEGORIES : list string :=
  ["sports"; "nfl"; "nba"; "nhl"; "football"; "basketball"; "hockey"]%string.
Definition COLLEGE_LONGSHOT_THRESHOLD : Q := 2 # 100.
Definition COLLEGE_CATEGORIES : list string := ["college"; "ncaa"; "ncaaf"; "ncaab"]%string.
Definition COLLEGE_MIN_REMAINING : Z := 3600.
Definition PRO_INPLAY_BAND_LOW : Q := 88 # 100.
Definition PRO_INPLAY_BAND_HIGH : Q := 92 # 100.
Definition SPORTS_INPLAY_MAX_REMAINING : Z := 30 * 60.
Definition SPORT_TICKER_HINTS : list string :=
  ["NFL"; "NBA"; "NHL"; "MLB"; "EPL"; "MLS"; "NCAAF"; "NCAAB"; "START"; "GAME"]%string.
Definition WEATHER_MIN_P : Q := 3 # 100.

(** [str.upper()] on ASCII text. *)
Definition ascii_upper (c : Ascii.ascii) : Ascii.ascii :=
  let n := Ascii.nat_of_ascii c in
  if (97 <=? n)%nat && (n <=? 122)%nat then Ascii.ascii_of_nat (n - 32) else c.

Fixpoint str_upper (s : string) : string :=
  match s with
  | EmptyString => EmptyString
  | String c s' => String (ascii_upper c) (str_upper s')
  end.

(** A row of [_latest_prices]: one per market ([DISTINCT ON (market_id)]). *)
Record PriceRow := {
  pr_market_id : string;
  pr_p_mkt : option Q
}.

(** A row of [_market_meta]. *)
Record MarketMeta := {
  mm_name : option string;
  mm_category : option string;
  mm_expiration_ts : option Z
}.

(** A row written by the [INSERT INTO signals] of [generate_signals]. *)
Record NewSignal := {
  ns_market_ticker : string;
  ns_side : string;
  ns_threshold : Q;
  ns_category : option string;
  ns_expiry_bucket : option string;
  ns_p_mkt : Q;
  ns_p_true_est : Q;
  ns_expected_value : Q;
  ns_size : Z;
  ns_status : string
}.

(** [_expiry_bucket(expiration_ts)] at clock reading [now]. *)
Definition expiry_bucket (now : Z) (expiration_ts : option Z) : option string :=
  match expiration_ts with
  | None => None
  | Some ts =>
      let delta := (ts - now)%Z in
      if (delta <=? 24 * 3600)%Z then Some "short"%string
      else if (delta <=? 7 * 24 * 3600)%Z then Some "medium"%string
      else Some "long"%string
  end.

Section Generate.
(** [_parse_market_date]: the date-token parser ([DATE_TOKEN_RE] and the
    shift to game day) is left abstract; every statement below holds for
    any such parser. *)
Variable parse_market_date : string -> option Z.

(** The body of [for row in prices:] up to the candidate list: the
    [(side, ev, forced)] triples to insert, with [p_true] and the expiry
    bucket; [None] when the row is skipped by a [continue]. *)
Definition market_candidates (p_true_fn : Q -> Q) (ev_threshold : Q) (now : Z)
    (meta : gmap string MarketMeta) (row : PriceRow)
    : option (Q * Q * option string * list (string * Q * bool)) :=
  let hard_cutoff_default := (now + EXPIRY_HARD_LIMIT)%Z in
  let market_id := pr_market_id row in
  match pr_p_mkt row with
  | None => None
  | Some p_mkt =>
  let p_true := p_true_fn p_mkt in
  let ev_yes := p_true - p_mkt in
  let ev_no := (1 - p_true) - (1 - p_mkt) in
  let info := meta !! market_id in
  let cat := info ≫= mm_category in
  let cat_lower := str_lower (default "" cat) in
  let ticker_upper := str_upper market_id in
  let is_pro_sport := bool_decide (cat_lower ∈ PRO_SPORTS_CATEGORIES) in
  let is_college := bool_decide (cat_lower ∈ COLLEGE_CATEGORIES) in
  let is_sport_any :=
    is_pro_sport || is_college || str_contains "sport" cat_lower ||
    existsb (fun hint => str_contains hint ticker_upper) SPORT_TICKER_HINTS in
  let market_name := match info ≫= mm_name with
                     | Some n => if String.eqb n "" then market_id else n
                     | None => market_id
                     end in
  let parsed_exp_ts :=
    if is_sport_any then
      match (match parse_market_date market_name with
             | Some t => Some t
             | None => parse_market_date market_id
             end) with
      | Some t => if (t <? now)%Z then None else Some t
      | None => None
      end
    else None in
  let exp_ts :=
    match info ≫= mm_expiration_ts, parsed_exp_ts with
    | Some a, Some b => Some (Z.min a b)
    | Some a, None => Some a
    | None, Some b => Some b
    | None, None => None
    end in
  let hard_cutoff := default hard_cutoff_default parsed_exp_ts in
  match exp_ts with
  | None => None
  | Some exp_ts =>
  if (exp_ts <? now)%Z || (hard_cutoff <? exp_ts)%Z then None else
  let bucket := expiry_bucket now (Some exp_ts) in
  let price := p_mkt in
  if str_contains "weather" cat_lower && Qlt_bool price WEATHER_MIN_P
     && Qlt_bool p_true WEATHER_MIN_P then None else
  let allow_band := Qle_bool PRO_INPLAY_BAND_LOW price && Qle_bool price PRO_INPLAY_BAND_HIGH in
  let longshot_yes := is_pro_sport && Qle_bool price PRO_SPORTS_LONGSHOT_THRESHOLD in
  let longshot_college :=
    is_college && Qle_bool price COLLEGE_LONGSHOT_THRESHOLD
    && (COLLEGE_MIN_REMAINING <=? exp_ts - now)%Z in
  let remaining := (exp_ts - now)%Z in
  let pro_inplay_override :=
    is_sport_any && allow_band && (remaining <=? SPORTS_INPLAY_MAX_REMAINING)%Z
    && (0 <? remaining)%Z in
  if negb (allow_band || longshot_yes || longshot_college || pro_inplay_override)
  then None else
  let candidates :=
    (if allow_band then
       (if Qle_bool ev_threshold ev_no then [("no"%string, ev_no, false)] else [])
     else
       (if Qle_bool ev_threshold ev_yes then [("yes"%string, ev_yes, false)] else []) ++
       (if Qle_bool ev_threshold ev_no then [("no"%string, ev_no, false)] else [])) ++
    (if longshot_yes then [("yes"%string, ev_yes, true)] else []) ++
    (if longshot_college then [("yes"%string, ev_yes, true)] else []) ++
    (if pro_inplay_override && allow_band then [("no"%string, ev_no, true)] else []) in
  Some (p_mkt, p_true, bucket, candidates)
  end
  end.

(** The inserts of one row, stopping once [created] reaches
    [max_signals]; returns the rows written and whether to return. *)
Fixpoint insert_candidates (row : PriceRow) (cat : option string) (p_mkt p_true : Q)
    (bucket : option string) (max_signals created : Z)
    (cands : list (string * Q * bool)) : list NewSignal * Z * bool :=
  match cands with
  | [] => ([], created, false)
  | (side, ev, _) :: rest =>
      let s := {| ns_market_ticker := pr_market_id row; ns_side := side; ns_threshold := p_mkt;
                  ns_category := cat; ns_expiry_bucket := bucket; ns_p_mkt := p_mkt;
                  ns_p_true_est := p_true; ns_expected_value := ev; ns_size := 1;
                  ns_status := "pending" |} in
      let created := (created + 1)%Z in
      if (max_signals <=? created)%Z then ([s], created, true) else
      let '(more, created', stop) :=
        insert_candidates row cat p_mkt p_true bucket max_signals created rest in
      (s :: more, created', stop)
  end.

(** [generate_signals(ev_threshold, max_signals)] over the rows of
    [_latest_prices] and the [_market_meta] map, with the calibration
    result [calib]: the inserted rows. *)
Fixpoint generate_loop (p_true_fn : Q -> Q) (ev_threshold : Q) (max_signals : Z) (now : Z)
    (meta : gmap string MarketMeta) (created : Z) (prices : list PriceRow) : list NewSignal :=
  match prices with
  | [] => []
  | row :: rest =>
      match market_candidates p_true_fn ev_threshold now meta row with
      | None => generate_loop p_true_fn ev_threshold max_signals now meta created rest
      | Some (p_mkt, p_true, bucket, cands) =>
          let '(ins, created', stop) :=
            insert_candidates row (meta !! pr_market_id row ≫= mm_category) p_mkt p_true
              bucket max_signals created cands in
          if stop then ins
          else ins ++ generate_loop p_true_fn ev_threshold max_signals now meta created' rest
      end
  end.

Definition generate_signals (calib : option (list Bucket)) (ev_threshold : Q)
    (max_signals : Z) (now : Z) (meta : gmap string MarketMeta) (prices : list PriceRow)
    : list NewSignal :=
  generate_loop (build_probability_lookup calib) ev_threshold max_signals now meta 0 prices.
End Generate.

(** A candidate [(side, ev, forced)] of [generate_signals] carries the EV
    of its side at [p_mkt] and [p_true]. *)
Definition cand_ev_ok (pm pt : Q) (c : string * Q * bool) : Prop :=
  let '(side, ev, _) := c in
  (side = "yes"%string /\ ev = pt - pm) \/ (side = "no"%string /\ ev = (1 - pt) - (1 - pm)).

(** The shape of an inserted signal row, with [p_true_est] given by [p_true_fn]. *)
Definition new_signal_ok (p_true_fn : Q -> Q) (s : NewSignal) : Prop :=
  ns_size s = 1%Z /\ ns_status s = "pending"%string /\ ns_threshold s = ns_p_mkt s /\
  ns_p_true_est s = p_true_fn (ns_p_mkt s) /\ ns_expiry_bucket s <> None /\
  ((ns_side s = "yes"%string /\ ns_expected_value s = ns_p_true_est s - ns_p_mkt s) \/
   (ns_side s = "no"%string /\
    ns_expected_value s = (1 - ns_p_true_est s) - (1 - ns_p_mkt s))) /\
  ((88 # 100 <= ns_p_mkt s <= 92 # 100 /\ ns_side s = "no"%string) \/ ns_p_mkt s <= 15 # 100).

(* ------------------------------------------------------------------------- *)
(** ** Equal-width buckets and the calibration loop ([backtest/calibration.py],
    [backtest/common.py]) *)



(** The columns of a [prices] row read by [compute_mid_price]. *)
Record PriceQuote := {
  pq_bid_yes : option Q;
  pq_ask_yes : option Q;
  pq_last_yes : option Q
}.

(** [compute_mid_price(row)] of [backtest/common.py]. *)
Definition compute_mid_price (row : PriceQuote) : option Q :=
  match pq_bid_yes row, pq_ask_yes row with
  | Some bid, Some ask => Some ((bid + ask) / 2)
  | _, _ => pq_last_yes row
  end.

(** A resolved market of the calibration query, with the row returned by
    [_latest_price] ([None] when there is none). *)
Record ResolvedMarket := {
  rm_resolution : option string;
  rm_price : option PriceQuote
}.

(** [buckets[idx]] on a list of length [len]: Python accepts
    [-len <= idx < len]; anything else is an [IndexError]. *)
Definition py_index (len : nat) (idx : Z) : option nat :=
  if (0 <=? idx)%Z && (idx <? Z.of_nat len)%Z then Some (Z.to_nat idx)
  else if (- Z.of_nat len <=? idx)%Z && (idx <? 0)%Z then Some (Z.to_nat (Z.of_nat len + idx))
  else None.

(** One iteration of [for market in markets:] of
    [_compute_calibration_generic]; a bucket is paired with its
    [p_mkt_sum].  [selector] returning [None] is an exception raised by it. *)
Definition calib_step (selector : Q -> option Z) (acc : list (Bucket * Q) + string)
    (market : ResolvedMarket) : list (Bucket * Q) + string :=
  match acc with
  | inr e => inr e
  | inl bs =>
      match rm_price market ≫= compute_mid_price with
      | None => inl bs
      | Some p_mkt =>
          match selector p_mkt ≫= py_index (length bs) with
          | None => inr "list index out of range"%string
          | Some i =>
              match bs !! i with
              | None => inr "list index out of range"%string
              | Some (b, s) =>
                  let is_yes := String.eqb (str_upper (default "" (rm_resolution market))) "YES" in
                  inl (<[i := ({| bucket_low := bucket_low b; bucket_high := bucket_high b;
                                  bucket_n := (bucket_n b + 1)%Z;
                                  bucket_n_yes := if is_yes then (bucket_n_yes b + 1)%Z
                                                  else bucket_n_yes b;
                                  bucket_p_mkt_avg := bucket_p_mkt_avg b;
                                  bucket_p_true := bucket_p_true b |}, s + p_mkt)]> bs)
              end
          end
      end
  end.

(** The final [for bucket in buckets:] loop: averages, and [p_mkt_sum]
    dropped. *)
Definition calib_finalize (bs : list (Bucket * Q)) : list Bucket :=
  map (fun '(b, s) =>
         let n := bucket_n b in
         {| bucket_low := bucket_low b; bucket_high := bucket_high b; bucket_n := n;
            bucket_n_yes := bucket_n_yes b;
            bucket_p_mkt_avg := if (n =? 0)%Z then None else Some (s / inject_Z n);
            bucket_p_true := if (n =? 0)%Z then None
                             else Some (inject_Z (bucket_n_yes b) / inject_Z n) |}) bs.

(** [_compute_calibration_generic(buckets, selector)] over the resolved
    markets. *)
Definition compute_calibration_generic (buckets : list Bucket) (selector : Q -> option Z)
    (markets : list ResolvedMarket) : list Bucket + string :=
  match fold_left (calib_step selector) markets (inl (map (fun b => (b, 0)) buckets)) with
  | inr e => inr e
  | inl bs => inl (calib_finalize bs)
  end.

(** [compute_calibration_with_bins(bin_edges)]. *)
Definition compute_calibration_with_bins (bin_edges : list Q) (markets : list ResolvedMarket)
    : list Bucket + string :=
  match init_buckets_from_edges bin_edges with
  | inr e => inr e
  | inl buckets =>
      compute_calibration_generic buckets (fun p => bucket_from_edges p bin_edges) markets
  end.

(** The number of markets that get a mid price. *)
Fixpoint count_priced (markets : list ResolvedMarket) : nat :=
  match markets with
  | [] => O
  | m :: rest =>
      match rm_price m ≫= compute_mid_price with
      | Some _ => S (count_priced rest)
      | None => count_priced rest
      end
  end.

(** The loop invariant of the calibration counters: [0 <= n_yes <= n]. *)
Definition calib_inv (x : Bucket * Q) : Prop :=
  (0 <= bucket_n_yes (fst x) <= bucket_n (fst x))%Z.

(** What the final loop of [_compute_calibration_generic] guarantees of a
    bucket. *)
Definition bucket_summary_ok (b : Bucket) : Prop :=
  (0 <= bucket_n_yes b <= bucket_n b)%Z /\
  (bucket_n b = 0%Z <-> bucket_p_true b = None) /\
  (bucket_n b = 0%Z <-> bucket_p_mkt_avg b = None) /\
  (forall v, bucket_p_true b = Some v -> 0 <= v <= 1).

(** The sum of a list of integers. *)
Fixpoint sum_Z (l : list Z) : Z :=
  match l with [] => 0%Z | x :: rest => (x + sum_Z rest)%Z end.

(* ------------------------------------------------------------------------- *)
(** ** The order client ([execution/client.py]) *)

(** Python's [round(x)] on a float: to the nearest integer, ties to even. *)
Definition py_round (x : Q) : Z :=
  let f := Qfloor x in
  let d := x - inject_Z f in
  if Qlt_bool d (1 # 2) then f
  else if Qlt_bool (1 # 2) d then (f + 1)%Z
  else if Z.even f then f else (f + 1)%Z.

(** [price_cents = max(1, min(99, int(round(order.price * 100))))]. *)
Definition price_cents_of (price : Q) : Z :=
  Z.max 1 (Z.min 99 (py_round (price * 100))).

(** The [OrderRequest] dataclass of the client, with its optional price. *)
Record ClientOrder := {
  co_market_ticker : string;
  co_side : string;
  co_size : Z;
  co_price : option Q;
  co_direction : string
}.

(** [req_kwargs] of [place_order]: [yes_price]/[no_price] are [None] when
    the key is absent and [Some v] when it is set to [v]. *)
Record CreateOrderBody := {
  cb_ticker : string;
  cb_side : string;
  cb_action : string;
  cb_type : string;
  cb_count : Z;
  cb_yes_price : option (option Z);
  cb_no_price : option (option Z)
}.

(** The validation and request-building part of [place_order(order)];
    [inr msg] is the [ValueError]. *)
Definition place_order_body (order : ClientOrder) : CreateOrderBody + string :=
  let side := str_lower (co_side order) in
  let direction := str_lower (co_direction order) in
  if negb (bool_decide (side ∈ ["yes"; "no"]%string)) then
    inr "order.side must be 'yes' or 'no'"%string
  else if negb (bool_decide (direction ∈ ["buy"; "sell"]%string)) then
    inr "order.direction must be 'buy' or 'sell'"%string
  else
    let price_cents := match co_price order with
                       | Some p => Some (price_cents_of p)
                       | None => None
                       end in
    inl {| cb_ticker := co_market_ticker order; cb_side := side; cb_action := direction;
           cb_type := "limit"; cb_count := co_size order;
           cb_yes_price := if String.eqb side "yes" then Some price_cents else None;
           cb_no_price := if String.eqb side "yes" then None else Some price_cents |}.

(** The attributes of [resp.get("order")] read by [place_order]. *)
Record VenueOrder := {
  vo_order_id : option string;
  vo_status : option string;
  vo_count : option Z;
  vo_yes_price : option Z;
  vo_no_price : option Z
}.

(** The dictionary [place_order] builds from the venue's order object
    ([None] when the response has none); [raw] is not modelled. *)
Definition place_order_response (side : string) (order_obj : option VenueOrder)
    : OrderResponse Q :=
  let avg_price_raw := order_obj ≫= (if String.eqb side "yes" then vo_yes_price else vo_no_price) in
  {| resp_order_id := order_obj ≫= vo_order_id;
     resp_id := None;
     resp_avg_price := match avg_price_raw with
                       | Some raw => Some (inject_Z raw / 100)
                       | None => None
                       end;
     resp_filled_size := order_obj ≫= vo_count;
     resp_status := order_obj ≫= vo_status |}.

(** [ExecutionClient.place_order(order)]; [call_api] returns the venue's
    order object or raises. *)
Definition client_place_order (call_api : CreateOrderBody -> option VenueOrder + string)
    (order : ClientOrder) : OrderResponse Q + string :=
  match place_order_body order with
  | inr e => inr e
  | inl body =>
      match call_api body with
      | inr e => inr e
      | inl order_obj => inl (place_order_response (cb_side body) order_obj)
      end
  end.

(* ------------------------------------------------------------------------- *)
(** ** Exposure, status summary and rule tags ([api/app.py]) *)

(** [_norm_price] inside [get_current_exposure]: [float(price or 0.0)],
    a price above 1.0 read as cents and divided by 100, a negative price
    clamped to 0.  The columns read are numeric or NULL, so [float] does not
    raise and the [except] branch is not taken. *)
Definition norm_price (price : option Q) : Q :=
  let p := default 0 price in
  let p := if Qlt_bool 1 p then p / 100 else p in
  if Qlt_bool p 0 then 0 else p.

(** [_risk(side, price, size)] inside [get_current_exposure]. *)
Definition exposure_risk (side : option string) (price : option Q) (size : option Z) : Q :=
  let side := str_lower (default "" side) in
  let price_f := norm_price price in
  let size_i := Z.abs (default 0%Z size) in
  if (size_i <=? 0)%Z then 0
  else if String.eqb side "no" then (1 - price_f) * inject_Z size_i
  else price_f * inject_Z size_i.

(** A row of [positions p LEFT JOIN markets m] as read by
    [get_current_exposure]; timestamps in seconds. *)
Record ExposurePosition := {
  ep_side : option string;
  ep_avg_entry_price : option Q;
  ep_size : option Z;
  ep_expiration_ts : option Z;
  ep_updated_at : option Z
}.

(** A row of the [signals] table, with the columns the exposure and status
    queries read. *)
Record ExposureSignal := {
  xs_side : option string;
  xs_p_mkt : option Q;
  xs_size : option Z;
  xs_status : string
}.

(** The positions loop's two [continue]s: no expiry or an expiry in the
    past, or an [updated_at] older than [now - timedelta(days=2)]. *)
Definition exposure_position_counted (now : Z) (r : ExposurePosition) : bool :=
  match ep_expiration_ts r with
  | None => false
  | Some e =>
      if (e <? now)%Z then false
      else match ep_updated_at r with
           | Some u => negb (u <? now - 2 * 24 * 3600)%Z
           | None => true
           end
  end.

(** [WHERE status IN ('pending', 'sent', 'resting', 'simulated')]. *)
Definition OPEN_SIGNAL_STATUSES : list string := ["pending"; "sent"; "resting"; "simulated"]%string.

Definition exposure_signal_open (r : ExposureSignal) : bool :=
  bool_decide (xs_status r ∈ OPEN_SIGNAL_STATUSES).

Record Exposure := {
  total_exposure : Q;
  positions_exposure : Q;
  signals_exposure : Q
}.

(** [get_current_exposure()] at clock reading [now], over the rows of
    [positions] (joined with [markets]) and of [signals]. *)
Definition get_current_exposure (now : Z) (positions : list ExposurePosition)
    (signals : list ExposureSignal) : Exposure :=
  let pos_risk :=
    fold_left (fun acc r =>
      if exposure_position_counted now r
      then acc + exposure_risk (ep_side r) (ep_avg_entry_price r) (ep_size r)
      else acc) positions 0 in
  let sig_risk :=
    fold_left (fun acc r => acc + exposure_risk (xs_side r) (xs_p_mkt r) (xs_size r))
      (List.filter exposure_signal_open signals) 0 in
  {| total_exposure := pos_risk + sig_risk; positions_exposure := pos_risk;
     signals_exposure := sig_risk |}.





(** The sum of [abs(int(size or 0))] over rows. *)
Definition abs_size_sum {A} (size : A -> option Z) (rows : list A) : Q :=
  fold_right (fun r acc => inject_Z (Z.abs (default 0%Z (size r))) + acc) 0 rows.

(* ------------------------------------------------------------------------- *)
(** ** [compute_existing_risk] ([execution/execute_signals.py]) *)

(** [estimate_trade_risk_usd(signal)]: [p_mkt * size] for side ["yes"] (in
    any case), [(1.0 - p_mkt) * size] for every other side, [None] included. *)
Definition estimate_trade_risk_usd (side : option string) (p_mkt : Q) (size : Z) : Q :=
  let side := str_lower (default "" side) in
  if String.eqb side "yes" then p_mkt * inject_Z size
  else (1 - p_mkt) * inject_Z size.

(** [_norm_price] inside [compute_existing_risk]: [float(None)] raises
    [TypeError], which is caught and gives 0.0. *)
Definition existing_norm_price (val : option Q) : Q :=
  match val with
  | None => 0
  | Some p =>
      let p := if Qlt_bool 1 p then p / 100 else p in
      if Qlt_bool p 0 then 0 else p
  end.

(** A row of [signals] as read by [compute_existing_risk] ([size] is
    [NOT NULL]: [int(size)] is applied to it). *)
Record RiskSignalRow := {
  rs_market_ticker : string;
  rs_side : option string;
  rs_p_mkt : option Q;
  rs_size : Z;
  rs_status : string
}.

(** A row of [positions] as read by [compute_existing_risk]. *)
Record RiskPositionRow := {
  rp_market_ticker : string;
  rp_side : option string;
  rp_size : Z;
  rp_avg_entry_price : option Q
}.

(** [WHERE status IN ('pending', 'sent')]. *)
Definition risk_signal_open (r : RiskSignalRow) : bool :=
  bool_decide (rs_status r ∈ ["pending"; "sent"]%string).

(** The risk of one signal row: [estimate_trade_risk_usd] of the row with
    its price normalised. *)
Definition existing_signal_risk (r : RiskSignalRow) : Q :=
  estimate_trade_risk_usd (rs_side r) (existing_norm_price (rs_p_mkt r)) (rs_size r).

(** The risk of one position row: [abs(avg_price * size)] for side ["yes"]
    (case-sensitive), [abs((1.0 - avg_price) * size)] otherwise. *)
Definition existing_position_risk (r : RiskPositionRow) : Q :=
  let avg_price := existing_norm_price (rp_avg_entry_price r) in
  match rp_side r with
  | Some s => if String.eqb s "yes" then Qabs (avg_price * inject_Z (rp_size r))
              else Qabs ((1 - avg_price) * inject_Z (rp_size r))
  | None => Qabs ((1 - avg_price) * inject_Z (rp_size r))
  end.

(** [per_market[market_ticker] = per_market.get(market_ticker, 0.0) + r;
    total += r]. *)
Definition add_risk (acc : gmap string Q * Q) (market_ticker : string) (r : Q) : gmap string Q * Q :=
  (<[market_ticker := default 0 (acc.1 !! market_ticker) + r]> acc.1, acc.2 + r).

(** [compute_existing_risk(conn)]: [(per_market, total)].  The positions
    query runs inside [try]; with the [positions] table present no
    exception is raised there. *)
Definition compute_existing_risk (signals : list RiskSignalRow)
    (positions : list RiskPositionRow) : gmap string Q * Q :=
  let acc :=
    fold_left (fun acc r => add_risk acc (rs_market_ticker r) (existing_signal_risk r))
      (List.filter risk_signal_open signals) (∅, 0) in
  fold_left (fun acc r => add_risk acc (rp_market_ticker r) (existing_position_risk r))
    positions acc.

(** The sum of [f] over a list. *)
Definition qsum {A} (f : A -> Q) (l : list A) : Q :=
  fold_right (fun r acc => f r + acc) 0 l.

(* ------------------------------------------------------------------------- *)
(** ** Take-profit exits ([execution/exit_positions.py]) *)

(** [_should_take_profit(side, entry, current, factor)]; its caller never
    passes [None] for [entry] or [current]. *)
Definition should_take_profit (side : string) (entry current factor : Q) : bool :=
  if Qle_bool entry 0 then false
  else if String.eqb side "yes" then Qle_bool (entry * factor) current
  else Qle_bool current (entry / factor).

(** A row of [_fetch_positions_with_prices]. *)
Record ExitRow := {
  ex_market_ticker : string;
  ex_side : option string;
  ex_size : option Z;
  ex_avg_entry_price : option Q;
  ex_category : option string;
  ex_expiration_ts : option Z;
  ex_current_price : option Q
}.

(** [EXPIRY_HARD_LIMIT_HOURS] of [exit_positions.py], in seconds. *)
Definition EXIT_EXPIRY_HARD_LIMIT : Z := 24 * 3600.

(** The body of [for pos in positions:] of [process_take_profit_exits] up
    to the order: the closing trade passed to [record_trade] (in simulate
    mode), or [None] for a [continue]. *)
Definition exit_trade (factor : Q) (now : Z) (pos : ExitRow) : option (Trade Q) :=
  let market := ex_market_ticker pos in
  let side := str_lower (default "" (ex_side pos)) in
  let size := default 0%Z (ex_size pos) in
  let entry := default 0 (ex_avg_entry_price pos) in
  let cat := str_lower (default "" (ex_category pos)) in
  if (size <=? 0)%Z || negb (String.eqb side "yes" || String.eqb side "no") then None else
  match ex_expiration_ts pos with
  | None => None
  | Some exp_ts =>
      if (exp_ts <? now)%Z || (now + EXIT_EXPIRY_HARD_LIMIT <? exp_ts)%Z then None else
      match ex_current_price pos with
      | None => None
      | Some current =>
          let college_fast_exit :=
            bool_decide (cat ∈ ["college"; "ncaa"; "ncaaf"; "ncaab"]%string)
            && String.eqb side "yes" && Qle_bool entry (2 # 100) && Qle_bool (10 # 100) current in
          if negb (should_take_profit side entry current factor || college_fast_exit) then None
          else Some {| tr_signal_id := None; tr_market_ticker := market; tr_side := side;
                       tr_size := size; tr_price := current; tr_direction := "sell" |}
      end
  end.

(** [process_take_profit_exits()] in simulate mode: each exit is recorded
    through [record_trade]; returns the ledger and the [processed] count. *)
Definition process_exits_simulated (factor : Q) (now : Z) (rows : list ExitRow)
    (trades : list (Trade Q)) (positions : gmap (string * string) (Position Q))
    : list (Trade Q) * gmap (string * string) (Position Q) * Z :=
  fold_left
    (fun '(trades, positions, processed) pos =>
       match exit_trade factor now pos with
       | None => (trades, positions, processed)
       | Some t =>
           let '(trades', positions') := record_trade trades positions t in
           (trades', positions', (processed + 1)%Z)
       end) rows (trades, positions, 0%Z).

(* ------------------------------------------------------------------------- *)
(** ** Inputs used by the concrete statements *)

Definition limits_50_200_500 {R} `{PyNum R} : RiskLimits R :=
  {| max_risk_per_trade := py_of_Z 50; max_risk_per_market := py_of_Z 200;
     max_risk_total := py_of_Z 500 |}.

(** A pending signal with the given side and price. *)
Definition pending_signal {R} (id : Z) (market side : string) (p_mkt : R) : Signal R :=
  {| sig_id := id; sig_created_at := 0; sig_market_ticker := market; sig_side := side;
     sig_p_mkt := p_mkt; sig_status := "pending"; sig_execution_mode := None;
     sig_order_id := None; sig_executed_price := None; sig_executed_size := None;
     sig_last_error := None |}.

(** The signal row with its status replaced. *)
Definition with_status {R} (status : string) (row : Signal R) : Signal R :=
  {| sig_id := sig_id row; sig_created_at := sig_created_at row;
     sig_market_ticker := sig_market_ticker row; sig_side := sig_side row;
     sig_p_mkt := sig_p_mkt row; sig_status := status;
     sig_execution_mode := sig_execution_mode row; sig_order_id := sig_order_id row;
     sig_executed_price := sig_executed_price row; sig_executed_size := sig_executed_size row;
     sig_last_error := sig_last_error row |}.

(** The in-memory exposure of a run is within the total and per-market caps. *)
Definition within_caps (lim : RiskLimits Q) (st : ExecState Q) : Prop :=
  es_total_risk st <= max_risk_total lim /\
  forall (m : string) (v : Q), es_per_market st !! m = Some v -> v <= max_risk_per_market lim.

(** A run state at batch start: the given table, nothing committed yet. *)
Definition batch_start {R} `{PyNum R} (table : list (Signal R)) : ExecState R :=
  {| es_signals := table; es_trades := []; es_positions := ∅;
     es_total_risk := py_of_Z 0; es_per_market := ∅; es_executed_count := 0 |}.

(** Three pending YES signals on market ["M"] at 0.5. *)
Definition three_signals_M {R} (half : R) : list (Signal R) :=
  [pending_signal 1 "M" "yes" half; pending_signal 2 "M" "yes" half;
   pending_signal 3 "M" "yes" half].

(** A run state at batch start with exposure already committed: 495 in total
    and 150 on market ["M"]. *)
Definition busy_batch_start (table : list (Signal Q)) : ExecState Q :=
  {| es_signals := table; es_trades := []; es_positions := ∅;
     es_total_risk := 495; es_per_market := {[ "M"%string := 150 ]};
     es_executed_count := 0 |}.

(** A venue whose order submission always raises with the given text. *)
Definition failing_venue {R} (msg : string) : @PlaceOrder R := fun _ => inr msg.

(** The sizing call of [tests/test_sizing.py]: bankroll 1000, risk fraction
    0.03, caps (50, 200, 500), no prior exposure. *)
Definition size_1000_3pct {R} `{PyNum R} (side : string) (price fraction : R) : Z * R :=
  compute_order_size_for_signal (pending_signal 1 "M" side price) (py_of_Z 1000)
    limits_50_200_500 (py_of_Z 0) (py_of_Z 0) (Some fraction) fraction.

(** A sizing call with bankroll 1000 and risk fraction 0.03, flat caps
    [(mt, mm, mtot)], and prior total exposure [tot]. *)
Definition size_with_caps {R} `{PyNum R} (side : string) (price fraction : R)
    (mt mm mtot tot : R) : Z * R :=
  compute_order_size_for_signal (pending_signal 1 "M" side price) (py_of_Z 1000)
    {| max_risk_per_trade := mt; max_risk_per_market := mm; max_risk_total := mtot |}
    (py_of_Z 0) tot (Some fraction) fraction.

(** Two calibration buckets, [[0, 0.5)] and [[0.5, 1]], each of five
    observations, with average prices 0.25 and 0.75 and observed YES rates
    0.2 and 0.8. *)
Definition two_buckets : list Bucket :=
  [ {| bucket_low := 0; bucket_high := 1 # 2; bucket_n := 5; bucket_n_yes := 1;
       bucket_p_mkt_avg := Some (1 # 4); bucket_p_true := Some (1 # 5) |};
    {| bucket_low := 1 # 2; bucket_high := 1; bucket_n := 5; bucket_n_yes := 4;
       bucket_p_mkt_avg := Some (3 # 4); bucket_p_true := Some (4 # 5) |} ].

(** [EXTREME_BIN_EDGES] of [backtest/calibration.py]. *)
Definition EXTREME_BIN_EDGES : list Q :=
  [0; 2 # 100; 5 # 100; 10 # 100; 20 # 100; 40 # 100; 60 # 100; 80 # 100; 90 # 100;
   95 # 100; 98 # 100; 1].


(** A venue that accepts every order and reports it as resting on the book. *)
Definition resting_venue {R} : @PlaceOrder R := fun _ =>
  inl {| resp_order_id := Some "o-1"%string; resp_id := None; resp_avg_price := None;
         resp_filled_size := None; resp_status := Some "resting"%string |}.

(** A positions table holding 10 YES contracts of market ["M"] at 0.5 with
    a realized PnL of 5. *)
Definition one_position {R} `{PyNum R} : gmap (string * string) (Position R) :=
  {[("M", "yes")%string := {| pos_size := 10; pos_avg_entry_price := py_div (py_of_Z 1) (py_of_Z 2);
                              pos_realized_pnl := py_of_Z 5 |}]}.

(** A positions table holding a NO position of market ["N"]: 4 contracts at
    0.25 with a realized PnL of 3. *)
Definition one_no_position {R} `{PyNum R} : gmap (string * string) (Position R) :=
  {[("N", "no")%string := {| pos_size := 4; pos_avg_entry_price := py_div (py_of_Z 1) (py_of_Z 4);
                             pos_realized_pnl := py_of_Z 3 |}]}.

(* ------------------------------------------------------------------------- *)
(** ** Auxiliary definitions used in the proofs *)



(** The interpolation loop of [estimate_p_true] over the points
    [(x0, y0) :: rest], once the price is known to be at or above [x0]. *)
Fixpoint chain_eval (p dflt x0 y0 : Q) (rest : list (Q * Q)) : Q :=
  match rest with
  | [] => dflt
  | (x1, y1) :: rest' =>
      if Qle_bool p x1 then
        if Qeq_bool x1 x0 then y0 else y0 + (p - x0) / (x1 - x0) * (y1 - y0)
      else chain_eval p dflt x1 y1 rest'
  end.

(** [estimate_p_true] on a non-empty list of points [(x0, y0) :: rest]. *)
Definition est_points (p x0 y0 : Q) (rest : list (Q * Q)) : Q :=
  let '(xl, yl) := List.last ((x0, y0) :: rest) (x0, y0) in
  if Qle_bool p x0 then y0
  else if Qle_bool xl p then yl
  else interp_scan p yl (combine ((x0, y0) :: rest) rest).

(** The [p_true] values of the points do not decrease along the list. *)
Fixpoint ys_sorted (y0 : Q) (rest : list (Q * Q)) : Prop :=
  match rest with
  | [] => True
  | (_, y1) :: rest' => y0 <= y1 /\ ys_sorted y1 rest'
  end.

(** Two populated buckets with the same midpoint 0.5: [[0, 1]] with YES
    rate 0.2 and [[0.25, 0.75]] with YES rate 0.8. *)
Definition nested_buckets : list Bucket :=
  [ {| bucket_low := 0; bucket_high := 1; bucket_n := 5; bucket_n_yes := 1;
       bucket_p_mkt_avg := Some (1 # 2); bucket_p_true := Some (1 # 5) |};
    {| bucket_low := 1 # 4; bucket_high := 3 # 4; bucket_n := 5; bucket_n_yes := 4;
       bucket_p_mkt_avg := Some (1 # 2); bucket_p_true := Some (4 # 5) |} ].

(** Three populated buckets in binary64, [[0, 0.25]], [[0.25, 0.5]] and
    [[0.5, 0.75]], of ten observations each, with YES rates 0.3, 0.9 and
    0.9. *)
Definition rising_buckets_f64 : list (BucketOf float) :=
  [ {| bucket_low := 0; bucket_high := 0.25; bucket_n := 10; bucket_n_yes := 3;
       bucket_p_mkt_avg := Some 0.125; bucket_p_true := Some 0.3 |};
    {| bucket_low := 0.25; bucket_high := 0.5; bucket_n := 10; bucket_n_yes := 9;
       bucket_p_mkt_avg := Some 0.375; bucket_p_true := Some 0.9 |};
    {| bucket_low := 0.5; bucket_high := 0.75; bucket_n := 10; bucket_n_yes := 9;
       bucket_p_mkt_avg := Some 0.625; bucket_p_true := Some 0.9 |} ]%float.

(* ========================================================================= *)
(** * Properties *)

(** ** Python numbers over [Q] *)

Lemma py_min_Q (a b : Q) : py_min a b = Qmin a b.
Proof.
  unfold py_min, Qmin, GenericMinMax.gmin.
  change (py_ltb b a) with (negb (Qle_bool a b)).
  destruct (Qle_bool a b) eqn:E; cbn [negb].
  - apply Qle_bool_iff in E. rewrite Qle_alt in E. destruct (a ?= b); congruence.
  - assert (~ a <= b) as N by (rewrite <- Qle_bool_iff; congruence).
    rewrite Qle_alt in N. destruct (a ?= b); try reflexivity; exfalso; apply N; discriminate.
Qed.

Lemma Qle_bool_false (a b : Q) : Qle_bool a b = false <-> b < a.
Proof.
  split; intros E.
  - apply Qnot_le_lt. rewrite <- Qle_bool_iff. congruence.
  - destruct (Qle_bool a b) eqn:F; [|reflexivity].
    apply Qle_bool_iff in F. exfalso. apply (Qlt_not_le _ _ E F).
Qed.

Lemma Qmin_le_l (a b : Q) : Qmin a b <= a.
Proof. apply Q.le_min_l. Qed.

Lemma Qmin_le_r (a b : Q) : Qmin a b <= b.
Proof. apply Q.le_min_r. Qed.

Ltac py_Q := cbn [py_leb py_ltb py_of_Z py_add py_sub py_neg py_mul py_div py_ceil
                  py_floordiv PyNum_Q] in *; cbv beta in *.

(** Split an equation between pairs without unfolding its components. *)
Ltac pair_eq H :=
  let H1 := fresh "Hfst" in let H2 := fresh "Hsnd" in
  pose proof (f_equal fst H) as H1; pose proof (f_equal snd H) as H2;
  cbn [fst snd] in H1, H2; clear H.

Lemma Qle_bool_true (a b : Q) : Qle_bool a b = true <-> a <= b.
Proof. apply Qle_bool_iff. Qed.

Lemma Zmult_r_le (a b : Z) (r : Q) : (a <= b)%Z -> 0 < r -> inject_Z a * r <= inject_Z b * r.
Proof.
  intros Hab Hr. apply Qmult_le_compat_r; [rewrite <- Zle_Qle; exact Hab | apply Qlt_le_weak, Hr].
Qed.

Lemma Qfloor_div_mult_le (m r : Q) : 0 < r -> inject_Z (Qfloor (m / r)) * r <= m.
Proof.
  intros Hr.
  apply Qle_trans with ((m / r) * r).
  - apply Qmult_le_compat_r; [apply Qfloor_le | apply Qlt_le_weak, Hr].
  - rewrite Qmult_comm, Qmult_div_r; [apply Qle_refl | intros E; rewrite E in Hr; discriminate].
Qed.

(** The sizing arithmetic of [compute_order_size_for_signal] under exact
    arithmetic: a positive size keeps [size * risk_per_contract] within the
    binding cap. *)
Lemma compute_order_size_within_cap (sg : Signal Q) (bankroll : Q) (lim : RiskLimits Q)
    (pm tot : Q) (rf : option Q) (cfg : Q) (s : Z) (r : Q) :
  compute_order_size_for_signal sg bankroll lim pm tot rf cfg = (s, r) ->
  (0 < s)%Z ->
  r = risk_per_contract_of sg /\ 0 < r /\
  inject_Z s * r <= Qmin (Qmin (Qmin (max_risk_per_trade lim) (bankroll * default cfg rf))
                               (max_risk_per_market lim - pm)) (max_risk_total lim - tot).
Proof.
  intros Hc Hs. unfold compute_order_size_for_signal in Hc. py_Q.
  rewrite !py_min_Q in Hc.
  set (M := Qmin (Qmin (Qmin (max_risk_per_trade lim) (bankroll * default cfg rf))
                        (max_risk_per_market lim - pm)) (max_risk_total lim - tot)) in *.
  set (rc := risk_per_contract_of sg) in *.
  destruct (Qle_bool rc (inject_Z 0)) eqn:E1; [pair_eq Hc; lia|].
  destruct (Qle_bool M (inject_Z 0)) eqn:E2; [pair_eq Hc; lia|].
  apply Qle_bool_false in E1, E2.
  set (c := Qceiling (Qmin (inject_Z 3) M / rc)) in *.
  destruct (Qle_bool (inject_Z c * rc) M) eqn:E3; cbn [negb] in Hc.
  - destruct (c <=? 0)%Z eqn:E4; pair_eq Hc; subst s r; [lia|].
    split; [reflexivity|]. split; [exact E1|].
    apply Qle_bool_iff in E3.
    apply Qle_trans with (inject_Z c * rc); [apply Zmult_r_le; [lia | exact E1] | exact E3].
  - destruct (Qfloor (M / rc) <=? 0)%Z eqn:E4; pair_eq Hc; subst s r; [lia|].
    split; [reflexivity|]. split; [exact E1|].
    apply Qle_trans with (inject_Z (Qfloor (M / rc)) * rc);
      [apply Zmult_r_le; [lia | exact E1] | apply Qfloor_div_mult_le, E1].
Qed.

(** ** The guard checks never reject a positively sized signal (exact arithmetic) *)

Lemma sized_risk_bounds (sg : Signal Q) (bankroll : Q) (lim : RiskLimits Q)
    (pm tot : Q) (rf : option Q) (cfg : Q) (s : Z) (r : Q) :
  compute_order_size_for_signal sg bankroll lim pm tot rf cfg = (s, r) ->
  (0 < s)%Z ->
  r * inject_Z s <= max_risk_per_trade lim /\
  pm + r * inject_Z s <= max_risk_per_market lim /\
  tot + r * inject_Z s <= max_risk_total lim.
Proof.
  intros Hc Hs.
  destruct (compute_order_size_within_cap _ _ _ _ _ _ _ _ _ Hc Hs) as (_ & _ & Hle).
  rewrite Qmult_comm in Hle.
  set (M := Qmin (Qmin (Qmin (max_risk_per_trade lim) (bankroll * default cfg rf))
                        (max_risk_per_market lim - pm)) (max_risk_total lim - tot)) in *.
  assert (M <= max_risk_per_trade lim) as H1
    by (eapply Qle_trans; [apply Qmin_le_l|]; eapply Qle_trans; [apply Qmin_le_l|]; apply Qmin_le_l).
  assert (M <= max_risk_per_market lim - pm) as H2
    by (eapply Qle_trans; [apply Qmin_le_l|]; apply Qmin_le_r).
  assert (M <= max_risk_total lim - tot) as H3 by apply Qmin_le_r.
  generalize dependent (r * inject_Z s). intros x Hx. repeat split; lra.
Qed.

Lemma guard_checks_pass (lim : RiskLimits Q) (pm tot x : Q) :
  x <= max_risk_per_trade lim -> pm + x <= max_risk_per_market lim ->
  tot + x <= max_risk_total lim -> guard_checks lim pm tot x = None.
Proof.
  intros H1 H2 H3. unfold guard_checks. py_Q.
  apply Qle_bool_iff in H1, H2, H3. rewrite H1, H2, H3. reflexivity.
Qed.

Lemma update_signal_execution_risk {R} `{PyNum R} id status mode oid ep es err (st : ExecState R) :
  es_total_risk (update_signal_execution id status mode oid ep es err st) = es_total_risk st /\
  es_per_market (update_signal_execution id status mode oid ep es err st) = es_per_market st.
Proof. split; reflexivity. Qed.

Lemma within_caps_update (lim : RiskLimits Q) id status mode oid ep es err (st : ExecState Q) :
  within_caps lim st -> within_caps lim (update_signal_execution id status mode oid ep es err st).
Proof. intros H. exact H. Qed.

Lemma within_caps_record (lim : RiskLimits Q) tr (st : ExecState Q) :
  within_caps lim st -> within_caps lim (st_record_trade tr st).
Proof.
  unfold st_record_trade. destruct (record_trade _ _ _). intros H. exact H.
Qed.

Lemma within_caps_commit (lim : RiskLimits Q) (m : string) (x : Q) (st : ExecState Q) :
  within_caps lim st ->
  es_total_risk st + x <= max_risk_total lim ->
  default 0 (es_per_market st !! m) + x <= max_risk_per_market lim ->
  within_caps lim (commit_risk m x st).
Proof.
  intros [Ht Hm] Hx Hy. split; cbn [es_total_risk es_per_market commit_risk]; py_Q.
  - exact Hx.
  - intros m' v Hv. destruct (decide (m = m')) as [<-|Hne].
    + rewrite lookup_insert_eq in Hv. injection Hv as <-. exact Hy.
    + rewrite lookup_insert_ne in Hv by exact Hne. eapply Hm, Hv.
Qed.

Lemma execute_one_within_caps (mode : ExecutionMode) (client : option (@PlaceOrder Q))
    (lim : RiskLimits Q) (bankroll cfg : Q) (st : ExecState Q) (sg : Signal Q) :
  within_caps lim st -> within_caps lim (execute_one mode client lim bankroll cfg st sg).
Proof.
  intros Hst. unfold execute_one.
  destruct (compute_order_size_for_signal sg bankroll lim _ _ None cfg) as [s r] eqn:Hc.
  destruct (s <=? 0)%Z eqn:Hs; [apply within_caps_update, Hst|].
  apply Z.leb_gt in Hs.
  destruct (sized_risk_bounds _ _ _ _ _ _ _ _ _ Hc Hs) as (H1 & H2 & H3).
  change (py_mul r (py_of_Z s)) with (r * inject_Z s).
  change (py_of_Z 0) with (inject_Z 0) in *.
  rewrite (guard_checks_pass _ _ _ _ H1 H2 H3).
  destruct mode.
  - apply within_caps_commit; [apply within_caps_record, within_caps_update, Hst | exact H3 | exact H2].
  - destruct (match client with Some po => _ | None => _ end) as [resp|exc].
    + apply within_caps_commit;
        [apply within_caps_record, within_caps_update, Hst | exact H3 | exact H2].
    + apply within_caps_update, Hst.
Qed.

Lemma execute_batch_within_caps_all (mode : ExecutionMode) (client : option (@PlaceOrder Q))
    (lim : RiskLimits Q) (bankroll cfg : Q) (sigs : list (Signal Q)) (st : ExecState Q) :
  within_caps lim st -> within_caps lim (execute_batch mode client lim bankroll cfg sigs st).
Proof.
  revert st. induction sigs as [|sg sigs IH]; intros st Hst; [exact Hst|].
  apply IH, execute_one_within_caps, Hst.
Qed.

(** C1. During one [execute_signals] batch, with the exposure at batch start
    within the caps: after every prefix of the batch the running total and
    per-market exposure stay within [max_risk_total] and
    [max_risk_per_market]; and the next signal, if the sizing gives it a
    positive size [s] at per-contract risk [r], has [r * s] within
    [max_risk_per_trade], keeps its market's and the total exposure within
    their caps, and passes all three guard checks (exact arithmetic). *)
Theorem execute_signals_respects_caps (mode : ExecutionMode) (client : option (@PlaceOrder Q))
    (lim : RiskLimits Q) (bankroll cfg : Q) (sigs : list (Signal Q)) (st0 : ExecState Q) :
  within_caps lim st0 ->
  forall n : nat,
    let st := execute_batch mode client lim bankroll cfg (take n sigs) st0 in
    within_caps lim st /\
    forall (sg : Signal Q) (s : Z) (r : Q),
      sigs !! n = Some sg ->
      let pm := default 0 (es_per_market st !! sig_market_ticker sg) in
      compute_order_size_for_signal sg bankroll lim pm (es_total_risk st) None cfg = (s, r) ->
      (0 < s)%Z ->
      r * inject_Z s <= max_risk_per_trade lim /\
      pm + r * inject_Z s <= max_risk_per_market lim /\
      es_total_risk st + r * inject_Z s <= max_risk_total lim /\
      guard_checks lim pm (es_total_risk st) (r * inject_Z s) = None.
Proof.
  intros H0 n st. split; [apply execute_batch_within_caps_all, H0|].
  intros sg s r _ pm Hc Hs.
  destruct (sized_risk_bounds _ _ _ _ _ _ _ _ _ Hc Hs) as (H1 & H2 & H3).
  split; [exact H1|]. split; [exact H2|]. split; [exact H3|].
  apply guard_checks_pass; assumption.
Qed.

(** A batch of three signals on market ["M"] that starts with 495 of total
    and 150 of per-market exposure: after the first dispatch (risk 3) the
    state is still within the caps, and the second signal, sized against the
    accumulated 498 and 153 to 4 contracts at 0.5, fits both caps and passes
    the guards. *)
Lemma execute_signals_respects_caps_witness :
  let st1 := execute_batch Simulate None limits_50_200_500 1000 (15 # 1000)
               (take 1 (three_signals_M (1 # 2))) (busy_batch_start (three_signals_M (1 # 2))) in
  within_caps limits_50_200_500 (busy_batch_start (three_signals_M (1 # 2))) /\
  es_total_risk st1 == 498 /\ es_per_market st1 !! "M"%string = Some (306 # 2) /\
  within_caps limits_50_200_500 st1 /\
  (306 # 2) + (1 # 2) * inject_Z 4 <= max_risk_per_market (limits_50_200_500 (R := Q)) /\
  es_total_risk st1 + (1 # 2) * inject_Z 4 <= max_risk_total (limits_50_200_500 (R := Q)) /\
  guard_checks limits_50_200_500 (306 # 2) (es_total_risk st1) ((1 # 2) * inject_Z 4) = None.
Proof.
  cbv zeta.
  assert (H0 : within_caps limits_50_200_500 (busy_batch_start (three_signals_M (1 # 2)))).
  { split; [apply Qle_bool_iff; reflexivity|].
    intros m v Hv. cbn [es_per_market busy_batch_start] in Hv.
    apply lookup_singleton_Some in Hv as [_ <-]. apply Qle_bool_iff; reflexivity. }
  pose proof (execute_signals_respects_caps Simulate None limits_50_200_500 1000 (15 # 1000)
                (three_signals_M (1 # 2)) _ H0 1) as Hn.
  cbv zeta in Hn. destruct Hn as [Hc1 Hn].
  assert (Hpm : es_per_market (execute_batch Simulate None limits_50_200_500 1000 (15 # 1000)
                  (take 1 (three_signals_M (1 # 2))) (busy_batch_start (three_signals_M (1 # 2))))
                  !! "M"%string = Some (306 # 2)) by (vm_compute; reflexivity).
  destruct (Hn (pending_signal 2 "M" "yes" (1 # 2)) 4%Z (1 # 2) eq_refl) as (_ & H2 & H3 & H4).
  { cbn [sig_market_ticker pending_signal]. rewrite Hpm. vm_compute. reflexivity. }
  { lia. }
  cbn [sig_market_ticker pending_signal] in H2, H3, H4. rewrite Hpm in H2, H4. cbn [default] in H2, H4.
  split; [exact H0|]. split; [vm_compute; reflexivity|]. split; [exact Hpm|].
  split; [exact Hc1|]. split; [exact H2|]. split; [exact H3 | exact H4].
Defined.

(** ** A failed live submission *)

Lemma map_update_Forall2 {R} (P : Signal R -> Signal R -> Prop) (f : Signal R -> Signal R)
    (id : Z) (l : list (Signal R)) :
  (forall row, sig_id row = id -> P row (f row)) ->
  (forall row, sig_id row <> id -> P row row) ->
  Forall2 P l (map (fun row => if sig_id row =? id then f row else row) l).
Proof.
  intros Hf Hn. induction l as [|row l IH]; constructor; [|exact IH].
  destruct (sig_id row =? id)%Z eqn:E; [apply Hf; lia | apply Hn; lia].
Qed.

(** C8. In live mode, when the order submission for a sized signal that
    passed the guards raises (the venue raises, or the client was never
    constructed), [execute_signals] sets exactly the rows with that signal's
    id to status ["error"] with the exception text as [last_error] (all other
    rows untouched), records no trade, leaves the positions, the running
    total and per-market exposure and the executed count unchanged, and the
    loop goes on with the remaining signals from that state. *)
Theorem execute_signals_submission_error {R} `{PyNum R} (client : option (@PlaceOrder R))
    (lim : RiskLimits R) (bankroll cfg : R) (st : ExecState R) (sg : Signal R)
    (s : Z) (r : R) (exc : string) :
  let pm := default (py_of_Z 0) (es_per_market st !! sig_market_ticker sg) in
  compute_order_size_for_signal sg bankroll lim pm (es_total_risk st) None cfg = (s, r) ->
  (0 < s)%Z ->
  guard_checks lim pm (es_total_risk st) (py_mul r (py_of_Z s)) = None ->
  match client with
  | None => exc = CLIENT_NOT_INITIALIZED
  | Some place_order =>
      place_order {| or_market_ticker := sig_market_ticker sg; or_side := sig_side sg;
                     or_size := s; or_price := sig_p_mkt sg; or_direction := "buy" |} = inr exc
  end ->
  let st' := execute_one Live client lim bankroll cfg st sg in
  Forall2 (fun old new =>
             if sig_id old =? sig_id sg
             then sig_status new = "error" /\ sig_last_error new = Some (ErrText exc) /\
                  sig_execution_mode new = Some Live /\ sig_id new = sig_id old /\
                  sig_order_id new = sig_order_id old /\
                  sig_executed_price new = sig_executed_price old /\
                  sig_executed_size new = sig_executed_size old
             else new = old) (es_signals st) (es_signals st') /\
  es_trades st' = es_trades st /\ es_positions st' = es_positions st /\
  es_total_risk st' = es_total_risk st /\ es_per_market st' = es_per_market st /\
  es_executed_count st' = es_executed_count st /\
  forall rest : list (Signal R),
    execute_batch Live client lim bankroll cfg (sg :: rest) st =
    execute_batch Live client lim bankroll cfg rest st'.
Proof.
  intros pm Hc Hs Hg Hraise st'.
  assert (Hst' : st' = update_signal_execution (sig_id sg) "error" Live None None None
                         (Some (ErrText exc)) st).
  { subst st'. unfold execute_one. fold pm. rewrite Hc.
    destruct (s <=? 0)%Z eqn:E; [lia|]. rewrite Hg.
    destruct client as [po|]; [rewrite Hraise | subst exc]; reflexivity. }
  split; [|split; [|split; [|split; [|split; [|split]]]]]; try (rewrite Hst'; reflexivity).
  - rewrite Hst'. cbn [es_signals update_signal_execution set_signals].
    apply map_update_Forall2.
    + intros row Hid.
      assert (E : (sig_id row =? sig_id sg)%Z = true) by (apply Z.eqb_eq; exact Hid).
      rewrite E. repeat split; reflexivity.
    + intros row Hid. apply Z.eqb_neq in Hid. rewrite Hid. reflexivity.
  - intros rest. reflexivity.
Qed.

Lemma execute_signals_submission_error_witness :
  let sg := pending_signal (R := Q) 7 "M" "yes" (1 # 2) in
  let st := batch_start [sg] in
  es_signals (execute_one Live (Some (failing_venue "timeout")) limits_50_200_500 1000
                (15 # 1000) st sg) =
  map (fun row => if sig_id row =? sig_id sg
                  then update_signal_row "error" Live None None None (Some (ErrText "timeout")) row
                  else row) (es_signals st) /\
  es_trades (execute_one Live (Some (failing_venue "timeout")) limits_50_200_500 1000
               (15 # 1000) st sg) = [].
Proof.
  cbv zeta.
  pose proof (execute_signals_submission_error (Some (failing_venue "timeout"))
                limits_50_200_500 1000 (15 # 1000)
                (batch_start [pending_signal 7 "M" "yes" (1 # 2)])
                (pending_signal 7 "M" "yes" (1 # 2)) 6 (1 # 2) "timeout") as T.
  cbv zeta in T.
  destruct T as (_ & Htr & _); [vm_compute; reflexivity | lia | vm_compute; reflexivity
                               | reflexivity |].
  split; [vm_compute; reflexivity | exact Htr].
Defined.

(** ** The NO-side sizing example *)

(** C4 (as stated: per-contract risk 0.2 and size 15 for a NO signal at 0.8)
    fails for the code as CPython runs it: in binary64, [1.0 - 0.8] is
    0.19999999999999996, [3 / 0.19999999999999996] is slightly above 15, and
    the ceiling gives 16 contracts. *)
Lemma size_no_side_example_cex :
  size_1000_3pct (R := float) "no" 0.8%float 0.03%float = (16%Z, (1 - 0.8)%float) /\
  (fst (size_1000_3pct (R := float) "no" 0.8%float 0.03%float) <> 15%Z) /\
  (snd (size_1000_3pct (R := float) "no" 0.8%float 0.03%float) <> 0.2%float).
Proof. vm_compute. split; [reflexivity | split; discriminate]. Qed.

(** C4 (amended).  For a NO signal at price 0.8 with bankroll 1000, risk
    fraction 0.03, caps (50, 200, 500) and no prior exposure, exact
    arithmetic gives per-contract risk 1/5 and size ceil(3 / (1/5)) = 15,
    while the binary64 arithmetic the code runs on gives per-contract risk
    [1.0 - 0.8] and size 16 (the value [test_dynamic_sizing_no_side_uses_fraction_cap]
    asserts).  The YES signal at 0.5 gets size 6 with risk 0.5 either way. *)
Theorem size_no_side_example :
  size_1000_3pct (R := Q) "no" (4 # 5) (3 # 100) = (15%Z, 1 # 5) /\
  size_1000_3pct (R := float) "no" 0.8%float 0.03%float = (16%Z, (1 - 0.8)%float) /\
  size_1000_3pct (R := Q) "yes" (1 # 2) (3 # 100) = (6%Z, 1 # 2) /\
  size_1000_3pct (R := float) "yes" 0.5%float 0.03%float = (6%Z, 0.5%float).
Proof.
  split; [|split; [|split]]; vm_compute; try reflexivity.
Qed.

(** ** The sizing rule *)

Lemma Qfloor_eq (x : Q) (n : Z) : inject_Z n <= x -> x < inject_Z (n + 1) -> Qfloor x = n.
Proof.
  intros Hl Hu. apply Z.le_antisymm.
  - assert (inject_Z (Qfloor x) < inject_Z (n + 1)) as L
      by (eapply Qle_lt_trans; [apply Qfloor_le | exact Hu]).
    rewrite <- Zlt_Qlt in L. lia.
  - rewrite <- (Qfloor_Z n) at 1. apply Qfloor_resp_le, Hl.
Qed.

(** C3 (as stated: when the ceiling overshoots the binding cap the size is
    the ceiling reduced by one) fails once that ceiling is above the hard cap:
    the code applies [min(size, 1000)] after the reduction.  At YES price
    0.0007 with a $3 per-trade cap, ceil(3 / 0.0007) = 4286 overshoots, the
    reduced ceiling is 4285, and the code returns 1000, in exact arithmetic
    and in binary64 alike. *)
Lemma compute_order_size_ceiling_cex :
  Qceiling (inject_Z 3 / (7 # 10000)) = 4286%Z /\
  inject_Z 3 < inject_Z 4286 * (7 # 10000) /\
  size_with_caps (R := Q) "yes" (7 # 10000) (3 # 100) 3 200 300 0 = (1000%Z, 7 # 10000) /\
  fst (size_with_caps (R := float) "yes" 0.0007%float 0.03%float 3%float 200%float 300%float 0%float) = 1000%Z /\
  (1000 <> 4286 - 1)%Z.
Proof. split; [|split; [|split; [|split]]]; try (vm_compute; reflexivity); lia. Qed.

(** C3 (amended).  Under exact arithmetic, for per-contract risk [r > 0] and
    binding cap [C = min(max_risk_per_trade, bankroll * fraction,
    per-market headroom, total headroom) > 0], with [c = ceil(min(3, C) / r)]:
    the size is [min(c, 1000)] when [c * r <= C] and [min(c - 1, 1000)]
    otherwise (the floor [C // r] the code takes is exactly [c - 1]); the
    returned size always satisfies [size * r <= C].  With $2 of total
    headroom and [r = 0.5] the size is 4, also in binary64. *)
Theorem compute_order_size_ceiling (sg : Signal Q) (bankroll : Q) (lim : RiskLimits Q)
    (pm tot : Q) (rf : option Q) (cfg : Q) :
  let r := risk_per_contract_of sg in
  let C := Qmin (Qmin (Qmin (max_risk_per_trade lim) (bankroll * default cfg rf))
                      (max_risk_per_market lim - pm)) (max_risk_total lim - tot) in
  0 < r -> 0 < C ->
  let c := Qceiling (Qmin (inject_Z 3) C / r) in
  compute_order_size_for_signal sg bankroll lim pm tot rf cfg =
    (Z.min (if Qle_bool (inject_Z c * r) C then c else (c - 1)%Z) MAX_CONTRACTS_CAP, r) /\
  inject_Z (fst (compute_order_size_for_signal sg bankroll lim pm tot rf cfg)) * r <= C /\
  size_with_caps (R := Q) "yes" (1 # 2) (3 # 100) 50 200 30 28 = (4%Z, 1 # 2) /\
  size_with_caps (R := float) "yes" 0.5%float 0.03%float 50%float 200%float 30%float 28%float = (4%Z, 0.5%float).
Proof.
  intros r C Hr HC c.
  assert (Hpos : 0 < Qmin (inject_Z 3) C / r).
  { apply Qlt_shift_div_l; [exact Hr|]. rewrite Qmult_0_l.
    apply Q.min_glb_lt; [reflexivity | exact HC]. }
  assert (Hc1 : (1 <= c)%Z).
  { assert (0 < inject_Z c) as L by (eapply Qlt_le_trans; [exact Hpos | apply Qle_ceiling]).
    change 0 with (inject_Z 0) in L. rewrite <- Zlt_Qlt in L. lia. }
  assert (Hsize : compute_order_size_for_signal sg bankroll lim pm tot rf cfg =
    (Z.min (if Qle_bool (inject_Z c * r) C then c else (c - 1)%Z) MAX_CONTRACTS_CAP, r)).
  { unfold compute_order_size_for_signal. py_Q. rewrite !py_min_Q.
    fold r C c.
    destruct (Qle_bool r (inject_Z 0)) eqn:E1;
      [apply Qle_bool_iff in E1; exfalso; apply (Qlt_not_le _ _ Hr E1)|].
    destruct (Qle_bool C (inject_Z 0)) eqn:E2;
      [apply Qle_bool_iff in E2; exfalso; apply (Qlt_not_le _ _ HC E2)|].
    destruct (Qle_bool (inject_Z c * r) C) eqn:E3; cbn [negb].
    - destruct (c <=? 0)%Z eqn:E4; [lia | reflexivity].
    - apply Qle_bool_false in E3.
      assert (Qfloor (C / r) = (c - 1)%Z) as F.
      { apply Qfloor_eq.
        - apply Qle_trans with (Qmin (inject_Z 3) C / r).
          + apply Qlt_le_weak, Qceiling_lt.
          + apply Qmult_le_compat_r; [apply Q.le_min_r | apply Qinv_le_0_compat, Qlt_le_weak, Hr].
        - replace (c - 1 + 1)%Z with c by lia. apply Qlt_shift_div_r; [exact Hr | exact E3]. }
      rewrite F. destruct (c - 1 <=? 0)%Z eqn:E4; [|reflexivity].
      replace (c - 1)%Z with 0%Z by lia. reflexivity. }
  split; [exact Hsize|]. split; [|split; vm_compute; reflexivity].
  destruct (compute_order_size_for_signal sg bankroll lim pm tot rf cfg) as [s r'] eqn:E.
  cbn [fst]. destruct (Z.lt_ge_cases 0 s) as [Hs|Hs].
  - destruct (compute_order_size_within_cap _ _ _ _ _ _ _ _ _ E Hs) as (Hr' & _ & Hle).
    rewrite Hr' in Hle. exact Hle.
  - injection Hsize as Es _.
    assert (s = 0%Z) as -> by (unfold MAX_CONTRACTS_CAP in Es; destruct (Qle_bool _ _); lia).
    rewrite Qmult_0_l. apply Qlt_le_weak, HC.
Qed.

Lemma compute_order_size_ceiling_witness :
  compute_order_size_for_signal (pending_signal 1 "M" "yes" (1 # 2)) 1000
    {| max_risk_per_trade := 50; max_risk_per_market := 200; max_risk_total := 30 |}
    0 28 (Some (3 # 100)) (3 # 100) = (4%Z, 1 # 2).
Proof.
  refine (eq_trans (proj1 (compute_order_size_ceiling (pending_signal 1 "M" "yes" (1 # 2)) 1000
            {| max_risk_per_trade := 50; max_risk_per_market := 200; max_risk_total := 30 |}
            0 28 (Some (3 # 100)) (3 # 100) _ _)) _);
    vm_compute; reflexivity.
Defined.

(** ** The generator's probability lookup *)

Section ClosestLookup.
Variable p : Q.




End ClosestLookup.




(** ** Bucket assignment from bin edges *)

Lemma edge_pairs_cons2 (e f : Q) (l : list Q) :
  edge_pairs (e :: f :: l) = (e, f) :: edge_pairs (f :: l).
Proof. reflexivity. Qed.

Lemma init_fold_ok (ps : list (Q * Q)) :
  (exists bs, fold_right
     (fun '(low, high) acc =>
        if Qle_bool high low then inr "Bin edges must be strictly increasing"%string else
        match acc with
        | inl bs => inl ({| bucket_low := low; bucket_high := high; bucket_n := 0;
                            bucket_n_yes := 0; bucket_p_mkt_avg := None;
                            bucket_p_true := None |} :: bs)
        | inr e => inr e
        end) (inl []) ps = inl bs) <->
  Forall (fun pr => fst pr < snd pr) ps.
Proof.
  induction ps as [|[lo hi] ps IH]; cbn [fold_right].
  - split; [constructor | eauto].
  - destruct (Qle_bool hi lo) eqn:E.
    + split; [intros [bs Hbs]; discriminate|].
      intros HF. inversion HF as [|? ? Hlt _]; subst. cbn [fst snd] in Hlt.
      apply Qle_bool_iff in E. exfalso. exact (Qlt_not_le _ _ Hlt E).
    + apply Qle_bool_false in E. rewrite Forall_cons. cbn [fst snd]. rewrite <- IH.
      split.
      * intros [bs Hbs]. split; [exact E|].
        destruct (fold_right _ _ ps) as [bs'|e]; [eauto | discriminate].
      * intros [_ [bs Hbs]]. rewrite Hbs. eauto.
Qed.

Lemma init_buckets_ok (edges : list Q) :
  (exists bs, init_buckets_from_edges edges = inl bs) <->
  (2 <= length edges)%nat /\ Forall (fun pr => fst pr < snd pr) (edge_pairs edges).
Proof.
  unfold init_buckets_from_edges. destruct (length edges <? 2)%nat eqn:E.
  - apply Nat.ltb_lt in E. split; [intros [bs Hbs]; discriminate | lia].
  - apply Nat.ltb_ge in E. rewrite init_fold_ok. split; [auto | intros [_ H]; exact H].
Qed.

Lemma last_cons_default {A} (x : A) (l : list A) (d d' : A) :
  List.last (x :: l) d = List.last (x :: l) d'.
Proof.
  revert x. induction l as [|y l IH]; intros x; [reflexivity|].
  change (List.last (y :: l) d = List.last (y :: l) d'). apply IH.
Qed.

Lemma edges_first_lt_last (l : list Q) (e : Q) :
  Forall (fun pr => fst pr < snd pr) (edge_pairs (e :: l)) -> l <> [] -> e < List.last l e.
Proof.
  revert e. induction l as [|f l IH]; intros e HF Hne; [congruence|].
  rewrite edge_pairs_cons2, Forall_cons in HF. destruct HF as [Hef HF]. cbn [fst snd] in Hef.
  destruct l as [|g l]; [exact Hef|].
  apply Qlt_trans with f; [exact Hef|].
  change (List.last (f :: g :: l) e) with (List.last (g :: l) e).
  rewrite (last_cons_default g l e f). apply IH; [exact HF | discriminate].
Qed.

Lemma bucket_scan_interior (p : Q) (last : Z) (l : list Q) :
  forall (e : Q) (idx : Z),
  (idx + Z.of_nat (length l) = last + 1)%Z -> e <= p -> p < List.last l e ->
  exists k lo hi, edge_pairs (e :: l) !! k = Some (lo, hi) /\ lo <= p /\ p < hi /\
    bucket_scan p last idx (edge_pairs (e :: l)) = (idx + Z.of_nat k)%Z.
Proof.
  induction l as [|f l IH]; intros e idx Hlen He Hl.
  - cbn in Hl. exfalso. exact (Qlt_not_le _ _ Hl He).
  - rewrite edge_pairs_cons2. cbn [bucket_scan].
    destruct (Qle_bool f p) eqn:Ef.
    + apply Qle_bool_iff in Ef.
      destruct l as [|g l]; [cbn in Hl; exfalso; exact (Qlt_not_le _ _ Hl Ef)|].
      cbn [length] in Hlen.
      assert (Hidx : (idx =? last)%Z = false) by (apply Z.eqb_neq; lia).
      rewrite Hidx. cbn [negb]. rewrite andb_false_r.
      cbn [andb orb].
      destruct (IH f (idx + 1)%Z) as (k & lo & hi & Hk & Hlo & Hhi & Hs).
      * cbn [length] in *. lia.
      * exact Ef.
      * change (List.last (f :: g :: l) e) with (List.last (g :: l) e) in Hl.
        rewrite (last_cons_default g l e f) in Hl. exact Hl.
      * exists (S k), lo, hi. split; [exact Hk|]. split; [exact Hlo|]. split; [exact Hhi|].
        rewrite Hs. lia.
    + apply Qle_bool_false in Ef.
      rewrite (proj2 (Qle_bool_iff _ _) He). cbn [andb negb orb].
      exists 0%nat, e, f. repeat split; [exact He | exact Ef | lia].
Qed.

(** C5 (as stated: every price in [0, 1] falls in the half-open bucket
    containing it, price 0 in bucket 0 and price 1 in the last bucket) fails
    for strictly increasing edges that do not span exactly [0, 1]: prices
    beyond the edges are clamped to the first or last bucket instead.  With
    edges [[-1, -0.5, 2]] the price 0 goes to bucket 1; with edges
    [[0, 1, 2, 3]] (last bucket 2) the price 1 goes to bucket 1. *)
Lemma bucket_from_edges_assignment_cex :
  (exists bs, init_buckets_from_edges [-1; -1 # 2; 2] = inl bs) /\
  bucket_from_edges 0 [-1; -1 # 2; 2] = Some 1%Z /\
  (exists bs, init_buckets_from_edges [0; 1; 2; 3] = inl bs) /\
  bucket_from_edges 1 [0; 1; 2; 3] = Some 1%Z /\
  (Z.of_nat (length [0; 1; 2; 3]) - 2 = 2)%Z.
Proof.
  split; [eexists; vm_compute; reflexivity|]. split; [vm_compute; reflexivity|].
  split; [eexists; vm_compute; reflexivity|]. split; vm_compute; reflexivity.
Qed.

(** C5 (amended).  [_init_buckets_from_edges] succeeds exactly when there are
    at least two edges and each edge is strictly below the next (fewer than
    two edges raise "At least two edges are required").  For such edges
    [e_0 < ... < e_n], [_bucket_from_edges] assigns every price one index in
    [0 .. n - 1]: index 0 at or below [e_0], the last index [n - 1] at or
    above [e_n], and in between the bucket [[e_i, e_(i+1))] that contains it.
    So price 0 goes to bucket 0 and price 1 to the last bucket when the
    edges run from 0 to 1, as [EXTREME_BIN_EDGES] do. *)
Theorem bucket_from_edges_assignment (edges : list Q) :
  ((exists bs, init_buckets_from_edges edges = inl bs) <->
   (2 <= length edges)%nat /\ Forall (fun pr => fst pr < snd pr) (edge_pairs edges)) /\
  ((length edges < 2)%nat ->
   init_buckets_from_edges edges = inr "At least two edges are required"%string) /\
  (forall bs p, init_buckets_from_edges edges = inl bs ->
   exists i, bucket_from_edges p edges = Some i /\
     (0 <= i <= Z.of_nat (length edges) - 2)%Z /\
     (p <= hd 0 edges -> i = 0%Z) /\
     (List.last edges 0 <= p -> i = (Z.of_nat (length edges) - 2)%Z) /\
     (hd 0 edges < p -> p < List.last edges 0 ->
      exists lo hi, edge_pairs edges !! Z.to_nat i = Some (lo, hi) /\ lo <= p /\ p < hi)).
Proof.
  split; [apply init_buckets_ok|]. split.
  { intros Hl. unfold init_buckets_from_edges. apply Nat.ltb_lt in Hl. rewrite Hl. reflexivity. }
  intros bs p Hinit.
  destruct (proj1 (init_buckets_ok edges) (ex_intro _ bs Hinit)) as [Hlen HF].
  destruct edges as [|e0 l]; [cbn in Hlen; lia|].
  assert (Hl : l <> []) by (intros ->; cbn in Hlen; lia).
  assert (HlastL : List.last (e0 :: l) 0 = List.last l e0).
  { rewrite (last_cons_default e0 l 0 e0). destruct l; [congruence | reflexivity]. }
  pose proof (edges_first_lt_last l e0 HF Hl) as Hlt.
  cbn [hd]. rewrite HlastL. unfold bucket_from_edges.
  rewrite (last_cons_default e0 l e0 0), HlastL.
  cbn [length] in *.
  destruct (Qle_bool p e0) eqn:E1.
  - apply Qle_bool_iff in E1. exists 0%Z. split; [reflexivity|]. split; [lia|].
    split; [reflexivity|]. split.
    + intros H. exfalso. apply (Qlt_not_le _ _ Hlt). apply Qle_trans with p; assumption.
    + intros H. exfalso. exact (Qlt_not_le _ _ H E1).
  - apply Qle_bool_false in E1.
    destruct (Qle_bool (List.last l e0) p) eqn:E2.
    + apply Qle_bool_iff in E2. eexists. split; [reflexivity|]. split; [lia|].
      split; [intros H; exfalso; exact (Qlt_not_le _ _ E1 H)|]. split; [reflexivity|].
      intros _ H. exfalso. exact (Qlt_not_le _ _ H E2).
    + apply Qle_bool_false in E2.
      destruct (bucket_scan_interior p (Z.of_nat (S (length l)) - 2) l e0 0)
        as (k & lo & hi & Hk & Hlo & Hhi & Hs); [lia | apply Qlt_le_weak, E1 | exact E2 |].
      rewrite Hs. exists (0 + Z.of_nat k)%Z. split; [reflexivity|].
      assert (Hk' : (k < length l)%nat).
      { apply lookup_lt_Some in Hk. unfold edge_pairs in Hk.
        rewrite length_combine in Hk. cbn [length tail] in Hk. lia. }
      split; [lia|]. split; [intros H; exfalso; exact (Qlt_not_le _ _ E1 H)|].
      split; [intros H; exfalso; exact (Qlt_not_le _ _ E2 H)|].
      intros _ _. exists lo, hi. rewrite Z.add_0_l, Nat2Z.id. auto.
Qed.

Lemma bucket_from_edges_assignment_witness :
  bucket_from_edges 0 EXTREME_BIN_EDGES = Some 0%Z /\
  bucket_from_edges 1 EXTREME_BIN_EDGES = Some 10%Z.
Proof.
  assert (Hinit : init_buckets_from_edges EXTREME_BIN_EDGES =
                  inl (match init_buckets_from_edges EXTREME_BIN_EDGES with
                       | inl bs => bs | inr _ => [] end)) by (vm_compute; reflexivity).
  split.
  - destruct (proj2 (proj2 (bucket_from_edges_assignment EXTREME_BIN_EDGES)) _ 0 Hinit)
      as (i & Hi & _ & H0 & _).
    rewrite Hi, H0; [reflexivity | apply Qle_bool_iff; vm_compute; reflexivity].
  - destruct (proj2 (proj2 (bucket_from_edges_assignment EXTREME_BIN_EDGES)) _ 1 Hinit)
      as (i & Hi & _ & _ & H1 & _).
    rewrite Hi, H1; [reflexivity | apply Qle_bool_iff; vm_compute; reflexivity].
Defined.

(** ** Signal status changes *)

Lemma insert_by_perm {A} (le : A -> A -> bool) (x : A) (xs : list A) :
  Permutation (insert_by le x xs) (x :: xs).
Proof.
  induction xs as [|y ys IH]; cbn [insert_by]; [reflexivity|].
  destruct (le y x); [|reflexivity].
  rewrite IH. apply perm_swap.
Qed.

Lemma sort_by_perm {A} (le : A -> A -> bool) (xs : list A) : Permutation (sort_by le xs) xs.
Proof.
  unfold sort_by.
  assert (G : forall acc, Permutation (fold_left (fun acc x => insert_by le x acc) xs acc)
                                      (acc ++ xs)).
  { induction xs as [|x xs IH]; intros acc; cbn [fold_left]; [rewrite app_nil_r; reflexivity|].
    rewrite IH, insert_by_perm. cbn [app]. apply Permutation_middle. }
  apply G.
Qed.

Lemma es_signals_record {R} `{PyNum R} (t : Trade R) (st : ExecState R) :
  es_signals (st_record_trade t st) = es_signals st.
Proof. unfold st_record_trade. destruct (record_trade _ _ _). reflexivity. Qed.

Lemma es_signals_commit {R} `{PyNum R} (m : string) (x : R) (st : ExecState R) :
  es_signals (commit_risk m x st) = es_signals st.
Proof. reflexivity. Qed.

(** The rows of the table after [update_signal_execution]: the row(s) with
    the id get the new status, the others are left as they were. *)
Lemma update_signal_execution_rows {R} `{PyNum R} id status mode oid ep es err
    (st : ExecState R) :
  Forall2 (fun old new => new = old \/ (sig_id old = id /\ sig_status new = status))
    (es_signals st) (es_signals (update_signal_execution id status mode oid ep es err st)).
Proof.
  apply map_update_Forall2; [intros row Hid; right; split; [exact Hid | reflexivity] |].
  intros row _. left. reflexivity.
Qed.

(** C6 (as stated: only [pending] and [sent] rows ever change status, and
    only along the listed transitions) fails: both bulk cancellations also
    cancel [simulated] rows, and a live execution stores the venue's own
    status for an accepted order, e.g. ["resting"], outside the listed set. *)
Lemma signal_status_transitions_cex :
  map sig_status
    (cancel_open_signals [with_status "simulated" (pending_signal (R := Q) 1 "M" "yes" (1 # 2))])
    = ["cancelled"%string] /\
  map sig_status
    (es_signals (execute_one Live (Some resting_venue) limits_50_200_500 1000 (3 # 100)
       (batch_start [pending_signal 1 "M" "yes" (1 # 2)]) (pending_signal 1 "M" "yes" (1 # 2))))
    = ["resting"%string].
Proof. split; vm_compute; reflexivity. Qed.

(** C6 (amended).  Each operation that writes [signals.status] changes rows
    only as follows.  The stale sweep cancels exactly the rows in an open
    status ([pending], [resting], [sent], [simulated]) created before its
    cutoff, and the dashboard cancel exactly the rows in an open status; each
    leaves every other row as it was, and the dashboard cancel is
    idempotent.  [execute_signals] reads only [pending] rows, and
    processing one signal changes only the rows with that signal's id, to
    [ignored], [simulated], [error], or, for an order the venue accepted, the
    status the venue reported ([sent] when it reported none). *)
Theorem signal_status_transitions {R} `{PyNum R} :
  (forall cutoff table,
     Forall2 (fun old new : Signal R =>
                ((open_status (sig_status old) && (sig_created_at old <? cutoff)%Z) = false /\
                 new = old) \/
                (open_status (sig_status old) = true /\ (sig_created_at old < cutoff)%Z /\
                 new = cancel_row "auto-cancelled stale signal" old /\
                 sig_status new = "cancelled"%string))
       table (cancel_stale_signals cutoff table)) /\
  (forall table,
     Forall2 (fun old new : Signal R => (open_status (sig_status old) = false /\ new = old) \/
                (open_status (sig_status old) = true /\
                 new = cancel_row "cancelled via dashboard" old /\
                 sig_status new = "cancelled"%string))
       table (cancel_open_signals table)) /\
  (forall table, cancel_open_signals (cancel_open_signals table) = cancel_open_signals table) /\
  (forall limit table,
     Forall (fun row : Signal R => sig_status row = "pending"%string) (fetch_pending_signals limit table)) /\
  (forall mode client lim bankroll cfg (st : ExecState R) (sg : Signal R),
     Forall2 (fun old new : Signal R => new = old \/
                (sig_id old = sig_id sg /\
                 (In (sig_status new) ["ignored"; "simulated"; "error"]%string \/
                  exists po req resp, client = Some po /\ po req = inl resp /\
                    sig_status new = or_str (resp_status resp) "sent")))
       (es_signals st) (es_signals (execute_one mode client lim bankroll cfg st sg))).
Proof.
  split; [|split; [|split; [|split]]].
  - intros cutoff table. unfold cancel_stale_signals. apply Forall2_fmap_r, Forall_Forall2_diag.
    apply Forall_forall. intros row _. unfold compose. cbv beta.
    destruct (open_status (sig_status row)) eqn:E; cbn [andb]; [|left; split; reflexivity].
    destruct (sig_created_at row <? cutoff)%Z eqn:Ec; [|left; split; reflexivity].
    right. apply Z.ltb_lt in Ec. repeat split; auto.
  - intros table. unfold cancel_open_signals. apply Forall2_fmap_r, Forall_Forall2_diag.
    apply Forall_forall. intros row _. unfold compose. cbv beta.
    destruct (open_status (sig_status row)) eqn:E; [right | left]; repeat split; auto.
  - intros table. unfold cancel_open_signals. rewrite map_map. apply map_ext. intros row. cbv beta.
    destruct (open_status (sig_status row)) eqn:E; [|rewrite E; reflexivity].
    reflexivity.
  - intros limit table. unfold fetch_pending_signals. apply Forall_take.
    rewrite (sort_by_perm _ _). apply Forall_forall.
    intros row Hin. apply list_elem_of_filter in Hin as [Hp _].
    apply String.eqb_eq, Is_true_eq_true, Hp.
  - intros mode client lim bankroll cfg st sg.
    assert (Hupd : forall status oid ep es err,
               (In status ["ignored"; "simulated"; "error"]%string \/
                exists po req resp, client = Some po /\ po req = inl resp /\
                  status = or_str (resp_status resp) "sent") ->
               Forall2 (fun old new : Signal R => new = old \/
                 (sig_id old = sig_id sg /\
                  (In (sig_status new) ["ignored"; "simulated"; "error"]%string \/
                   exists po req resp, client = Some po /\ po req = inl resp /\
                     sig_status new = or_str (resp_status resp) "sent")))
                 (es_signals st)
                 (es_signals (update_signal_execution (sig_id sg) status mode oid ep es err st))).
    { intros status oid ep es err Hs.
      eapply Forall2_impl; [apply update_signal_execution_rows|].
      intros old new [E|[Hid Hst]]; [left; exact E | right; split; [exact Hid|]].
      rewrite Hst. exact Hs. }
    unfold execute_one.
    destruct (compute_order_size_for_signal _ _ _ _ _ _ _) as [size rpc].
    destruct (size <=? 0)%Z; [apply Hupd; left; cbn; auto|].
    destruct (guard_checks _ _ _ _); [apply Hupd; left; cbn; auto|].
    destruct mode.
    + rewrite es_signals_commit, es_signals_record. apply Hupd. left. cbn. auto.
    + destruct client as [po|] eqn:Ec; cbn beta iota.
      * destruct (po _) as [resp|exc] eqn:Eresp.
        -- rewrite es_signals_commit, es_signals_record. apply Hupd. right.
           eexists po, _, resp. split; [reflexivity|]. split; [exact Eresp | reflexivity].
        -- apply Hupd. left. cbn. auto.
      * apply Hupd. left. cbn. auto.
Qed.

(** ** The positions table *)

Lemma sync_positions_rows {R} `{PyNum R} (d : R) (venue : list VenuePosition) :
  forall tbl : gmap (string * string) (Position R),
  (forall k r, tbl !! k = Some r -> k.2 = "yes"%string /\ pos_realized_pnl r = d) ->
  forall (k : string * string) (r : Position R), fold_left
     (fun (tbl : gmap (string * string) (Position R)) (pos : VenuePosition) =>
        match vp_ticker pos, vp_position pos, vp_total_cost pos with
        | Some ticker, Some count, Some cost_cents =>
            if count =? 0 then tbl else
            let avg_price := py_div (py_div (py_of_Z cost_cents) (py_of_Z 100))
                                    (py_of_Z (Z.abs count)) in
            let realized := match tbl !! (ticker, "yes"%string) with
                            | Some r => pos_realized_pnl r
                            | None => d
                            end in
            <[(ticker, "yes"%string) := {| pos_size := count; pos_avg_entry_price := avg_price;
                                           pos_realized_pnl := realized |}]> tbl
        | _, _, _ => tbl
        end) venue tbl !! k = Some r -> k.2 = "yes"%string /\ pos_realized_pnl r = d.
Proof.
  induction venue as [|pos venue IH]; intros tbl Hinv; cbn [fold_left]; [exact Hinv|].
  apply IH. intros k r Hk.
  destruct (vp_ticker pos) as [ticker|], (vp_position pos) as [count|],
    (vp_total_cost pos) as [cost|]; try exact (Hinv k r Hk).
  destruct (count =? 0)%Z; [exact (Hinv k r Hk)|].
  destruct (decide (k = (ticker, "yes"%string))) as [->|Hne].
  - rewrite lookup_insert_eq in Hk. injection Hk as <-. split; [reflexivity|]. cbn.
    destruct (tbl !! (ticker, "yes"%string)) as [r0|] eqn:E0; [exact (proj2 (Hinv _ _ E0)) | reflexivity].
  - rewrite lookup_insert_ne in Hk by congruence. exact (Hinv k r Hk).
Qed.

(** C7 (as stated: the realized PnL of a position row is only ever added to)
    fails for [sync_positions], which truncates the table before re-inserting
    the venue's YES positions: a row with realized PnL 5 is gone after a sync
    that reports no position, and a re-inserted row starts from the column
    default again.  A NO row, which the module's docstring says the sync
    leaves untouched, is deleted with its realized PnL 3 by a sync that
    reports a YES position of another market. *)
Lemma position_realized_pnl_cex :
  option_map pos_realized_pnl (one_no_position (R := Q) !! ("N", "no")%string) = Some (3 # 1) /\
  sync_positions (R := Q) 0
     [{| vp_ticker := Some "M"%string; vp_position := Some 10%Z; vp_total_cost := Some 500%Z |}]
     one_no_position !! ("N", "no")%string = None /\
  sync_positions (R := Q) 0 [] one_position = ∅ /\
  (sync_positions (R := Q) 0
     [{| vp_ticker := Some "M"%string; vp_position := Some 10%Z; vp_total_cost := Some 500%Z |}]
     one_position !! ("M", "yes")%string) =
  Some {| pos_size := 10; pos_avg_entry_price := (500 # 1) / (100 # 1) / (10 # 1);
          pos_realized_pnl := 0 |} /\
  option_map pos_realized_pnl (one_position (R := Q) !! ("M", "yes")%string) = Some (5 # 1).
Proof.
  split; [vm_compute; reflexivity|]. split; [vm_compute; reflexivity|].
  split; [reflexivity|]. split; vm_compute; reflexivity.
Qed.

(** C7 (what the code does).  [record_trade] leaves the average entry price unchanged on
    a partial close (a signed size delta against the existing position, of
    strictly smaller magnitude), and [_update_position] adds its realized
    delta to the row's realized PnL, touching no other row.  [sync_positions]
    does not accumulate: it discards the previous table (realized PnL
    included), and every row it leaves is a YES row whose realized PnL is the
    column default. *)
Theorem position_realized_pnl {R} `{PyNum R} :
  (forall (trades : list (Trade R)) positions (t : Trade R) (r : Position R),
     positions !! (tr_market_ticker t, tr_side t) = Some r ->
     let d := if String.eqb (tr_direction t) "buy" then tr_size t else (- tr_size t)%Z in
     ((0 < pos_size r /\ d < 0) \/ (pos_size r < 0 /\ 0 < d))%Z ->
     (Z.abs d < Z.abs (pos_size r))%Z ->
     exists r', (record_trade trades positions t).2 !! (tr_market_ticker t, tr_side t) = Some r' /\
       pos_size r' = (pos_size r + d)%Z /\ pos_avg_entry_price r' = pos_avg_entry_price r) /\
  (forall positions m side d price (r : Position R),
     positions !! (m, side) = Some r ->
     let '(tbl, (_, _, realized_delta)) := update_position positions m side d price in
     option_map pos_realized_pnl (tbl !! (m, side)) =
       Some (py_add (pos_realized_pnl r) realized_delta) /\
     forall k, k <> (m, side) -> tbl !! k = positions !! k) /\
  (forall (dflt : R) venue positions k r,
     sync_positions dflt venue positions !! k = Some r ->
     k.2 = "yes"%string /\ pos_realized_pnl r = dflt) /\
  (forall (dflt : R) venue positions1 positions2,
     sync_positions dflt venue positions1 = sync_positions dflt venue positions2).
Proof.
  split; [|split; [|split]].
  - intros trades positions t r Hr d Hsign Hmag.
    unfold record_trade, update_position. fold d. cbn [snd]. rewrite Hr.
    unfold position_delta.
    assert (Hext : ((0 <=? pos_size r) && (0 <=? d) || (pos_size r <=? 0) && (d <=? 0))%Z = false).
    { destruct Hsign as [[H1 H2]|[H1 H2]];
        repeat match goal with |- context [?a <=? ?b] =>
                 let E := fresh in destruct (a <=? b)%Z eqn:E; [apply Z.leb_le in E | apply Z.leb_gt in E]
               end; cbn; try reflexivity; lia. }
    rewrite Hext.
    assert (Hflip : (Z.abs (pos_size r) <? Z.abs d)%Z = false) by (apply Z.ltb_ge; lia).
    rewrite Hflip. cbn [fst]. rewrite lookup_insert_eq.
    eexists. split; [reflexivity|]. split; reflexivity.
  - intros positions m side d price r Hr. unfold update_position. rewrite Hr.
    destruct (position_delta side (pos_size r) (pos_avg_entry_price r) d price) as [[sn an] rd].
    split; [rewrite lookup_insert_eq; reflexivity|].
    intros k Hk. rewrite lookup_insert_ne by congruence. reflexivity.
  - intros dflt venue positions k r. unfold sync_positions.
    apply sync_positions_rows. intros k' r' Hk'. rewrite lookup_empty in Hk'. discriminate.
  - intros dflt venue positions1 positions2. reflexivity.
Qed.

Lemma position_realized_pnl_witness :
  exists r', (record_trade [] (one_position (R := Q))
               {| tr_signal_id := None; tr_market_ticker := "M"; tr_side := "yes"; tr_size := 4;
                  tr_price := 3 # 4; tr_direction := "sell" |}).2 !! ("M", "yes")%string = Some r' /\
    pos_size r' = 6%Z /\ pos_avg_entry_price r' = (1 # 1) / (2 # 1).
Proof.
  assert (Hr : (one_position (R := Q)) !! ("M", "yes")%string =
               Some {| pos_size := 10; pos_avg_entry_price := (1 # 1) / (2 # 1);
                       pos_realized_pnl := 5 # 1 |}) by (vm_compute; reflexivity).
  destruct (proj1 (position_realized_pnl (R := Q)) []
              (one_position (R := Q))
              {| tr_signal_id := None; tr_market_ticker := "M"; tr_side := "yes"; tr_size := 4;
                 tr_price := 3 # 4; tr_direction := "sell" |}
              _ Hr (or_introl (conj eq_refl eq_refl)) eq_refl) as (r' & H1 & H2 & H3).
  exists r'. split; [exact H1|]. split; [exact H2 | exact H3].
Defined.

(** ** The interpolation of [estimate_p_true] *)

Lemma estimate_p_true_points (p : Q) (bins : list Bucket) :
  estimate_p_true p bins =
  match bucket_midpoints bins with
  | [] => None
  | (x0, y0) :: rest => Some (est_points p x0 y0 rest)
  end.
Proof.
  unfold estimate_p_true, est_points. cbn [py_leb PyNum_Q].
  destruct (bucket_midpoints bins) as [|[x0 y0] rest]; [reflexivity|].
  destruct (List.last ((x0, y0) :: rest) (x0, y0)) as [xl yl].
  destruct (Qle_bool p x0), (Qle_bool xl p); reflexivity.
Qed.

Lemma interp_scan_chain (p d : Q) (rest : list (Q * Q)) :
  forall x0 y0, x0 <= p ->
  interp_scan p d (combine ((x0, y0) :: rest) rest) = chain_eval p d x0 y0 rest.
Proof.
  induction rest as [|[x1 y1] rest IH]; intros x0 y0 Hx0; [reflexivity|].
  change (combine ((x0, y0) :: (x1, y1) :: rest) ((x1, y1) :: rest))
    with (((x0, y0), (x1, y1)) :: combine ((x1, y1) :: rest) rest).
  cbn [interp_scan chain_eval py_leb py_eqb py_add py_sub py_mul py_div PyNum_Q].
  rewrite (proj2 (Qle_bool_iff _ _) Hx0). cbn [andb].
  destruct (Qle_bool p x1) eqn:E; [reflexivity|].
  apply IH. apply Qle_bool_false in E. apply Qlt_le_weak, E.
Qed.

Lemma est_points_eq (p x0 y0 : Q) (rest : list (Q * Q)) :
  est_points p x0 y0 rest =
  if Qle_bool p x0 then y0
  else if Qle_bool (fst (List.last ((x0, y0) :: rest) (x0, y0))) p
       then snd (List.last ((x0, y0) :: rest) (x0, y0))
       else chain_eval p (snd (List.last ((x0, y0) :: rest) (x0, y0))) x0 y0 rest.
Proof.
  unfold est_points. destruct (List.last ((x0, y0) :: rest) (x0, y0)) as [xl yl]. cbn [fst snd].
  destruct (Qle_bool p x0) eqn:E1; [reflexivity|].
  destruct (Qle_bool xl p); [reflexivity|].
  apply interp_scan_chain. apply Qle_bool_false in E1. apply Qlt_le_weak, E1.
Qed.

Lemma seg_bounds (x0 y0 x1 y1 p : Q) :
  x0 < p -> p <= x1 -> y0 <= y1 ->
  y0 <= y0 + (p - x0) / (x1 - x0) * (y1 - y0) /\ y0 + (p - x0) / (x1 - x0) * (y1 - y0) <= y1.
Proof.
  intros H0 H1 Hy.
  assert (Hd : 0 < x1 - x0) by lra.
  assert (Hw0 : 0 <= (p - x0) / (x1 - x0)) by (apply Qle_shift_div_l; [exact Hd | lra]).
  assert (Hw1 : (p - x0) / (x1 - x0) <= 1) by (apply Qle_shift_div_r; [exact Hd | lra]).
  assert (Hz0 : 0 <= (p - x0) / (x1 - x0) * (y1 - y0)) by (apply Qmult_le_0_compat; lra).
  assert (Hz1 : (p - x0) / (x1 - x0) * (y1 - y0) <= 1 * (y1 - y0))
    by (apply Qmult_le_compat_r; lra).
  set (z := (p - x0) / (x1 - x0) * (y1 - y0)) in *. split; lra.
Qed.

Lemma seg_mono (x0 y0 x1 y1 p q : Q) :
  x0 < x1 -> y0 <= y1 -> p <= q ->
  y0 + (p - x0) / (x1 - x0) * (y1 - y0) <= y0 + (q - x0) / (x1 - x0) * (y1 - y0).
Proof.
  intros Hx Hy Hpq.
  assert (Hw : (p - x0) / (x1 - x0) <= (q - x0) / (x1 - x0)).
  { unfold Qdiv. apply Qmult_le_compat_r; [lra | apply Qinv_le_0_compat; lra]. }
  assert (Hz : (p - x0) / (x1 - x0) * (y1 - y0) <= (q - x0) / (x1 - x0) * (y1 - y0))
    by (apply Qmult_le_compat_r; lra).
  lra.
Qed.

Lemma last_two (x0 y0 x1 y1 : Q) (r : list (Q * Q)) :
  List.last ((x0, y0) :: (x1, y1) :: r) (x0, y0) = List.last ((x1, y1) :: r) (x1, y1).
Proof.
  change (List.last ((x1, y1) :: r) (x0, y0) = List.last ((x1, y1) :: r) (x1, y1)).
  apply last_cons_default.
Qed.

Lemma est_points_tail (p x0 y0 x1 y1 : Q) (r : list (Q * Q)) :
  x0 < p -> x1 < p -> est_points p x0 y0 ((x1, y1) :: r) = est_points p x1 y1 r.
Proof.
  intros H0 H1. rewrite !est_points_eq, last_two.
  rewrite (proj2 (Qle_bool_false _ _) H0), (proj2 (Qle_bool_false _ _) H1).
  destruct (Qle_bool _ p); [reflexivity|]. cbn [chain_eval].
  rewrite (proj2 (Qle_bool_false _ _) H1). reflexivity.
Qed.

Lemma est_points_bounds (rest : list (Q * Q)) :
  forall x0 y0, ys_sorted y0 rest -> forall p,
  y0 <= est_points p x0 y0 rest /\
  est_points p x0 y0 rest <= snd (List.last ((x0, y0) :: rest) (x0, y0)).
Proof.
  induction rest as [|[x1 y1] r IH]; intros x0 y0 Hys p.
  - rewrite est_points_eq. cbn [List.last fst snd].
    destruct (Qle_bool p x0); [split; apply Qle_refl|].
    destruct (Qle_bool x0 p); split; apply Qle_refl.
  - destruct Hys as [Hy01 Hys]. rewrite last_two.
    set (L := List.last ((x1, y1) :: r) (x1, y1)).
    assert (HyL : y1 <= snd L) by (destruct (IH x1 y1 Hys x1) as [A B]; eapply Qle_trans; eauto).
    rewrite est_points_eq, last_two. fold L.
    destruct (Qle_bool p x0) eqn:E1; [split; [apply Qle_refl | lra]|].
    destruct (Qle_bool (fst L) p) eqn:E2; [split; [lra | apply Qle_refl]|].
    cbn [chain_eval]. destruct (Qle_bool p x1) eqn:E3.
    + destruct (Qeq_bool x1 x0); [split; lra|].
      apply Qle_bool_false in E1. apply Qle_bool_iff in E3.
      destruct (seg_bounds x0 y0 x1 y1 p E1 E3 Hy01). split; lra.
    + assert (Ech : est_points p x1 y1 r = chain_eval p (snd L) x1 y1 r)
        by (rewrite est_points_eq; fold L; rewrite E3, E2; reflexivity).
      rewrite <- Ech. destruct (IH x1 y1 Hys p) as [A B]. fold L in B. split; lra.
Qed.

Lemma est_points_mono (rest : list (Q * Q)) :
  forall x0 y0, ys_sorted y0 rest -> forall p q, p <= q ->
  est_points p x0 y0 rest <= est_points q x0 y0 rest.
Proof.
  induction rest as [|[x1 y1] r IH]; intros x0 y0 Hys p q Hpq.
  - destruct (est_points_bounds [] x0 y0 I p), (est_points_bounds [] x0 y0 I q).
    cbn [List.last snd] in *. lra.
  - pose proof Hys as [Hy01 Hys'].
    destruct (est_points_bounds _ x0 y0 Hys p) as [Lp Up].
    destruct (est_points_bounds _ x0 y0 Hys q) as [Lq Uq].
    rewrite last_two in Up, Uq.
    set (L := List.last ((x1, y1) :: r) (x1, y1)) in *.
    destruct (Qlt_le_dec x0 p) as [Hp0|Hp0].
    2:{ rewrite est_points_eq, (proj2 (Qle_bool_iff _ _) Hp0). exact Lq. }
    assert (Hq0 : x0 < q) by lra.
    destruct (Qlt_le_dec x1 p) as [Hp1|Hp1].
    { rewrite !est_points_tail by lra. apply IH; assumption. }
    assert (Ep : est_points p x0 y0 ((x1, y1) :: r) =
                 if Qle_bool (fst L) p then snd L
                 else if Qeq_bool x1 x0 then y0 else y0 + (p - x0) / (x1 - x0) * (y1 - y0)).
    { rewrite est_points_eq, last_two. fold L.
      rewrite (proj2 (Qle_bool_false _ _) Hp0). destruct (Qle_bool (fst L) p); [reflexivity|].
      cbn [chain_eval]. rewrite (proj2 (Qle_bool_iff _ _) Hp1). reflexivity. }
    assert (HLq : fst L <= q -> est_points q x0 y0 ((x1, y1) :: r) = snd L).
    { intros H. rewrite est_points_eq, last_two. fold L.
      rewrite (proj2 (Qle_bool_false _ _) Hq0), (proj2 (Qle_bool_iff _ _) H). reflexivity. }
    destruct (Qle_bool (fst L) p) eqn:E2.
    { apply Qle_bool_iff in E2. rewrite Ep, HLq by lra. apply Qle_refl. }
    assert (Hseg : (if Qeq_bool x1 x0 then y0 else y0 + (p - x0) / (x1 - x0) * (y1 - y0)) <= y1).
    { destruct (Qeq_bool x1 x0); [exact Hy01|]. apply (seg_bounds x0 y0 x1 y1 p); assumption. }
    destruct (Qlt_le_dec x1 q) as [Hq1|Hq1].
    + rewrite (est_points_tail q x0 y0 x1 y1 r) by lra.
      destruct (est_points_bounds r x1 y1 Hys' q) as [Lq' _].
      rewrite Ep. lra.
    + destruct (Qle_bool (fst L) q) eqn:E3.
      { apply Qle_bool_iff in E3. rewrite HLq by exact E3. exact Up. }
      assert (Eq : est_points q x0 y0 ((x1, y1) :: r) =
                   if Qeq_bool x1 x0 then y0 else y0 + (q - x0) / (x1 - x0) * (y1 - y0)).
      { rewrite est_points_eq, last_two. fold L.
        rewrite (proj2 (Qle_bool_false _ _) Hq0), E3.
        cbn [chain_eval]. rewrite (proj2 (Qle_bool_iff _ _) Hq1). reflexivity. }
      rewrite Ep, Eq. destruct (Qeq_bool x1 x0); [apply Qle_refl|].
      apply seg_mono; [lra | exact Hy01 | exact Hpq].
Qed.

(** [estimate_p_true] in any arithmetic: at a price [p <= x0] it returns the
    first point's value, and at a price above [x0] that is [>=] the last
    midpoint it returns the last point's value, with [<=] as the number type
    compares. *)
Lemma estimate_p_true_endpoints {R} `{PyNum R} (bins : list (BucketOf R)) (x0 y0 : R)
    (rest : list (R * R)) (p : R) :
  bucket_midpoints bins = (x0, y0) :: rest ->
  (py_leb p x0 = true -> estimate_p_true p bins = Some y0) /\
  (py_leb p x0 = false -> py_leb (fst (List.last ((x0, y0) :: rest) (x0, y0))) p = true ->
     estimate_p_true p bins = Some (snd (List.last ((x0, y0) :: rest) (x0, y0)))).
Proof.
  intros Hpts. unfold estimate_p_true. rewrite Hpts.
  destruct (List.last ((x0, y0) :: rest) (x0, y0)) as [xl yl]. cbn [fst snd].
  split; intros E1; rewrite E1; [reflexivity|]. intros E2. rewrite E2. reflexivity.
Qed.

(** C9 (counterexample). In binary64, the buckets [[0, 0.25]], [[0.25, 0.5]]
    and [[0.5, 0.75]] with [p_true] 0.3, 0.9 and 0.9 have midpoints 0.125,
    0.375 and 0.625 and non-decreasing [p_true] values, yet the estimate at
    0.375 is [0.3 + 1.0 * (0.9 - 0.3) = 0.9000000000000001], above the estimate
    0.9 at 0.5. And with the two buckets of midpoint 1/2, at the price 1/2,
    which is at or above the last midpoint, the estimate is the first bucket's
    [p_true] 1/5, not the last bucket's 4/5. *)
Lemma estimate_p_true_monotone_cex :
  bucket_midpoints rising_buckets_f64 = [(0.125, 0.3); (0.375, 0.9); (0.625, 0.9)]%float /\
  PrimFloat.leb 0.3 0.9 = true /\ PrimFloat.leb 0.9 0.9 = true /\
  PrimFloat.leb 0.375 0.5 = true /\
  estimate_p_true 0.375%float rising_buckets_f64 = Some 0.9000000000000001%float /\
  estimate_p_true 0.5%float rising_buckets_f64 = Some 0.9%float /\
  PrimFloat.ltb 0.9 0.9000000000000001 = true /\
  let pts := bucket_midpoints nested_buckets in
  estimate_p_true (1 # 2) nested_buckets = Some (1 # 5) /\
  fst (List.last pts (0, 0)) <= 1 # 2 /\
  snd (List.last pts (0, 0)) = 4 # 5 /\
  ~ (1 # 5 == 4 # 5).
Proof.
  split; [vm_compute; reflexivity|].
  split; [vm_compute; reflexivity|]. split; [vm_compute; reflexivity|].
  split; [vm_compute; reflexivity|].
  split; [vm_compute; reflexivity|]. split; [vm_compute; reflexivity|].
  split; [vm_compute; reflexivity|].
  cbv zeta. split; [vm_compute; reflexivity|].
  split; [apply Qle_bool_iff; vm_compute; reflexivity|].
  split; [vm_compute; reflexivity|].
  intros H. apply Qeq_bool_iff in H. discriminate H.
Qed.

(** C9 (amended). [estimate_p_true], in any arithmetic and in particular in
    the binary64 floats of the source, returns the first point's [p_true] at a
    price [p <= x0] (the first midpoint), and the last point's [p_true] at a
    price above [x0] that is [>=] the last midpoint; the comparisons are the
    number type's own. When the same computation is carried out in exact
    arithmetic and the [p_true] values of the populated buckets, sorted by
    midpoint, do not decrease, the estimate is monotone non-decreasing in the
    price. *)
Theorem estimate_p_true_monotone :
  (forall (R : Type) (NR : PyNum R) (bins : list (BucketOf R)) (x0 y0 : R)
          (rest : list (R * R)) (p : R),
     bucket_midpoints bins = (x0, y0) :: rest ->
     (py_leb p x0 = true -> estimate_p_true p bins = Some y0) /\
     (py_leb p x0 = false -> py_leb (fst (List.last ((x0, y0) :: rest) (x0, y0))) p = true ->
        estimate_p_true p bins = Some (snd (List.last ((x0, y0) :: rest) (x0, y0))))) /\
  (forall (bins : list Bucket) (x0 y0 : Q) (rest : list (Q * Q)),
     bucket_midpoints bins = (x0, y0) :: rest -> ys_sorted y0 rest ->
     forall p q, p <= q -> exists ep eq,
       estimate_p_true p bins = Some ep /\ estimate_p_true q bins = Some eq /\ ep <= eq).
Proof.
  split.
  - intros R NR bins x0 y0 rest p Hpts. exact (estimate_p_true_endpoints bins x0 y0 rest p Hpts).
  - intros bins x0 y0 rest Hpts Hys p q Hpq.
    exists (est_points p x0 y0 rest), (est_points q x0 y0 rest).
    rewrite !estimate_p_true_points, Hpts.
    split; [reflexivity|]. split; [reflexivity|]. apply est_points_mono; assumption.
Qed.

(** The three float buckets: the estimate at 0.1 is the first [p_true] 0.3
    and at 0.7 the last [p_true] 0.9; in exact arithmetic, the two-bucket
    table gives an estimate at 1/3 that does not exceed the one at 1/2. *)
Lemma estimate_p_true_monotone_witness :
  estimate_p_true 0.1%float rising_buckets_f64 = Some 0.3%float /\
  estimate_p_true 0.7%float rising_buckets_f64 = Some 0.9%float /\
  (exists ep eq, estimate_p_true (1 # 3) two_buckets = Some ep /\
                 estimate_p_true (1 # 2) two_buckets = Some eq /\ ep <= eq).
Proof.
  assert (Hf : bucket_midpoints rising_buckets_f64 =
               [(0.125, 0.3); (0.375, 0.9); (0.625, 0.9)]%float) by (vm_compute; reflexivity).
  assert (Hpts : bucket_midpoints two_buckets = [(1 # 4, 1 # 5); (6 # 8, 4 # 5)])
    by (vm_compute; reflexivity).
  assert (Hys : ys_sorted (1 # 5) [(6 # 8, 4 # 5)])
    by (split; [apply Qle_bool_iff; reflexivity | exact I]).
  destruct estimate_p_true_monotone as [Hend Hmono].
  split; [|split].
  - apply (proj1 (Hend float PyNum_F64 rising_buckets_f64 _ _ _ 0.1%float Hf)).
    vm_compute. reflexivity.
  - apply (proj2 (Hend float PyNum_F64 rising_buckets_f64 _ _ _ 0.7%float Hf));
      vm_compute; reflexivity.
  - apply (Hmono two_buckets _ _ _ Hpts Hys). apply Qle_bool_iff; reflexivity.
Defined.
Lemma market_candidates_some (parse_market_date : string -> option Z) (p_true_fn : Q -> Q)
    (ev_threshold : Q) (now : Z) (meta : gmap string MarketMeta) (row : PriceRow)
    (pm pt : Q) (b : option string) (c : list (string * Q * bool)) :
  market_candidates parse_market_date p_true_fn ev_threshold now meta row = Some (pm, pt, b, c) ->
  pr_p_mkt row = Some pm /\ pt = p_true_fn pm /\
  (str_contains "weather" (str_lower (default "" (meta !! pr_market_id row ≫= mm_category)))
   && Qlt_bool pm WEATHER_MIN_P && Qlt_bool pt WEATHER_MIN_P) = false.
Proof.
  intros H. unfold market_candidates in H.
  destruct (pr_p_mkt row) as [p|]; [|discriminate H]. cbv zeta in H.
  match type of H with
  | (match ?E with None => None | Some _ => _ end) = _ => destruct E as [e|]; [|discriminate H]
  end.
  match type of H with
  | (if ?X then None else if ?W then None else if ?G then None else _) = _ =>
      destruct X; [discriminate H|]; destruct W eqn:Ew; [discriminate H|];
      destruct G; [discriminate H|]
  end.
  injection H as <- <- _ _. auto.
Qed.

Lemma str_prefix_lower (needle s : string) :
  str_lower needle = needle -> str_prefix needle s = true -> str_prefix needle (str_lower s) = true.
Proof.
  revert s. induction needle as [|c p IH]; intros s Hl Hp; [reflexivity|].
  destruct s as [|d s]; [discriminate Hp|].
  cbn in Hl, Hp |- *. injection Hl as Hc Hl.
  apply andb_prop in Hp as [Hcd Hp]. apply Ascii.eqb_eq in Hcd. subst d.
  rewrite Hc, Ascii.eqb_refl. cbn. apply IH; assumption.
Qed.

Lemma str_contains_lower (needle s : string) :
  str_lower needle = needle -> str_contains needle s = true -> str_contains needle (str_lower s) = true.
Proof.
  intros Hl. induction s as [|c s IH]; intros H; [exact H|].
  cbn in H |- *. apply orb_true_iff in H as [H|H]; apply orb_true_iff.
  - left. change (String (ascii_lower c) (str_lower s)) with (str_lower (String c s)).
    apply str_prefix_lower; assumption.
  - right. apply IH, H.
Qed.

Lemma insert_candidates_fields (row : PriceRow) (cat : option string) (pm pt : Q)
    (b : option string) (max_signals : Z) (cands : list (string * Q * bool)) :
  forall created,
  Forall (fun s => ns_category s = cat /\ ns_p_mkt s = pm /\ ns_p_true_est s = pt)
    (fst (fst (insert_candidates row cat pm pt b max_signals created cands))).
Proof.
  induction cands as [|[[side ev] forced] rest IH]; intros created; cbn; [constructor|].
  destruct (max_signals <=? created + 1)%Z; [repeat constructor|].
  specialize (IH (created + 1)%Z).
  destruct (insert_candidates row cat pm pt b max_signals (created + 1) rest) as [[more c'] stop].
  cbn in *. constructor; [repeat split | exact IH].
Qed.

Lemma generate_loop_weather (parse_market_date : string -> option Z) (p_true_fn : Q -> Q)
    (ev_threshold : Q) (max_signals now : Z) (meta : gmap string MarketMeta)
    (prices : list PriceRow) :
  forall created,
  Forall (fun s =>
      (str_contains "weather" (str_lower (default "" (ns_category s)))
       && Qlt_bool (ns_p_mkt s) WEATHER_MIN_P && Qlt_bool (ns_p_true_est s) WEATHER_MIN_P) = false)
    (generate_loop parse_market_date p_true_fn ev_threshold max_signals now meta created prices).
Proof.
  induction prices as [|row rest IH]; intros created; cbn; [constructor|].
  destruct (market_candidates parse_market_date p_true_fn ev_threshold now meta row)
    as [[[[pm pt] b] c]|] eqn:Hm; [|apply IH].
  destruct (market_candidates_some _ _ _ _ _ _ _ _ _ _ Hm) as [_ [_ Hw]].
  pose proof (insert_candidates_fields row (meta !! pr_market_id row ≫= mm_category)
                pm pt b max_signals c created) as Hf.
  destruct (insert_candidates row (meta !! pr_market_id row ≫= mm_category) pm pt b
              max_signals created c) as [[ins c'] stop].
  cbn in Hf.
  assert (Hins : Forall (fun s =>
      (str_contains "weather" (str_lower (default "" (ns_category s)))
       && Qlt_bool (ns_p_mkt s) WEATHER_MIN_P && Qlt_bool (ns_p_true_est s) WEATHER_MIN_P) = false) ins).
  { eapply Forall_impl; [exact Hf|]. intros s [-> [-> ->]]. exact Hw. }
  destruct stop; [exact Hins|]. apply Forall_app; split; [exact Hins | apply IH].
Qed.

(** C10. Every signal row that [generate_signals] inserts fails the weather
    filter: its market's category does not contain ["weather"] (as written or
    lower-cased), or its [p_mkt] is at least [WEATHER_MIN_P] = 0.03, or its
    estimated true probability is at least 0.03. This holds for any
    calibration result, EV threshold, signal limit, clock, market metadata and
    price rows, so in particular whatever the EV, expiry and band gates decide. *)
Theorem generate_signals_weather_filter (parse_market_date : string -> option Z)
    (calib : option (list Bucket)) (ev_threshold : Q) (max_signals now : Z)
    (meta : gmap string MarketMeta) (prices : list PriceRow) :
  Forall (fun s =>
      (str_contains "weather" (default "" (ns_category s))
       || str_contains "weather" (str_lower (default "" (ns_category s))))
      && Qlt_bool (ns_p_mkt s) WEATHER_MIN_P && Qlt_bool (ns_p_true_est s) WEATHER_MIN_P = false)
    (generate_signals parse_market_date calib ev_threshold max_signals now meta prices).
Proof.
  eapply Forall_impl; [apply generate_loop_weather|]. intros s Hs. cbv beta in *.
  destruct (str_contains "weather" (default "" (ns_category s))) eqn:Ec.
  - apply (str_contains_lower "weather") in Ec; [|reflexivity]. rewrite Ec in Hs. exact Hs.
  - exact Hs.
Qed.

(* ========================================================================= *)
(** * Further properties of the package *)

Ltac destr_if :=
  match goal with |- context [if ?b then _ else _] => destruct b eqn:? end.

(** ** The positions ledger *)

Lemma position_delta_size {R} `{PyNum R} side sp ap sd pr :
  fst (fst (position_delta side sp ap sd pr)) = (sp + sd)%Z.
Proof.
  unfold position_delta. cbv zeta.
  destruct (((0 <=? sp) && (0 <=? sd)) || ((sp <=? 0) && (sd <=? 0)))%Z eqn:E; [reflexivity|].
  destruct (Z.abs sp <? Z.abs sd)%Z eqn:F; [|reflexivity]. cbn [fst].
  apply orb_false_iff in E as [E1 E2].
  apply andb_false_iff in E1; apply andb_false_iff in E2. rewrite Z.ltb_lt in F.
  destruct (0 <? sd)%Z eqn:G; [rewrite Z.ltb_lt in G | rewrite Z.ltb_ge in G];
  destruct E1 as [E1|E1], E2 as [E2|E2]; rewrite ?Z.leb_gt in E1, E2; lia.
Qed.

Lemma position_delta_fst_side {R} `{PyNum R} side side' sp ap sd pr :
  fst (position_delta side sp ap sd pr) = fst (position_delta side' sp ap sd pr).
Proof.
  unfold position_delta. cbv zeta. destr_if; [reflexivity|]. destr_if; reflexivity.
Qed.

Lemma position_delta_realized (side : string) (sp : Z) (ap : Q) (sd : Z) (pr : Q) :
  snd (position_delta side sp ap sd pr) ==
  (if (((0 <=? sp) && (0 <=? sd)) || ((sp <=? 0) && (sd <=? 0)))%Z then 0
   else (if (0 <? sp)%Z then 1 else -1) * (pr - ap) * inject_Z (Z.min (Z.abs sp) (Z.abs sd))).
Proof.
  unfold position_delta, profit_yes, profit_no. cbv zeta. py_Q.
  destruct (((0 <=? sp) && (0 <=? sd)) || ((sp <=? 0) && (sd <=? 0)))%Z eqn:E;
    [cbn; reflexivity|].
  apply orb_false_iff in E as [E1 E2].
  apply andb_false_iff in E1; apply andb_false_iff in E2.
  assert (Hs : (0 < sp)%Z \/ (sp < 0)%Z)
    by (destruct E1 as [E1|E1], E2 as [E2|E2]; rewrite ?Z.leb_gt in E1, E2; lia).
  set (c := inject_Z (Z.min (Z.abs sp) (Z.abs sd))).
  destruct (String.eqb side "yes");
  destruct Hs as [Hs|Hs];
  [ rewrite (proj2 (Z.ltb_lt 0 sp) Hs) | rewrite (proj2 (Z.ltb_ge 0 sp) ltac:(lia))
  | rewrite (proj2 (Z.ltb_lt 0 sp) Hs), (proj2 (Z.ltb_ge sp 0) ltac:(lia))
  | rewrite (proj2 (Z.ltb_ge 0 sp) ltac:(lia)), (proj2 (Z.ltb_lt sp 0) Hs) ];
  cbn [String.eqb Ascii.eqb Bool.eqb andb];
  destr_if; cbn [snd]; ring.
Qed.

Lemma record_trade_lookup {R} `{PyNum R} (trades : list (Trade R)) positions (t : Trade R) :
  let key := (tr_market_ticker t, tr_side t) in
  let d := if String.eqb (tr_direction t) "buy" then tr_size t else (- tr_size t)%Z in
  let prev := positions !! key in
  let '(sn, an, rd) := position_delta (tr_side t)
                         (match prev with Some r => pos_size r | None => 0%Z end)
                         (match prev with Some r => pos_avg_entry_price r | None => py_of_Z 0 end)
                         d (tr_price t) in
  (record_trade trades positions t).1 = trades ++ [t] /\
  (record_trade trades positions t).2 !! key =
    Some {| pos_size := sn; pos_avg_entry_price := an;
            pos_realized_pnl := match prev with
                                | Some r => py_add (pos_realized_pnl r) rd
                                | None => rd
                                end |} /\
  forall k, k <> key -> (record_trade trades positions t).2 !! k = positions !! k.
Proof.
  cbv zeta. unfold record_trade, update_position. cbv zeta.
  destruct (position_delta _ _ _ _ _) as [[sn an] rd]. cbn [fst snd].
  split; [reflexivity|]. split; [apply lookup_insert_eq|].
  intros k Hk. apply lookup_insert_ne. congruence.
Qed.

(** Every [record_trade] moves the stored size of its [(market_ticker, side)]
    row by exactly the trade's signed size ([+size] for a buy, [-size]
    otherwise), also when the trade flips the position, and leaves every
    other row as it was. *)
Theorem record_trade_size {R} `{PyNum R} (trades : list (Trade R)) positions (t : Trade R) :
  exists r,
    (record_trade trades positions t).2 !! (tr_market_ticker t, tr_side t) = Some r /\
    pos_size r = (match positions !! (tr_market_ticker t, tr_side t) with
                  | Some r0 => pos_size r0 | None => 0 end +
                  (if String.eqb (tr_direction t) "buy" then tr_size t else - tr_size t))%Z /\
    (forall k, k <> (tr_market_ticker t, tr_side t) ->
       (record_trade trades positions t).2 !! k = positions !! k).
Proof.
  pose proof (record_trade_lookup trades positions t) as L. cbv zeta in L.
  pose proof (position_delta_size (tr_side t)
     (match positions !! (tr_market_ticker t, tr_side t) with Some r => pos_size r | None => 0%Z end)
     (match positions !! (tr_market_ticker t, tr_side t) with
      | Some r => pos_avg_entry_price r | None => py_of_Z 0 end)
     (if String.eqb (tr_direction t) "buy" then tr_size t else (- tr_size t)%Z) (tr_price t)) as S.
  destruct (position_delta _ _ _ _ _) as [[sn an] rd]. cbn [fst] in S.
  destruct L as [_ [L1 L2]]. eexists. split; [exact L1|]. split; [exact S | exact L2].
Qed.

(** [_update_position] computes the same new size, average price and
    realized delta whatever the [side] argument: the NO branch through
    [_profit_no] gives the same value as the YES branch through
    [_profit_yes].  The realized delta is 0 when the trade extends the
    position (or either size is 0), and otherwise
    [(price - avg) * closing] for a long and [(avg - price) * closing] for a
    short, with [closing = min(|size|, |delta|)]. *)
Theorem position_delta_side_independent (side : string) (sp : Z) (ap : Q) (sd : Z) (pr : Q) :
  fst (position_delta side sp ap sd pr) = fst (position_delta "yes" sp ap sd pr) /\
  snd (position_delta side sp ap sd pr) == snd (position_delta "yes" sp ap sd pr) /\
  (((0 <= sp /\ 0 <= sd) \/ (sp <= 0 /\ sd <= 0))%Z -> snd (position_delta side sp ap sd pr) == 0) /\
  ((0 < sp /\ sd < 0)%Z ->
   snd (position_delta side sp ap sd pr) == (pr - ap) * inject_Z (Z.min (Z.abs sp) (Z.abs sd))) /\
  ((sp < 0 /\ 0 < sd)%Z ->
   snd (position_delta side sp ap sd pr) == (ap - pr) * inject_Z (Z.min (Z.abs sp) (Z.abs sd))).
Proof.
  split; [apply position_delta_fst_side|].
  rewrite !position_delta_realized. split; [reflexivity|].
  split; [|split]; intros Hc.
  - replace (((0 <=? sp) && (0 <=? sd)) || ((sp <=? 0) && (sd <=? 0)))%Z with true
      by (symmetry; apply orb_true_iff; destruct Hc as [[A B]|[A B]];
          [left | right]; apply andb_true_iff; split; apply Z.leb_le; lia).
    reflexivity.
  - replace (((0 <=? sp) && (0 <=? sd)) || ((sp <=? 0) && (sd <=? 0)))%Z with false
      by (symmetry; apply orb_false_iff; split; apply andb_false_iff;
          [right | left]; apply Z.leb_gt; lia).
    rewrite (proj2 (Z.ltb_lt 0 sp)) by lia. ring.
  - replace (((0 <=? sp) && (0 <=? sd)) || ((sp <=? 0) && (sd <=? 0)))%Z with false
      by (symmetry; apply orb_false_iff; split; apply andb_false_iff;
          [left | right]; apply Z.leb_gt; lia).
    rewrite (proj2 (Z.ltb_ge 0 sp)) by lia. ring.
Qed.

Lemma position_delta_close (side : string) (n : Z) (avg b : Q) :
  (0 < n)%Z -> exists rd, position_delta side n avg (- n) b = (0%Z, avg, rd) /\
                          rd == (b - avg) * inject_Z n.
Proof.
  intros Hn. unfold position_delta. cbv zeta.
  rewrite (proj2 (Z.leb_le 0 n)) by lia.
  rewrite (proj2 (Z.leb_gt 0 (- n))) by lia.
  rewrite (proj2 (Z.leb_gt n 0)) by lia. cbn [andb orb].
  rewrite (Z.abs_eq n) by lia. rewrite (Z.abs_neq (- n)) by lia.
  rewrite (proj2 (Z.ltb_ge n (- - n))) by lia.
  rewrite (proj2 (Z.ltb_lt 0 n)) by lia.
  rewrite (proj2 (Z.ltb_ge n 0)) by lia.
  replace (Z.min n (- - n)) with n by lia. replace (n + - n)%Z with 0%Z by lia.
  eexists. split; [reflexivity|].
  destruct (String.eqb side "yes"); unfold profit_yes, profit_no; py_Q;
    cbn [String.eqb Ascii.eqb Bool.eqb andb]; ring.
Qed.

(** ** Take-profit exits *)

Lemma exit_trade_some (factor : Q) (now : Z) (row : ExitRow) (t : Trade Q) :
  exit_trade factor now row = Some t ->
  let entry := default 0 (ex_avg_entry_price row) in
  tr_direction t = "sell"%string /\ (0 < tr_size t)%Z /\
  tr_size t = default 0%Z (ex_size row) /\
  tr_market_ticker t = ex_market_ticker row /\
  tr_side t = str_lower (default "" (ex_side row)) /\
  (tr_side t = "yes"%string \/ tr_side t = "no"%string) /\
  ex_current_price row = Some (tr_price t) /\
  (should_take_profit (tr_side t) entry (tr_price t) factor = true \/
   (tr_side t = "yes"%string /\ entry <= 2 # 100 /\ 10 # 100 <= tr_price t)).
Proof.
  intros H. unfold exit_trade in H. cbv zeta in H |- *.
  destruct (((default 0%Z (ex_size row) <=? 0)%Z ||
             negb (String.eqb (str_lower (default "" (ex_side row))) "yes" ||
                   String.eqb (str_lower (default "" (ex_side row))) "no"))) eqn:E1;
    [discriminate H|].
  destruct (ex_expiration_ts row) as [e|]; [|discriminate H].
  destruct ((e <? now)%Z || (now + EXIT_EXPIRY_HARD_LIMIT <? e)%Z); [discriminate H|].
  destruct (ex_current_price row) as [c|] eqn:Ec; [|discriminate H].
  destruct (should_take_profit _ _ c factor) eqn:Es.
  - injection H as <-. cbn.
    apply orb_false_iff in E1 as [E1 E2]. apply negb_false_iff, orb_true_iff in E2.
    rewrite Z.leb_gt in E1.
    repeat split; try reflexivity; try lia.
    + destruct E2 as [E2|E2]; apply String.eqb_eq in E2; auto.
    + left. exact Es.
  - cbn [orb negb] in H.
    destruct (bool_decide _ && _ && _ && _) eqn:Ec2; [|discriminate H].
    injection H as <-. cbn.
    apply orb_false_iff in E1 as [E1 E2]. rewrite Z.leb_gt in E1.
    apply andb_true_iff in Ec2 as [Ec2 Hc]. apply andb_true_iff in Ec2 as [Ec2 He].
    apply andb_true_iff in Ec2 as [_ Hy]. apply String.eqb_eq in Hy.
    apply Qle_bool_iff in Hc, He.
    repeat split; try reflexivity; try lia; auto.
Qed.

(** A take-profit exit (simulate mode) of a position row with a positive
    size sells the whole size at the current price: [record_trade] leaves
    the row at size 0 with its average entry price, and adds
    [(current - avg) * size] to its realized PnL, for a YES and for a NO
    row alike.  So with a take-profit factor above 1 the exit raises the
    realized PnL of a YES row and lowers that of a NO row: a NO exit fires
    when the YES price has fallen below the entry, and [_update_position]
    books that fall as a loss. *)
Theorem take_profit_exit_realized (factor : Q) (now : Z) (row : ExitRow) (t : Trade Q)
    (trades : list (Trade Q)) (positions : gmap (string * string) (Position Q))
    (r : Position Q) :
  exit_trade factor now row = Some t ->
  positions !! (tr_market_ticker t, tr_side t) = Some r ->
  pos_size r = tr_size t ->
  tr_direction t = "sell"%string /\ (0 < tr_size t)%Z /\
  exists r', (record_trade trades positions t).2 !! (tr_market_ticker t, tr_side t) = Some r' /\
    pos_size r' = 0%Z /\ pos_avg_entry_price r' = pos_avg_entry_price r /\
    pos_realized_pnl r' == pos_realized_pnl r + (tr_price t - pos_avg_entry_price r) * inject_Z (tr_size t) /\
    (pos_avg_entry_price r = default 0 (ex_avg_entry_price row) -> 1 < factor ->
     (tr_side t = "yes"%string -> pos_realized_pnl r < pos_realized_pnl r') /\
     (tr_side t = "no"%string -> pos_realized_pnl r' < pos_realized_pnl r)).
Proof.
  intros Hx Hr Hs.
  destruct (exit_trade_some factor now row t Hx) as [Hd [Hn [_ [_ [_ [Hside [_ Hwhy]]]]]]].
  cbv zeta in Hwhy.
  split; [exact Hd|]. split; [exact Hn|].
  pose proof (record_trade_lookup trades positions t) as L. cbv zeta in L.
  rewrite Hr, Hd, Hs in L. cbn [String.eqb Ascii.eqb Bool.eqb andb] in L.
  destruct (position_delta_close (tr_side t) (tr_size t) (pos_avg_entry_price r) (tr_price t) Hn)
    as [rd [E Hrd]].
  rewrite E in L. destruct L as [_ [L _]].
  eexists. split; [exact L|]. cbn [pos_size pos_avg_entry_price pos_realized_pnl]. py_Q.
  split; [reflexivity|]. split; [reflexivity|]. split; [rewrite Hrd; reflexivity|].
  intros Havg Hf.
  assert (Hnq : 0 < inject_Z (tr_size t)) by (unfold Qlt; cbn; lia).
  rewrite Havg in Hrd. set (entry := default 0 (ex_avg_entry_price row)) in *.
  set (c := tr_price t) in *.
  assert (Hdir : (tr_side t = "yes"%string -> entry < c) /\ (tr_side t = "no"%string -> c < entry)).
  { destruct Hwhy as [Hw | [Hy [He Hc]]].
    - unfold should_take_profit in Hw.
      destruct (Qle_bool entry 0) eqn:E0; [discriminate Hw|]. apply Qle_bool_false in E0.
      split; intros Hside'; rewrite Hside' in Hw; cbn in Hw; apply Qle_bool_iff in Hw.
      + assert (entry * 1 < entry * factor) by (apply Qmult_lt_l; assumption). lra.
      + assert (Hdiv : entry / factor < entry).
        { apply Qlt_shift_div_r; [lra|]. assert (entry * 1 < entry * factor) by (apply Qmult_lt_l; assumption). lra. }
        lra.
    - split; intros Hside'; [lra | rewrite Hy in Hside'; discriminate Hside']. }
  destruct Hdir as [Hy Hno]. split; intros Hside'.
  - specialize (Hy Hside'). rewrite Hrd.
    assert (0 < (c - entry) * inject_Z (tr_size t)) by (apply Qmult_lt_0_compat; lra). lra.
  - specialize (Hno Hside'). rewrite Hrd.
    assert (0 < (entry - c) * inject_Z (tr_size t)) by (apply Qmult_lt_0_compat; lra).
    assert ((c - entry) * inject_Z (tr_size t) == - ((entry - c) * inject_Z (tr_size t))) by ring.
    lra.
Qed.

(* ------------------------------------------------------------------------- *)
(** ** Calibration buckets *)

Lemma map_insert_list {A B} (f : A -> B) (l : list A) (i : nat) (x : A) :
  map f (<[i := x]> l) = <[i := f x]> (map f l).
Proof.
  revert i. induction l as [|y l IH]; intros [|i]; cbn; [reflexivity..|].
  f_equal. apply IH.
Qed.

Lemma map_lookup_list {A B} (f : A -> B) (l : list A) (i : nat) (y : B) :
  map f l !! i = Some y <-> exists x, l !! i = Some x /\ y = f x.
Proof.
  revert i. induction l as [|z l IH]; intros [|i]; cbn.
  - split; [discriminate | intros [x [Hx _]]; discriminate].
  - split; [discriminate | intros [x [Hx _]]; discriminate].
  - split; [intros Hy; exists z; split; [reflexivity | congruence]|].
    intros [x [Hx ->]]. congruence.
  - apply IH.
Qed.

Lemma sum_Z_insert (l : list Z) (i : nat) (x y : Z) :
  l !! i = Some x -> sum_Z (<[i := y]> l) = (sum_Z l - x + y)%Z.
Proof.
  revert i. induction l as [|z l IH]; intros [|i] Hl; try discriminate.
  - cbn in Hl. injection Hl as ->. cbn. lia.
  - cbn in Hl. specialize (IH i Hl).
    change (sum_Z (z :: <[i := y]> l) = (sum_Z (z :: l) - x + y)%Z).
    cbn [sum_Z]. rewrite IH. lia.
Qed.

Lemma bucket_scan_range (p : Q) (last : Z) (pairs : list (Q * Q)) :
  forall idx, (idx <= last)%Z -> (idx + Z.of_nat (length pairs) <= last + 1)%Z ->
  (idx <= bucket_scan p last idx pairs <= last)%Z.
Proof.
  induction pairs as [|[lo hi] rest IH]; intros idx H1 H2; cbn [bucket_scan].
  - lia.
  - destruct (_ || _); [lia|].
    destruct rest as [|pr rest']; [cbn [bucket_scan]; lia|].
    cbn [length] in H2 |- *.
    assert (IH' := IH (idx + 1)%Z ltac:(lia) ltac:(cbn [length] in *; lia)). lia.
Qed.

Lemma bucket_from_edges_range (p : Q) (edges : list Q) :
  (2 <= length edges)%nat ->
  exists i, bucket_from_edges p edges = Some i /\ (0 <= i <= Z.of_nat (length edges) - 2)%Z.
Proof.
  intros Hlen. destruct edges as [|e0 l]; [cbn in Hlen; lia|].
  unfold bucket_from_edges.
  destruct (Qle_bool p e0); [exists 0%Z; split; [reflexivity | lia]|].
  destruct (Qle_bool _ p); [eexists; split; [reflexivity | lia]|].
  eexists; split; [reflexivity|].
  apply bucket_scan_range; [cbn [length] in *; lia|].
  unfold edge_pairs. rewrite length_combine. cbn [tail length]. lia.
Qed.

Lemma init_buckets_shape (edges : list Q) (bs : list Bucket) :
  init_buckets_from_edges edges = inl bs ->
  map (fun b => (bucket_low b, bucket_high b)) bs = edge_pairs edges /\
  Forall (fun b => bucket_n b = 0%Z /\ bucket_n_yes b = 0%Z /\
                   bucket_p_mkt_avg b = None /\ bucket_p_true b = None) bs.
Proof.
  unfold init_buckets_from_edges. destruct (length edges <? 2)%nat; [discriminate|].
  generalize (edge_pairs edges) as ps. intros ps. revert bs.
  induction ps as [|[lo hi] ps IH]; intros bs H; cbn [fold_right] in H.
  - injection H as <-. split; [reflexivity | constructor].
  - destruct (Qle_bool hi lo); [discriminate|].
    destruct (fold_right _ _ ps) as [bs'|e] eqn:E; [|discriminate].
    injection H as <-. destruct (IH bs' eq_refl) as [H1 H2].
    split; [cbn; rewrite H1; reflexivity|]. constructor; [cbn; auto | exact H2].
Qed.

Lemma count_priced_cons (m : ResolvedMarket) (ms : list ResolvedMarket) :
  count_priced (m :: ms) = (count_priced [m] + count_priced ms)%nat.
Proof. cbn. destruct (rm_price m ≫= compute_mid_price); reflexivity. Qed.

Lemma calib_step_ok (sel : Q -> option Z) (bs : list (Bucket * Q)) (m : ResolvedMarket) :
  (forall p, exists i, sel p = Some i /\ (0 <= i < Z.of_nat (length bs))%Z) ->
  exists bs', calib_step sel (inl bs) m = inl bs' /\ length bs' = length bs /\
    map (fun x => (bucket_low (fst x), bucket_high (fst x))) bs' =
    map (fun x => (bucket_low (fst x), bucket_high (fst x))) bs /\
    (Forall calib_inv bs -> Forall calib_inv bs') /\
    sum_Z (map (fun x => bucket_n (fst x)) bs') =
      (sum_Z (map (fun x => bucket_n (fst x)) bs) + Z.of_nat (count_priced [m]))%Z.
Proof.
  intros Hsel. unfold calib_step. cbn [count_priced].
  destruct (rm_price m ≫= compute_mid_price) as [p|].
  2: { exists bs. repeat split; auto. cbn. lia. }
  destruct (Hsel p) as [i [Hi Hr]]. rewrite Hi. cbn [mbind option_bind].
  assert (Hidx : py_index (length bs) i = Some (Z.to_nat i)).
  { unfold py_index. replace ((0 <=? i)%Z && (i <? Z.of_nat (length bs))%Z) with true; [reflexivity|].
    symmetry. apply andb_true_intro. split; [apply Z.leb_le | apply Z.ltb_lt]; lia. }
  rewrite Hidx.
  destruct (bs !! Z.to_nat i) as [[b s]|] eqn:El.
  2: { apply lookup_ge_None in El. lia. }
  eexists; split; [reflexivity|].
  split; [apply length_insert|].
  split.
  { rewrite map_insert_list. apply list_insert_id. apply map_lookup_list.
    exists (b, s). split; [exact El | reflexivity]. }
  split.
  { intros HF. apply Forall_insert; [exact HF|].
    pose proof (Forall_lookup_1 _ _ _ _ HF El) as Hb. unfold calib_inv in *. cbn [fst] in *.
    destruct (String.eqb _ _); cbn; lia. }
  rewrite map_insert_list.
  rewrite (sum_Z_insert _ _ (bucket_n b)).
  - cbn. lia.
  - apply map_lookup_list. exists (b, s). split; [exact El | reflexivity].
Qed.

Lemma calib_fold_ok (sel : Q -> option Z) (ms : list ResolvedMarket) :
  forall bs : list (Bucket * Q),
  (forall p, exists i, sel p = Some i /\ (0 <= i < Z.of_nat (length bs))%Z) ->
  exists bs', fold_left (calib_step sel) ms (inl bs) = inl bs' /\
    map (fun x => (bucket_low (fst x), bucket_high (fst x))) bs' =
    map (fun x => (bucket_low (fst x), bucket_high (fst x))) bs /\
    (Forall calib_inv bs -> Forall calib_inv bs') /\
    sum_Z (map (fun x => bucket_n (fst x)) bs') =
      (sum_Z (map (fun x => bucket_n (fst x)) bs) + Z.of_nat (count_priced ms))%Z.
Proof.
  induction ms as [|m ms IH]; intros bs Hsel.
  - exists bs. cbn. repeat split; auto. lia.
  - cbn [fold_left]. destruct (calib_step_ok sel bs m Hsel) as [bs1 [E1 [L1 [M1 [I1 S1]]]]].
    rewrite E1. destruct (IH bs1) as [bs2 [E2 [M2 [I2 S2]]]].
    { intros p. destruct (Hsel p) as [i [Hi Hr]]. exists i. rewrite L1. auto. }
    exists bs2. split; [exact E2|]. split; [congruence|]. split; [auto|].
    rewrite S2, S1, (count_priced_cons m ms). lia.
Qed.

Lemma p_true_bounds (a n : Z) :
  (0 <= a <= n)%Z -> (0 < n)%Z -> 0 <= inject_Z a / inject_Z n <= 1.
Proof.
  intros Ha Hn. split.
  - apply Qle_shift_div_l; [unfold Qlt; cbn; lia|]. unfold Qle; cbn. lia.
  - apply Qle_shift_div_r; [unfold Qlt; cbn; lia|]. unfold Qle; cbn. lia.
Qed.

Lemma compute_calibration_generic_ok (buckets : list Bucket) (sel : Q -> option Z)
    (ms : list ResolvedMarket) :
  (forall p, exists i, sel p = Some i /\ (0 <= i < Z.of_nat (length buckets))%Z) ->
  Forall (fun b => (0 <= bucket_n_yes b <= bucket_n b)%Z) buckets ->
  exists out, compute_calibration_generic buckets sel ms = inl out /\
    map (fun b => (bucket_low b, bucket_high b)) out =
      map (fun b => (bucket_low b, bucket_high b)) buckets /\
    sum_Z (map bucket_n out) = (sum_Z (map bucket_n buckets) + Z.of_nat (count_priced ms))%Z /\
    Forall bucket_summary_ok out.
Proof.
  intros Hsel Hinv. unfold compute_calibration_generic.
  destruct (calib_fold_ok sel ms (map (fun b => (b, 0)) buckets)) as [bs [E [M [I S]]]].
  { intros p. destruct (Hsel p) as [i [Hi Hr]]. exists i. rewrite length_map. auto. }
  rewrite E. eexists; split; [reflexivity|].
  rewrite !map_map in M, S. cbn [fst] in M, S.
  assert (HI : Forall calib_inv bs).
  { apply I. apply Forall_map. unfold calib_inv. cbn [fst]. exact Hinv. }
  unfold calib_finalize. rewrite !map_map. split; [|split].
  - transitivity (map (fun x => (bucket_low (fst x), bucket_high (fst x))) bs); [|exact M].
    apply map_ext. intros [b s]. reflexivity.
  - transitivity (sum_Z (map (fun x => bucket_n (fst x)) bs)); [|exact S].
    f_equal. apply map_ext. intros [b s]. reflexivity.
  - apply Forall_map. eapply Forall_impl; [exact HI|]. intros [b s]. unfold calib_inv.
    cbn [fst]. intros Hb. unfold bucket_summary_ok. cbn.
    destruct (bucket_n b =? 0)%Z eqn:En.
    + apply Z.eqb_eq in En. repeat split; try lia; try discriminate; auto;
      intros v Hv; discriminate.
    + apply Z.eqb_neq in En. split; [lia|]. split; [split; [lia | discriminate]|].
      split; [split; [lia | discriminate]|].
      intros v Hv. injection Hv as <-. apply p_true_bounds; lia.
Qed.


Lemma init_buckets_sum_inv (bs : list Bucket) :
  Forall (fun b => bucket_n b = 0%Z /\ bucket_n_yes b = 0%Z /\
                   bucket_p_mkt_avg b = None /\ bucket_p_true b = None) bs ->
  sum_Z (map bucket_n bs) = 0%Z /\ Forall (fun b => (0 <= bucket_n_yes b <= bucket_n b)%Z) bs.
Proof.
  induction 1 as [|b bs [Hn [Hy _]] _ [IH1 IH2]]; [split; [reflexivity | constructor]|].
  cbn. split; [lia|]. constructor; [lia | exact IH2].
Qed.



(** [compute_calibration_with_bins(bin_edges)] raises the [ValueError] of
    [_init_buckets_from_edges] for bad edges; otherwise it returns one
    bucket per consecutive pair of edges, with counts adding up to the number
    of markets that have a mid price, [0 <= n_yes <= n], [p_true] and
    [p_mkt_avg] set exactly when [n > 0], and [p_true] in [[0, 1]]. *)
Theorem compute_calibration_with_bins_buckets (bin_edges : list Q)
    (markets : list ResolvedMarket) :
  match init_buckets_from_edges bin_edges with
  | inr e => compute_calibration_with_bins bin_edges markets = inr e
  | inl _ =>
      exists out, compute_calibration_with_bins bin_edges markets = inl out /\
        map (fun b => (bucket_low b, bucket_high b)) out = edge_pairs bin_edges /\
        sum_Z (map bucket_n out) = Z.of_nat (count_priced markets) /\
        Forall bucket_summary_ok out
  end.
Proof.
  unfold compute_calibration_with_bins.
  destruct (init_buckets_from_edges bin_edges) as [bs|e] eqn:Hbs; [|reflexivity].
  destruct (init_buckets_shape _ _ Hbs) as [Hlh Hinit].
  destruct (init_buckets_sum_inv bs Hinit) as [Hsum Hinv].
  assert (H2 : (2 <= length bin_edges)%nat) by (apply (proj1 (init_buckets_ok bin_edges)); eauto).
  assert (Hlen : length bs = (length bin_edges - 1)%nat).
  { rewrite <- (length_map (fun b => (bucket_low b, bucket_high b)) bs), Hlh.
    unfold edge_pairs. rewrite length_combine. destruct bin_edges; cbn [tail length]; lia. }
  destruct (compute_calibration_generic_ok bs (fun p => bucket_from_edges p bin_edges) markets)
    as [out [Hout [Hm [Hs Hok]]]].
  { intros p. destruct (bucket_from_edges_range p bin_edges H2) as [i [Hi Hr]].
    exists i. split; [exact Hi | lia]. }
  { exact Hinv. }
  exists out. split; [exact Hout|]. split; [congruence|]. split; [rewrite Hs, Hsum; lia | exact Hok].
Qed.

Lemma take_profit_exit_realized_witness :
  let row := {| ex_market_ticker := "KXM"; ex_side := Some "YES"%string; ex_size := Some 2%Z;
                ex_avg_entry_price := Some (1 # 4); ex_category := None;
                ex_expiration_ts := Some 1000%Z; ex_current_price := Some (1 # 2) |} in
  let t := {| tr_signal_id := None; tr_market_ticker := "KXM"; tr_side := "yes"; tr_size := 2;
              tr_price := 1 # 2; tr_direction := "sell" |} in
  let r := {| pos_size := 2; pos_avg_entry_price := 1 # 4; pos_realized_pnl := 0 |} in
  let positions : gmap (string * string) (Position Q) := {[ ("KXM"%string, "yes"%string) := r ]} in
  exit_trade (3 # 2) 500 row = Some t /\
  positions !! (tr_market_ticker t, tr_side t) = Some r /\
  pos_size r = tr_size t /\
  tr_direction t = "sell"%string /\ (0 < tr_size t)%Z /\
  exists r', (record_trade [] positions t).2 !! (tr_market_ticker t, tr_side t) = Some r' /\
    pos_size r' = 0%Z /\ pos_avg_entry_price r' = pos_avg_entry_price r /\
    pos_realized_pnl r' == pos_realized_pnl r + (tr_price t - pos_avg_entry_price r) * inject_Z (tr_size t) /\
    (pos_avg_entry_price r = default 0 (ex_avg_entry_price row) -> 1 < (3 # 2) ->
     (tr_side t = "yes"%string -> pos_realized_pnl r < pos_realized_pnl r') /\
     (tr_side t = "no"%string -> pos_realized_pnl r' < pos_realized_pnl r)).
Proof.
  cbv zeta.
  assert (H1 : exit_trade (3 # 2) 500
    {| ex_market_ticker := "KXM"; ex_side := Some "YES"%string; ex_size := Some 2%Z;
       ex_avg_entry_price := Some (1 # 4); ex_category := None;
       ex_expiration_ts := Some 1000%Z; ex_current_price := Some (1 # 2) |} =
    Some {| tr_signal_id := None; tr_market_ticker := "KXM"; tr_side := "yes"; tr_size := 2;
            tr_price := 1 # 2; tr_direction := "sell" |}) by (vm_compute; reflexivity).
  assert (H2 : ({[ ("KXM"%string, "yes"%string) :=
      {| pos_size := 2; pos_avg_entry_price := 1 # 4; pos_realized_pnl := 0 |} ]}
      : gmap (string * string) (Position Q)) !! ("KXM"%string, "yes"%string) =
      Some {| pos_size := 2; pos_avg_entry_price := 1 # 4; pos_realized_pnl := 0 |})
    by reflexivity.
  split; [exact H1|]. split; [exact H2|]. split; [reflexivity|].
  apply (take_profit_exit_realized _ _ _ _ [] _ _ H1 H2). reflexivity.
Defined.

(* ------------------------------------------------------------------------- *)
(** ** Fetching and executing a batch *)

Lemma insert_by_hd {A} (le : A -> A -> bool) (x y : A) (l : list A) :
  HdRel (fun a b => le a b = true) y l -> le y x = true ->
  HdRel (fun a b => le a b = true) y (insert_by le x l).
Proof.
  intros Hd Hyx. destruct l as [|z l]; cbn [insert_by]; [constructor; exact Hyx|].
  destruct (le z x); constructor; [inversion Hd; assumption | exact Hyx].
Qed.

Lemma insert_by_sorted {A} (le : A -> A -> bool) (x : A) (l : list A) :
  (forall a b, le a b = false -> le b a = true) ->
  Sorted (fun a b => le a b = true) l -> Sorted (fun a b => le a b = true) (insert_by le x l).
Proof.
  intros Htot. induction l as [|y l IH]; intros Hs; cbn [insert_by].
  - constructor; constructor.
  - inversion Hs as [|? ? Hs' Hd]; subst.
    destruct (le y x) eqn:E.
    + constructor; [apply IH; exact Hs' | apply insert_by_hd; assumption].
    + constructor; [exact Hs | constructor; apply Htot; exact E].
Qed.

Lemma sort_by_sorted {A} (le : A -> A -> bool) (xs : list A) :
  (forall a b, le a b = false -> le b a = true) ->
  Sorted (fun a b => le a b = true) (sort_by le xs).
Proof.
  intros Htot. unfold sort_by.
  assert (G : forall acc, Sorted (fun a b => le a b = true) acc ->
            Sorted (fun a b => le a b = true) (fold_left (fun acc x => insert_by le x acc) xs acc)).
  { induction xs as [|x xs IH]; intros acc Hacc; cbn [fold_left]; [exact Hacc|].
    apply IH. apply insert_by_sorted; assumption. }
  apply G. constructor.
Qed.

Lemma take_sorted {A} (Rel : A -> A -> Prop) (n : nat) (l : list A) :
  Sorted Rel l -> Sorted Rel (take n l).
Proof.
  revert n. induction l as [|x l IH]; intros [|n] Hs; cbn; try (constructor; fail).
  inversion Hs as [|? ? Hs' Hd]; subst. constructor; [apply IH; exact Hs'|].
  destruct l as [|y l]; [rewrite take_nil; constructor|].
  destruct n; cbn; constructor. inversion Hd; assumption.
Qed.

Lemma take_in {A} (n : nat) (l : list A) (x : A) : In x (take n l) -> In x l.
Proof.
  revert n. induction l as [|y l IH]; intros [|n]; cbn; try tauto.
  intros [->|H]; [left; reflexivity | right; exact (IH n H)].
Qed.

Lemma es_trades_update {R} `{PyNum R} id status mode oid ep es err (st : ExecState R) :
  es_trades (update_signal_execution id status mode oid ep es err st) = es_trades st /\
  es_executed_count (update_signal_execution id status mode oid ep es err st) = es_executed_count st.
Proof. split; reflexivity. Qed.

Lemma es_trades_record {R} `{PyNum R} (t : Trade R) (st : ExecState R) :
  es_trades (st_record_trade t st) = es_trades st ++ [t] /\
  es_executed_count (st_record_trade t st) = es_executed_count st.
Proof. split; reflexivity. Qed.

Lemma es_trades_commit {R} `{PyNum R} (m : string) (x : R) (st : ExecState R) :
  es_trades (commit_risk m x st) = es_trades st /\
  es_executed_count (commit_risk m x st) = (es_executed_count st + 1)%Z.
Proof. split; reflexivity. Qed.

Lemma execute_one_trades {R} `{PyNum R} mode client limits bankroll cf (st : ExecState R)
    (sg : Signal R) :
  exists extra, es_trades (execute_one mode client limits bankroll cf st sg) = es_trades st ++ extra /\
    es_executed_count (execute_one mode client limits bankroll cf st sg) =
      (es_executed_count st + Z.of_nat (length extra))%Z /\
    (length extra <= 1)%nat /\ Forall (trade_of_signal sg) extra.
Proof.
  unfold execute_one.
  destruct (compute_order_size_for_signal _ _ _ _ _ _ _) as [size rpc].
  destruct (size <=? 0)%Z.
  { exists []. rewrite app_nil_r. destruct (es_trades_update (sig_id sg) "ignored" mode None None None
      (Some (ErrText INSUFFICIENT_BUDGET)) st) as [A B]. rewrite A, B. cbn. repeat split; auto; lia. }
  destruct (guard_checks _ _ _ _) as [err|].
  { exists []. rewrite app_nil_r. destruct (es_trades_update (sig_id sg) "ignored" mode None None None
      (Some err) st) as [A B]. rewrite A, B. cbn. repeat split; auto; lia. }
  destruct mode.
  - eexists. rewrite (proj1 (es_trades_commit _ _ _)), (proj2 (es_trades_commit _ _ _)).
    rewrite (proj1 (es_trades_record _ _)), (proj2 (es_trades_record _ _)).
    rewrite (proj1 (es_trades_update _ _ _ _ _ _ _ _)), (proj2 (es_trades_update _ _ _ _ _ _ _ _)).
    split; [reflexivity|]. cbn [length]. split; [lia|]. split; [lia|].
    constructor; [|constructor]. unfold trade_of_signal. cbn. auto.
  - destruct (match client with None => _ | Some _ => _ end) as [resp|exc].
    + eexists. rewrite (proj1 (es_trades_commit _ _ _)), (proj2 (es_trades_commit _ _ _)).
      rewrite (proj1 (es_trades_record _ _)), (proj2 (es_trades_record _ _)).
      rewrite (proj1 (es_trades_update _ _ _ _ _ _ _ _)), (proj2 (es_trades_update _ _ _ _ _ _ _ _)).
      split; [reflexivity|]. cbn [length]. split; [lia|]. split; [lia|].
      constructor; [|constructor]. unfold trade_of_signal. cbn. auto.
    + exists []. rewrite app_nil_r. rewrite (proj1 (es_trades_update _ _ _ _ _ _ _ _)),
        (proj2 (es_trades_update _ _ _ _ _ _ _ _)). cbn. repeat split; auto; lia.
Qed.

Lemma execute_batch_trades {R} `{PyNum R} mode client limits bankroll cf (sigs : list (Signal R)) :
  forall st : ExecState R,
  exists added, es_trades (execute_batch mode client limits bankroll cf sigs st) = es_trades st ++ added /\
    es_executed_count (execute_batch mode client limits bankroll cf sigs st) =
      (es_executed_count st + Z.of_nat (length added))%Z /\
    (length added <= length sigs)%nat /\
    Forall (fun t => exists sg, In sg sigs /\ trade_of_signal sg t) added.
Proof.
  unfold execute_batch. induction sigs as [|sg sigs IH]; intros st; cbn [fold_left].
  - exists []. rewrite app_nil_r. cbn. repeat split; auto; lia.
  - destruct (execute_one_trades mode client limits bankroll cf st sg) as [e1 [T1 [C1 [L1 F1]]]].
    destruct (IH (execute_one mode client limits bankroll cf st sg)) as [e2 [T2 [C2 [L2 F2]]]].
    exists (e1 ++ e2). rewrite T2, T1, app_assoc. split; [reflexivity|].
    rewrite C2, C1, length_app. split; [lia|]. split; [cbn [length]; lia|].
    apply Forall_app. split.
    + eapply Forall_impl; [exact F1|]. intros t Ht. exists sg. split; [left; reflexivity | exact Ht].
    + eapply Forall_impl; [exact F2|]. intros t [sg' [Hin Ht]]. exists sg'. split; [right; exact Hin | exact Ht].
Qed.

(** [fetch_pending_signals(limit)] returns [min(limit, #pending)] rows of
    the table, all with status ['pending'], in non-decreasing [created_at]
    order. *)
Theorem fetch_pending_signals_batch {R} (limit : nat) (table : list (Signal R)) :
  let out := fetch_pending_signals limit table in
  length out = Nat.min limit (length (filter (fun row => String.eqb (sig_status row) "pending") table)) /\
  Forall (fun row => sig_status row = "pending"%string) out /\
  Sorted (fun a b => sig_created_at a <= sig_created_at b)%Z out /\
  (forall row, In row out -> In row table).
Proof.
  cbv zeta. unfold fetch_pending_signals.
  set (le := fun a b : Signal R => (sig_created_at a <=? sig_created_at b)%Z).
  set (pend := filter (fun row => String.eqb (sig_status row) "pending") table).
  pose proof (sort_by_perm le pend) as P.
  assert (Hin : forall row, In row (take limit (sort_by le pend)) -> In row pend).
  { intros row H. apply take_in in H. exact (Permutation_in _ P H). }
  split; [rewrite length_take, (Permutation_length P); reflexivity|].
  split.
  { apply List.Forall_forall. intros row H. apply Hin in H. unfold pend in H.
    apply list_elem_of_In, list_elem_of_filter in H. destruct H as [H _].
    apply String.eqb_eq, Is_true_eq_true, H. }
  split.
  { assert (S : Sorted (fun a b => le a b = true) (take limit (sort_by le pend))).
    { apply take_sorted, sort_by_sorted. intros a b E. unfold le in *.
      apply Z.leb_gt in E. apply Z.leb_le. lia. }
    eapply Sorted_ind; [constructor| |exact S].
    intros a l _ IHs Hd. constructor; [exact IHs|].
    destruct l as [|b l]; constructor. inversion Hd; subst. apply Z.leb_le. assumption. }
  intros row H. apply Hin in H. unfold pend in H.
  apply list_elem_of_In, list_elem_of_filter in H. apply list_elem_of_In. tauto.
Qed.

(** A run of [execute_signals(batch_limit)] only appends to the trades
    ledger: one ["buy"] trade per executed signal, carrying that signal's id,
    market and side.  It returns the number of trades appended, which is at
    most the number of pending signals fetched, hence at most
    [batch_limit]. *)
Theorem execute_signals_trades_appended {R} `{PyNum R} (batch_limit : nat)
    (configured_mode : ExecutionMode) (client_init : option PlaceOrder) (limits : RiskLimits R)
    (bankroll config_fraction total_risk : R) (per_market : gmap string R)
    (table : list (Signal R)) (trades : list (Trade R))
    (positions : gmap (string * string) (Position R)) :
  let st := execute_signals batch_limit configured_mode client_init limits bankroll
              config_fraction total_risk per_market table trades positions in
  exists added, es_trades st = trades ++ added /\
    es_executed_count st = Z.of_nat (length added) /\
    (length added <= length (fetch_pending_signals batch_limit table))%nat /\
    (length added <= batch_limit)%nat /\
    Forall (fun t => exists sg, In sg (fetch_pending_signals batch_limit table) /\
                                tr_direction t = "buy"%string /\ tr_signal_id t = Some (sig_id sg) /\
                                tr_market_ticker t = sig_market_ticker sg /\ tr_side t = sig_side sg)
      added.
Proof.
  cbv zeta. unfold execute_signals.
  assert (Hlim : (length (fetch_pending_signals batch_limit table) <= batch_limit)%nat)
    by (unfold fetch_pending_signals; rewrite length_take; lia).
  revert Hlim. generalize (fetch_pending_signals batch_limit table) as sigs. intros sigs Hlim.
  destruct sigs as [|s0 ss].
  - exists []. rewrite app_nil_r. cbn. split; [reflexivity|]. split; [reflexivity|].
    split; [lia|]. split; [lia | constructor].
  - match goal with |- context [execute_batch ?m ?c ?l ?b ?f ?sg ?st] =>
      destruct (execute_batch_trades m c l b f sg st) as [added [T [C [L F]]]] end.
    exists added. rewrite T, C. cbn [es_trades es_executed_count].
    split; [reflexivity|]. split; [lia|]. split; [exact L|]. split; [lia|].
    eapply Forall_impl; [exact F|]. intros t [sg [Hin Ht]]. exists sg. split; [exact Hin | exact Ht].
Qed.

(* ------------------------------------------------------------------------- *)
(** ** Bulk cancellation sweeps *)

Lemma filter_bool_cons {A} (f : A -> bool) (x : A) (l : list A) :
  filter (fun y => f y) (x :: l) = if f x then x :: filter (fun y => f y) l else filter (fun y => f y) l.
Proof.
  rewrite filter_cons. destruct (decide _) as [D|D]; destruct (f x) eqn:E; try reflexivity;
  exfalso; [exact D | apply D; exact I].
Qed.

Lemma cancel_sweep {R} `{PyNum R} (P : Signal R -> bool) (msg : string) (table : list (Signal R)) :
  (forall row, P (cancel_row msg row) = false) ->
  (forall row, P row = true -> sig_status row <> "cancelled"%string) ->
  let after := map (fun row => if P row then cancel_row msg row else row) table in
  map sig_id after = map sig_id table /\
  length (filter (fun row => P row) after) = 0%nat /\
  map (fun row => if P row then cancel_row msg row else row) after = after /\
  length (filter (fun row => P row) table) =
    length (List.filter (fun ab => negb (String.eqb (sig_status (fst ab)) (sig_status (snd ab))))
                        (combine table after)).
Proof.
  intros Hc Hs. cbv zeta. induction table as [|row table [IH1 [IH2 [IH3 IH4]]]]; [repeat split|].
  cbn [map combine List.filter fst snd]. rewrite !filter_bool_cons.
  destruct (P row) eqn:E.
  - rewrite Hc.
    assert (Hst : String.eqb (sig_status row) "cancelled" = false) by (apply String.eqb_neq; auto).
    cbn [sig_status sig_id cancel_row fst snd]. rewrite Hst. cbn [negb length].
    split; [f_equal; exact IH1|]. split; [exact IH2|]. split; [f_equal; exact IH3|]. f_equal. exact IH4.
  - rewrite E, String.eqb_refl. cbn [negb].
    split; [f_equal; exact IH1|]. split; [exact IH2|]. split; [f_equal; exact IH3|]. exact IH4.
Qed.

(** [cancel_stale_signals(max_age_minutes)] keeps every row (same ids, same
    order); the count it returns is exactly the number of rows whose status
    it changed; afterwards no open row older than the cutoff is left, so a
    second sweep with the same cutoff changes nothing and returns 0. *)
Theorem cancel_stale_signals_sweep {R} `{PyNum R} (cutoff : Z) (table : list (Signal R)) :
  let after := cancel_stale_signals cutoff table in
  map sig_id after = map sig_id table /\
  cancel_stale_rowcount cutoff table =
    length (List.filter (fun ab => negb (String.eqb (sig_status (fst ab)) (sig_status (snd ab))))
                        (combine table after)) /\
  cancel_stale_rowcount cutoff after = 0%nat /\
  cancel_stale_signals cutoff after = after.
Proof.
  cbv zeta. unfold cancel_stale_rowcount, cancel_stale_signals.
  destruct (cancel_sweep (fun row => open_status (sig_status row) && (sig_created_at row <? cutoff))
              "auto-cancelled stale signal" table) as [A [B [C D]]].
  - intros row. reflexivity.
  - intros row Hp E. rewrite E in Hp. discriminate.
  - split; [exact A|]. split; [exact D|]. split; [exact B | exact C].
Qed.

(** [cancel_open_signals()] of the dashboard keeps every row; the
    ["cancelled"] count it returns is exactly the number of rows whose status
    it changed; afterwards no row has an open status, so calling it again
    changes nothing and reports 0. *)
Theorem cancel_open_signals_sweep {R} `{PyNum R} (table : list (Signal R)) :
  let after := cancel_open_signals table in
  map sig_id after = map sig_id table /\
  cancel_open_rowcount table =
    length (List.filter (fun ab => negb (String.eqb (sig_status (fst ab)) (sig_status (snd ab))))
                        (combine table after)) /\
  cancel_open_rowcount after = 0%nat /\
  cancel_open_signals after = after.
Proof.
  cbv zeta. unfold cancel_open_rowcount, cancel_open_signals.
  destruct (cancel_sweep (fun row => open_status (sig_status row))
              "cancelled via dashboard" table) as [A [B [C D]]].
  - intros row. reflexivity.
  - intros row Hp E. rewrite E in Hp. discriminate.
  - split; [exact A|]. split; [exact D|]. split; [exact B | exact C].
Qed.

(* ------------------------------------------------------------------------- *)
(** ** The order client *)

Lemma in_two_strings (s a b : string) :
  bool_decide (s ∈ [a; b]) = true <-> s = a \/ s = b.
Proof.
  rewrite bool_decide_eq_true, elem_of_cons, list_elem_of_singleton. reflexivity.
Qed.


Lemma py_round_cents (k : Z) : py_round ((k # 100) * 100) = k.
Proof.
  unfold py_round.
  assert (Hf : Qfloor ((k # 100) * 100) = k).
  { unfold Qfloor. cbn. rewrite Pos2Z.inj_mul. change (Z.pos 100) with 100%Z. rewrite Z.mul_1_r, Z.div_mul; lia. }
  rewrite Hf.
  assert (Hd : Qlt_bool ((k # 100) * 100 - inject_Z k) (1 # 2) = true).
  { unfold Qlt_bool. apply negb_true_iff, Qle_bool_false. unfold Qlt; cbn. lia. }
  rewrite Hd. reflexivity.
Qed.


(** A limit price of [k] cents ([k / 100] dollars, [1 <= k <= 99]) is sent
    as [k] cents, and when the venue's order reports that price for the
    side, [place_order] returns [avg_price = k / 100]: the price comes back
    unchanged. *)
Theorem client_place_order_price_round_trip
    (call_api : CreateOrderBody -> option VenueOrder + string) (order : ClientOrder)
    (k : Z) (vo : VenueOrder) :
  (1 <= k <= 99)%Z -> co_price order = Some (k # 100) ->
  (str_lower (co_side order) = "yes"%string \/ str_lower (co_side order) = "no"%string) ->
  (str_lower (co_direction order) = "buy"%string \/ str_lower (co_direction order) = "sell"%string) ->
  exists body, place_order_body order = inl body /\
    (if String.eqb (str_lower (co_side order)) "yes" then cb_yes_price body else cb_no_price body)
      = Some (Some k) /\
    (call_api body = inl (Some vo) ->
     (if String.eqb (str_lower (co_side order)) "yes" then vo_yes_price vo else vo_no_price vo)
       = Some k ->
     exists resp a, client_place_order call_api order = inl resp /\
       resp_avg_price resp = Some a /\ a == k # 100).
Proof.
  intros Hk Hp Hs Hd.
  assert (Hc : price_cents_of (k # 100) = k).
  { unfold price_cents_of. rewrite py_round_cents. lia. }
  unfold client_place_order, place_order_body.
  rewrite (proj2 (in_two_strings _ _ _) Hs), (proj2 (in_two_strings _ _ _) Hd). cbn [negb].
  eexists. split; [reflexivity|]. rewrite Hp. cbn [cb_yes_price cb_no_price cb_side].
  destruct (String.eqb (str_lower (co_side order)) "yes") eqn:Ey.
  - split; [rewrite Hc; reflexivity|]. intros Ha Hv. rewrite Ha.
    eexists. eexists. split; [reflexivity|]. unfold place_order_response. rewrite Ey.
    cbn [mbind option_bind]. rewrite Hv. split; [reflexivity|]. unfold Qeq; cbn. lia.
  - split; [rewrite Hc; reflexivity|]. intros Ha Hv. rewrite Ha.
    eexists. eexists. split; [reflexivity|]. unfold place_order_response. rewrite Ey.
    cbn [mbind option_bind]. rewrite Hv. split; [reflexivity|]. unfold Qeq; cbn. lia.
Qed.

Lemma client_place_order_price_round_trip_witness :
  let order := {| co_market_ticker := "KXM"; co_side := "Yes"; co_size := 3;
                  co_price := Some (37 # 100); co_direction := "BUY" |} in
  let vo := {| vo_order_id := Some "o-1"%string; vo_status := Some "resting"%string;
               vo_count := Some 3%Z; vo_yes_price := Some 37%Z; vo_no_price := None |} in
  let call_api := fun _ : CreateOrderBody => @inl (option VenueOrder) string (Some vo) in
  (1 <= 37 <= 99)%Z /\ co_price order = Some (37 # 100) /\
  (str_lower (co_side order) = "yes"%string \/ str_lower (co_side order) = "no"%string) /\
  (str_lower (co_direction order) = "buy"%string \/ str_lower (co_direction order) = "sell"%string) /\
  exists body, place_order_body order = inl body /\
    (if String.eqb (str_lower (co_side order)) "yes" then cb_yes_price body else cb_no_price body)
      = Some (Some 37%Z) /\
    (call_api body = inl (Some vo) ->
     (if String.eqb (str_lower (co_side order)) "yes" then vo_yes_price vo else vo_no_price vo)
       = Some 37%Z ->
     exists resp a, client_place_order call_api order = inl resp /\
       resp_avg_price resp = Some a /\ a == 37 # 100).
Proof.
  cbv zeta. split; [lia|]. split; [reflexivity|]. split; [left; reflexivity|].
  split; [left; reflexivity|].
  apply client_place_order_price_round_trip; [lia | reflexivity | left; reflexivity | left; reflexivity].
Defined.

(* ------------------------------------------------------------------------- *)
(** ** The rows written by [generate_signals] *)

Ltac solve_cands :=
  repeat (match goal with
          | |- Forall _ [] => constructor
          | |- Forall _ (_ ++ _) => apply Forall_app; split
          | |- Forall _ (if ?b then _ else _) => destruct b
          | |- Forall _ (_ :: _) => apply List.Forall_cons
          end).

Lemma market_candidates_shape (parse_market_date : string -> option Z) (p_true_fn : Q -> Q)
    (ev_threshold : Q) (now : Z) (meta : gmap string MarketMeta) (row : PriceRow)
    (pm pt : Q) (b : option string) (c : list (string * Q * bool)) :
  market_candidates parse_market_date p_true_fn ev_threshold now meta row = Some (pm, pt, b, c) ->
  b <> None /\ Forall (cand_ev_ok pm pt) c /\
  ((88 # 100 <= pm <= 92 # 100 /\ Forall (fun x => x.1.1 = "no"%string) c) \/ pm <= 15 # 100).
Proof.
  intros H. unfold market_candidates in H.
  destruct (pr_p_mkt row) as [p|]; [|discriminate H]. cbv zeta in H.
  match type of H with
  | (match ?E with None => None | Some _ => _ end) = _ => destruct E as [e|]; [|discriminate H]
  end.
  match type of H with
  | (if ?X then None else if ?W then None else if ?G then None else _) = _ =>
      destruct X; [discriminate H|]; destruct W eqn:Ew; [discriminate H|];
      destruct G eqn:Eg; [discriminate H|]
  end.
  injection H as <- <- <- <-.
  split; [unfold expiry_bucket; destr_if; [discriminate|destr_if; discriminate]|].
  destruct (Qle_bool PRO_INPLAY_BAND_LOW p && Qle_bool p PRO_INPLAY_BAND_HIGH) eqn:Eband.
  - apply andb_true_iff in Eband. destruct Eband as [B1 B2].
    apply Qle_bool_iff in B1. apply Qle_bool_iff in B2.
    unfold PRO_INPLAY_BAND_LOW, PRO_INPLAY_BAND_HIGH in B1, B2.
    assert (E15 : Qle_bool p PRO_SPORTS_LONGSHOT_THRESHOLD = false).
    { apply Qle_bool_false. unfold PRO_SPORTS_LONGSHOT_THRESHOLD. lra. }
    assert (E02 : Qle_bool p COLLEGE_LONGSHOT_THRESHOLD = false).
    { apply Qle_bool_false. unfold COLLEGE_LONGSHOT_THRESHOLD. lra. }
    rewrite E15, E02. rewrite !andb_false_r, !andb_false_l.
    split.
    + solve_cands; cbn; first [left; split; reflexivity | right; split; reflexivity].
    + left. split; [split; assumption|]. solve_cands; reflexivity.
  - rewrite ?andb_false_r, ?andb_false_l, ?orb_false_l, ?orb_false_r in Eg.
    split.
    + solve_cands; cbn; first [left; split; reflexivity | right; split; reflexivity].
    + right. apply negb_false_iff in Eg.
      apply orb_true_iff in Eg. destruct Eg as [Eg|Eg]; apply andb_true_iff in Eg.
      * destruct Eg as [_ Eg]. apply Qle_bool_iff in Eg. exact Eg.
      * destruct Eg as [Eg _]. apply andb_true_iff in Eg. destruct Eg as [_ Eg].
        apply Qle_bool_iff in Eg. unfold COLLEGE_LONGSHOT_THRESHOLD in Eg. lra.
Qed.

Lemma insert_candidates_rows (row : PriceRow) (cat : option string) (pm pt : Q)
    (b : option string) (max_signals : Z) (cands : list (string * Q * bool)) :
  forall created,
  let '(ins, created', stop) := insert_candidates row cat pm pt b max_signals created cands in
  Forall (fun s => ns_size s = 1%Z /\ ns_status s = "pending"%string /\ ns_threshold s = pm /\
                   ns_p_mkt s = pm /\ ns_p_true_est s = pt /\ ns_expiry_bucket s = b /\
                   exists f, In (ns_side s, ns_expected_value s, f) cands) ins /\
  created' = (created + Z.of_nat (length ins))%Z /\
  ((created < Z.max 1 max_signals)%Z ->
   (created' <= Z.max 1 max_signals)%Z /\ (stop = false -> (created' < Z.max 1 max_signals)%Z)).
Proof.
  induction cands as [|[[side ev] forced] rest IH]; intros created; cbn [insert_candidates].
  - split; [constructor|]. split; [cbn; lia|]. intros H; split; [lia | intros _; exact H].
  - destruct (max_signals <=? created + 1)%Z eqn:Em.
    + apply Z.leb_le in Em. split.
      * constructor; [|constructor]. cbn. do 6 (split; [reflexivity|]). exists forced. left. reflexivity.
      * split; [cbn; lia|]. intros H. split; [lia | discriminate].
    + apply Z.leb_gt in Em. specialize (IH (created + 1)%Z).
      destruct (insert_candidates row cat pm pt b max_signals (created + 1) rest) as [[more c'] stop].
      destruct IH as [F [C B]]. split.
      * constructor.
        -- cbn. do 6 (split; [reflexivity|]). exists forced. left. reflexivity.
        -- eapply Forall_impl; [exact F|]. intros s [? [? [? [? [? [? [f Hf]]]]]]].
           do 6 (split; [assumption|]). exists f. right. exact Hf.
      * split; [cbn [length]; lia|]. intros H. apply B. lia.
Qed.

Lemma generate_loop_rows (parse_market_date : string -> option Z) (p_true_fn : Q -> Q)
    (ev_threshold : Q) (max_signals now : Z) (meta : gmap string MarketMeta)
    (prices : list PriceRow) :
  forall created,
  let out := generate_loop parse_market_date p_true_fn ev_threshold max_signals now meta created prices in
  ((created < Z.max 1 max_signals)%Z ->
   (Z.of_nat (length out) <= Z.max 1 max_signals - created)%Z) /\
  Forall (new_signal_ok p_true_fn) out.
Proof.
  induction prices as [|row rest IH]; intros created; cbv zeta; cbn [generate_loop].
  - split; [cbn; lia | constructor].
  - destruct (market_candidates parse_market_date p_true_fn ev_threshold now meta row)
      as [[[[pm pt] b] c]|] eqn:Hm; [|apply IH].
    destruct (market_candidates_shape _ _ _ _ _ _ _ _ _ _ Hm) as [Hb [Hev Hgate]].
    pose proof (market_candidates_some _ _ _ _ _ _ _ _ _ _ Hm) as [_ [Hpt _]].
    pose proof (insert_candidates_rows row (meta !! pr_market_id row ≫= mm_category)
                  pm pt b max_signals c created) as Hi.
    destruct (insert_candidates row (meta !! pr_market_id row ≫= mm_category) pm pt b
                max_signals created c) as [[ins c'] stop].
    destruct Hi as [F [C B]].
    assert (Fins : Forall (new_signal_ok p_true_fn) ins).
    { eapply Forall_impl; [exact F|]. intros s [Hs [Hst [Hth [Hp [Hq [Hbk [f Hf]]]]]]].
      unfold new_signal_ok. rewrite Hth, Hp, Hq, Hbk, Hpt.
      split; [exact Hs|]. split; [exact Hst|]. split; [reflexivity|]. split; [reflexivity|].
      split; [exact Hb|].
      pose proof (proj1 (List.Forall_forall _ _) Hev _ Hf) as He. cbn in He.
      split.
      - destruct He as [[-> ->]|[-> ->]]; [left | right]; split; try reflexivity; rewrite <- Hpt; reflexivity.
      - destruct Hgate as [[Hband Hno]|Hl]; [left | right; exact Hl].
        split; [exact Hband|]. exact (proj1 (List.Forall_forall _ _) Hno _ Hf). }
    destruct stop.
    + split; [intros H; destruct (B H); lia | exact Fins].
    + destruct (IH c') as [L2 F2]. split.
      * intros H. destruct (B H) as [_ B2]. specialize (L2 (B2 eq_refl)).
        rewrite length_app, Nat2Z.inj_add. lia.
      * apply Forall_app. split; [exact Fins | exact F2].
Qed.

(** Every row [generate_signals] inserts is a one-contract ['pending'] order
    whose [threshold] is its [p_mkt] and whose [p_true_est] is the
    calibration lookup at [p_mkt]; its [expected_value] is the value of
    [p_true_est - p_mkt] for side ["yes"] and of
    [(1 - p_true_est) - (1 - p_mkt)] for side ["no"], the source's
    expressions; it has an expiry bucket; and its price either lies in the band
    [[0.88, 0.92]] with side ["no"], or is at most 0.15.  At most
    [max(1, max_signals)] rows are inserted. *)
Theorem generate_signals_rows (parse_market_date : string -> option Z)
    (calib : option (list Bucket)) (ev_threshold : Q) (max_signals now : Z)
    (meta : gmap string MarketMeta) (prices : list PriceRow) :
  let out := generate_signals parse_market_date calib ev_threshold max_signals now meta prices in
  (Z.of_nat (length out) <= Z.max 1 max_signals)%Z /\
  Forall (new_signal_ok (build_probability_lookup calib)) out.
Proof.
  cbv zeta. unfold generate_signals.
  destruct (generate_loop_rows parse_market_date (build_probability_lookup calib) ev_threshold
              max_signals now meta prices 0) as [L F].
  split; [specialize (L ltac:(lia)); lia | exact F].
Qed.

(* ------------------------------------------------------------------------- *)
(** ** Exposure and status summary *)


Lemma Qlt_bool_iff (a b : Q) : Qlt_bool a b = true <-> a < b.
Proof.
  unfold Qlt_bool. rewrite negb_true_iff. split.
  - intros H. apply Qnot_le_lt. rewrite <- Qle_bool_iff. congruence.
  - intros H. destruct (Qle_bool b a) eqn:E; [|reflexivity].
    apply Qle_bool_iff in E. exfalso. apply (Qlt_not_le a b); assumption.
Qed.

Lemma Qlt_bool_false (a b : Q) : Qlt_bool a b = false -> b <= a.
Proof.
  unfold Qlt_bool. rewrite negb_false_iff. apply Qle_bool_iff.
Qed.

Ltac qlt_cases :=
  repeat match goal with
  | |- context [Qlt_bool ?a ?b] =>
      let E := fresh "E" in
      destruct (Qlt_bool a b) eqn:E;
      [apply Qlt_bool_iff in E | apply Qlt_bool_false in E]
  end.

Lemma norm_price_bounds (price : option Q) :
  default 0 price <= 100 -> 0 <= norm_price price <= 1.
Proof.
  unfold norm_price. generalize (default 0 price). intros p Hp.
  destruct (Qlt_bool 1 p) eqn:E1; [apply Qlt_bool_iff in E1 | apply Qlt_bool_false in E1];
  qlt_cases; try lra.
  all: assert (0 < p / 100 -> p / 100 <= 1 -> 0 <= p / 100 <= 1) by lra.
  all: assert (p / 100 <= 1) by (apply Qle_shift_div_r; lra).
  all: assert (0 < p / 100) by (apply Qlt_shift_div_l; lra).
  all: lra.
Qed.

Lemma norm_price_above_100 (price : option Q) :
  100 < default 0 price -> 1 < norm_price price.
Proof.
  unfold norm_price. generalize (default 0 price). intros p Hp.
  destruct (Qlt_bool 1 p) eqn:E1; [apply Qlt_bool_iff in E1 | apply Qlt_bool_false in E1];
  qlt_cases; try lra.
  all: assert (1 < p / 100) by (apply Qlt_shift_div_l; lra).
  all: lra.
Qed.

Lemma exposure_risk_cases (side : option string) (price : option Q) (size : option Z) :
  exposure_risk side price size ==
  (if String.eqb (str_lower (default "" side)) "no" then 1 - norm_price price
   else norm_price price) * inject_Z (Z.abs (default 0%Z size)).
Proof.
  unfold exposure_risk. cbv zeta.
  destruct (Z.abs (default 0%Z size) <=? 0)%Z eqn:E.
  - apply Z.leb_le in E. assert (Z.abs (default 0%Z size) = 0%Z) as -> by lia.
    destruct (String.eqb _ _); cbn; ring.
  - destruct (String.eqb _ _); reflexivity.
Qed.

Lemma exposure_risk_range (side : option string) (price : option Q) (size : option Z) :
  default 0 price <= 100 ->
  0 <= exposure_risk side price size <= inject_Z (Z.abs (default 0%Z size)).
Proof.
  intros Hp. pose proof (norm_price_bounds price Hp) as Hn.
  rewrite exposure_risk_cases.
  assert (Hz : 0 <= inject_Z (Z.abs (default 0%Z size))).
  { rewrite <- (Zle_Qle 0). lia. }
  set (z := inject_Z _) in *.
  destruct (String.eqb _ _); split; nra.
Qed.

Lemma fold_left_Qsum {A} (f : A -> Q) (l : list A) (a : Q) :
  fold_left (fun acc r => acc + f r) l a == a + fold_right (fun r acc => f r + acc) 0 l.
Proof.
  revert a. induction l as [|r l IH]; intros a; cbn [fold_left fold_right].
  - ring.
  - rewrite IH. ring.
Qed.

Lemma fold_left_if_filter {A} (c : A -> bool) (f : A -> Q) (l : list A) (a : Q) :
  fold_left (fun acc r => if c r then acc + f r else acc) l a =
  fold_left (fun acc r => acc + f r) (List.filter c l) a.
Proof.
  revert a. induction l as [|r l IH]; intros a; cbn [fold_left List.filter]; [reflexivity|].
  destruct (c r); cbn [fold_left]; apply IH.
Qed.

Lemma fold_right_Qsum_bounds {A} (f g : A -> Q) (l : list A) :
  Forall (fun r => 0 <= f r <= g r) l ->
  0 <= fold_right (fun r acc => f r + acc) 0 l <= fold_right (fun r acc => g r + acc) 0 l.
Proof.
  induction 1 as [|r l Hr _ IH]; cbn [fold_right]; lra.
Qed.

Lemma exposure_risk_sum_bounds {A} (side : A -> option string) (price : A -> option Q)
    (size : A -> option Z) (l : list A) :
  Forall (fun r => default 0 (price r) <= 100) l ->
  0 <= fold_left (fun acc r => acc + exposure_risk (side r) (price r) (size r)) l 0 <=
       abs_size_sum size l.
Proof.
  intros H. rewrite fold_left_Qsum, Qplus_0_l. unfold abs_size_sum.
  apply (fold_right_Qsum_bounds (fun r => exposure_risk (side r) (price r) (size r))
           (fun r => inject_Z (Z.abs (default 0%Z (size r))))).
  eapply Forall_impl; [exact H|]. intros r Hr. apply exposure_risk_range; exact Hr.
Qed.






(** [_risk] in [get_current_exposure] on side ["no"] (in any case) with a
    price above 100 and a nonzero size: the price is divided by 100 once and
    still exceeds 1, so the computed risk is negative. *)
Theorem exposure_risk_negative_above_100 (side : option string) (price : option Q)
    (size : option Z) (Hs : str_lower (default "" side) = "no"%string)
    (Hp : 100 < default 0 price) (Hz : default 0%Z size <> 0%Z) :
  exposure_risk side price size < 0.
Proof.
  rewrite exposure_risk_cases, Hs. replace (String.eqb "no" "no") with true by reflexivity.
  pose proof (norm_price_above_100 price Hp) as Hn.
  assert (Hz' : 0 < inject_Z (Z.abs (default 0%Z size))) by (rewrite <- (Zlt_Qlt 0); lia).
  set (z := inject_Z _) in *. nra.
Qed.

Lemma exposure_risk_negative_above_100_witness :
  str_lower (default "" (Some "No"%string)) = "no"%string /\ 100 < default 0 (Some (150 # 1)) /\
  default 0%Z (Some (-2)%Z) <> 0%Z /\
  exposure_risk (Some "No"%string) (Some (150 # 1)) (Some (-2)%Z) < 0.
Proof.
  assert (H1 : str_lower (default "" (Some "No"%string)) = "no"%string) by reflexivity.
  assert (H2 : 100 < default 0 (Some (150 # 1))) by (cbn; lra).
  assert (H3 : default 0%Z (Some (-2)%Z) <> 0%Z) by (cbn; lia).
  split; [exact H1|]. split; [exact H2|]. split; [exact H3|].
  exact (exposure_risk_negative_above_100 _ _ _ H1 H2 H3).
Defined.

(** [get_current_exposure]: when every price read is at most 100, the
    positions exposure lies between 0 and the total [abs(size)] of the
    positions it counts (known expiry not in the past, updated within two
    days), the signals exposure between 0 and the total [abs(size)] of the
    signals in status pending, sent, resting or simulated, and the total is
    their sum. *)
Theorem get_current_exposure_bounds (now : Z) (positions : list ExposurePosition)
    (signals : list ExposureSignal)
    (Hpos : Forall (fun r => default 0 (ep_avg_entry_price r) <= 100) positions)
    (Hsig : Forall (fun r => default 0 (xs_p_mkt r) <= 100) signals) :
  let e := get_current_exposure now positions signals in
  total_exposure e = positions_exposure e + signals_exposure e /\
  0 <= positions_exposure e <=
       abs_size_sum ep_size (List.filter (exposure_position_counted now) positions) /\
  0 <= signals_exposure e <= abs_size_sum xs_size (List.filter exposure_signal_open signals).
Proof.
  cbv zeta. unfold get_current_exposure. cbn [total_exposure positions_exposure signals_exposure].
  split; [reflexivity|]. split.
  - rewrite (fold_left_if_filter (exposure_position_counted now)
               (fun r => exposure_risk (ep_side r) (ep_avg_entry_price r) (ep_size r))).
    apply exposure_risk_sum_bounds. apply List.Forall_forall. intros r Hr. apply filter_In in Hr.
    exact (proj1 (List.Forall_forall _ _) Hpos r (proj1 Hr)).
  - apply exposure_risk_sum_bounds. apply List.Forall_forall. intros r Hr. apply filter_In in Hr.
    exact (proj1 (List.Forall_forall _ _) Hsig r (proj1 Hr)).
Qed.

Lemma get_current_exposure_bounds_witness :
  let ps := [ {| ep_side := Some "no"%string; ep_avg_entry_price := Some (40 # 1);
                 ep_size := Some 3%Z; ep_expiration_ts := Some 500%Z; ep_updated_at := Some 90%Z |};
              {| ep_side := Some "yes"%string; ep_avg_entry_price := Some (1 # 2);
                 ep_size := Some 2%Z; ep_expiration_ts := None; ep_updated_at := None |} ] in
  let ss := [ {| xs_side := Some "yes"%string; xs_p_mkt := Some (1 # 10); xs_size := Some 1%Z;
                 xs_status := "pending"%string |};
              {| xs_side := None; xs_p_mkt := None; xs_size := Some 4%Z;
                 xs_status := "executed"%string |} ] in
  Forall (fun r => default 0 (ep_avg_entry_price r) <= 100) ps /\
  Forall (fun r => default 0 (xs_p_mkt r) <= 100) ss /\
  (let e := get_current_exposure 100 ps ss in
   total_exposure e = positions_exposure e + signals_exposure e /\
   0 <= positions_exposure e <= abs_size_sum ep_size (List.filter (exposure_position_counted 100) ps) /\
   0 <= signals_exposure e <= abs_size_sum xs_size (List.filter exposure_signal_open ss)).
Proof.
  cbv zeta.
  assert (H1 : Forall (fun r => default 0 (ep_avg_entry_price r) <= 100)
    [ {| ep_side := Some "no"%string; ep_avg_entry_price := Some (40 # 1);
         ep_size := Some 3%Z; ep_expiration_ts := Some 500%Z; ep_updated_at := Some 90%Z |};
      {| ep_side := Some "yes"%string; ep_avg_entry_price := Some (1 # 2);
         ep_size := Some 2%Z; ep_expiration_ts := None; ep_updated_at := None |} ]).
  { repeat constructor; cbn; lra. }
  assert (H2 : Forall (fun r => default 0 (xs_p_mkt r) <= 100)
    [ {| xs_side := Some "yes"%string; xs_p_mkt := Some (1 # 10); xs_size := Some 1%Z;
         xs_status := "pending"%string |};
      {| xs_side := None; xs_p_mkt := None; xs_size := Some 4%Z;
         xs_status := "executed"%string |} ]).
  { repeat constructor; cbn; lra. }
  split; [exact H1|]. split; [exact H2|].
  exact (get_current_exposure_bounds 100 _ _ H1 H2).
Defined.




(* ------------------------------------------------------------------------- *)
(** ** [compute_existing_risk] *)

Lemma add_risk_fold {A} (key : A -> string) (f : A -> Q) (l : list A) :
  forall (m : gmap string Q) (t : Q),
  let '(m', t') := fold_left (fun acc r => add_risk acc (key r) (f r)) l (m, t) in
  t' == t + qsum f l /\
  forall k, (m' !! k = None <-> m !! k = None /\ forall r, In r l -> key r <> k) /\
            (forall v, m' !! k = Some v ->
               v == default 0 (m !! k) + qsum f (List.filter (fun r => String.eqb (key r) k) l)).
Proof.
  induction l as [|x l IH]; intros m t; cbn [fold_left].
  - split; [unfold qsum; cbn; ring|]. intros k. split.
    + split; [intros H; split; [exact H | intros r []] | intros [H _]; exact H].
    + intros v Hv. rewrite Hv. unfold qsum. cbn. ring.
  - unfold add_risk at 2. cbn [fst snd].
    specialize (IH (<[key x := default 0 (m !! key x) + f x]> m) (t + f x)).
    destruct (fold_left _ l _) as [m' t'] eqn:Ef.
    destruct IH as [Ht Hk]. split.
    { rewrite Ht. unfold qsum. cbn [fold_right]. ring. }
    intros k. destruct (Hk k) as [Hn Hv].
    destruct (String.eqb_spec (key x) k) as [<-|Hne].
    + rewrite lookup_insert_eq in Hn, Hv. split.
      * split; [intros H; apply Hn in H as [H _]; discriminate|].
        intros [_ H]. exfalso. apply (H x); [left; reflexivity | reflexivity].
      * intros v Hv'. rewrite (Hv v Hv'). cbn [List.filter]. rewrite String.eqb_refl.
        unfold qsum. cbn [fold_right default from_option id]. ring.
    + rewrite lookup_insert_ne in Hn, Hv by exact Hne. split.
      * rewrite Hn. split.
        -- intros [H1 H2]. split; [exact H1|]. intros r [<-|Hr]; [exact Hne | exact (H2 r Hr)].
        -- intros [H1 H2]. split; [exact H1|]. intros r Hr. apply H2. right. exact Hr.
      * intros v Hv'. rewrite (Hv v Hv'). cbn [List.filter].
        apply String.eqb_neq in Hne. rewrite Hne. reflexivity.
Qed.

Lemma qsum_app {A} (f : A -> Q) (l1 l2 : list A) : qsum f (l1 ++ l2) == qsum f l1 + qsum f l2.
Proof.
  unfold qsum. induction l1 as [|x l1 IH]; cbn [app fold_right]; [ring|]. rewrite IH. ring.
Qed.

Lemma qsum_nonneg {A} (f : A -> Q) (l : list A) :
  (forall r, In r l -> 0 <= f r) -> 0 <= qsum f l.
Proof.
  unfold qsum. induction l as [|x l IH]; intros H; cbn [fold_right]; [lra|].
  assert (0 <= f x) by (apply H; left; reflexivity).
  assert (0 <= fold_right (fun r acc => f r + acc) 0 l) by (apply IH; intros r Hr; apply H; right; exact Hr).
  lra.
Qed.

Lemma qsum_filter_le {A} (f : A -> Q) (p : A -> bool) (l : list A) :
  (forall r, In r l -> 0 <= f r) -> qsum f (List.filter p l) <= qsum f l.
Proof.
  unfold qsum. induction l as [|x l IH]; intros H; cbn [List.filter fold_right]; [lra|].
  assert (0 <= f x) by (apply H; left; reflexivity).
  assert (fold_right (fun r acc => f r + acc) 0 (List.filter p l) <=
          fold_right (fun r acc => f r + acc) 0 l) by (apply IH; intros r Hr; apply H; right; exact Hr).
  destruct (p x); cbn [fold_right]; lra.
Qed.

Lemma existing_norm_price_bounds (val : option Q) :
  default 0 val <= 100 -> 0 <= existing_norm_price val <= 1.
Proof.
  destruct val as [p|]; cbn; [|intros; lra]. intros Hp.
  destruct (Qlt_bool 1 p) eqn:E1; [apply Qlt_bool_iff in E1 | apply Qlt_bool_false in E1];
  qlt_cases; try lra.
  all: assert (p / 100 <= 1) by (apply Qle_shift_div_r; lra).
  all: assert (0 < p / 100) by (apply Qlt_shift_div_l; lra).
  all: lra.
Qed.

Lemma existing_signal_risk_nonneg (r : RiskSignalRow) :
  default 0 (rs_p_mkt r) <= 100 -> (0 <= rs_size r)%Z -> 0 <= existing_signal_risk r.
Proof.
  intros Hp Hs. pose proof (existing_norm_price_bounds _ Hp) as Hn.
  assert (Hz : 0 <= inject_Z (rs_size r)) by (rewrite <- (Zle_Qle 0); exact Hs).
  unfold existing_signal_risk, estimate_trade_risk_usd.
  set (z := inject_Z _) in *. set (q := existing_norm_price _) in *.
  destruct (String.eqb _ _); nra.
Qed.

Lemma existing_position_risk_nonneg (r : RiskPositionRow) : 0 <= existing_position_risk r.
Proof.
  unfold existing_position_risk. destruct (rp_side r) as [s|]; [destruct (String.eqb s "yes")|];
  apply Qabs_nonneg.
Qed.

(** [compute_existing_risk]: [total] is the sum of the risks of the
    pending and sent signals and of the positions; a market has a
    [per_market] entry exactly when some such signal or some position is on
    it, and the entry is the sum of the risks of those rows. *)
Theorem compute_existing_risk_per_market (signals : list RiskSignalRow)
    (positions : list RiskPositionRow) :
  let open_signals := List.filter risk_signal_open signals in
  let '(per_market, total) := compute_existing_risk signals positions in
  total == qsum existing_signal_risk open_signals + qsum existing_position_risk positions /\
  forall m,
    (per_market !! m = None <->
     (forall r, In r open_signals -> rs_market_ticker r <> m) /\
     (forall r, In r positions -> rp_market_ticker r <> m)) /\
    (forall v, per_market !! m = Some v ->
       v == qsum existing_signal_risk
              (List.filter (fun r => String.eqb (rs_market_ticker r) m) open_signals) +
            qsum existing_position_risk
              (List.filter (fun r => String.eqb (rp_market_ticker r) m) positions)).
Proof.
  cbv zeta. unfold compute_existing_risk.
  pose proof (add_risk_fold rs_market_ticker existing_signal_risk
                (List.filter risk_signal_open signals) ∅ 0) as H1.
  destruct (fold_left _ (List.filter risk_signal_open signals) _) as [m1 t1].
  pose proof (add_risk_fold rp_market_ticker existing_position_risk positions m1 t1) as H2.
  destruct (fold_left _ positions _) as [m2 t2].
  destruct H1 as [Ht1 Hk1]. destruct H2 as [Ht2 Hk2]. split.
  { rewrite Ht2, Ht1. ring. }
  intros k. destruct (Hk1 k) as [Hn1 Hv1]. destruct (Hk2 k) as [Hn2 Hv2]. split.
  - rewrite Hn2, Hn1, lookup_empty. tauto.
  - intros v Hv. rewrite (Hv2 v Hv).
    destruct (m1 !! k) as [v1|] eqn:E1.
    + cbn [default from_option id]. rewrite (Hv1 v1 eq_refl), lookup_empty.
      cbn [default from_option id]. ring.
    + assert (Hnil : List.filter (fun r => String.eqb (rs_market_ticker r) k)
                       (List.filter risk_signal_open signals) = []).
      { destruct (proj1 Hn1 eq_refl) as [_ Hno].
        destruct (List.filter (fun r => String.eqb (rs_market_ticker r) k)
                    (List.filter risk_signal_open signals)) as [|r rest] eqn:Ef; [reflexivity|].
        exfalso. assert (Hr : In r (List.filter (fun r => String.eqb (rs_market_ticker r) k)
                                     (List.filter risk_signal_open signals)))
          by (rewrite Ef; left; reflexivity).
        apply filter_In in Hr as [Hr Hrk]. apply String.eqb_eq in Hrk. exact (Hno r Hr Hrk). }
      rewrite Hnil. unfold qsum at 2. cbn [fold_right default from_option id]. ring.
Qed.

(** [compute_existing_risk]: when every signal has a [p_mkt] of at most
    100 and a nonnegative [size], the total is nonnegative and every
    [per_market] entry lies between 0 and the total. *)
Theorem compute_existing_risk_bounds (signals : list RiskSignalRow)
    (positions : list RiskPositionRow)
    (Hsig : Forall (fun r => default 0 (rs_p_mkt r) <= 100 /\ (0 <= rs_size r)%Z) signals) :
  let '(per_market, total) := compute_existing_risk signals positions in
  0 <= total /\ forall m v, per_market !! m = Some v -> 0 <= v <= total.
Proof.
  unfold compute_existing_risk.
  assert (Hs : forall r, In r (List.filter risk_signal_open signals) -> 0 <= existing_signal_risk r).
  { intros r Hr. apply filter_In in Hr as [Hr _].
    destruct (proj1 (List.Forall_forall _ _) Hsig r Hr) as [Hp Hz].
    exact (existing_signal_risk_nonneg r Hp Hz). }
  assert (Hp : forall r, In r positions -> 0 <= existing_position_risk r)
    by (intros r _; apply existing_position_risk_nonneg).
  pose proof (add_risk_fold rs_market_ticker existing_signal_risk
                (List.filter risk_signal_open signals) ∅ 0) as H1.
  destruct (fold_left _ (List.filter risk_signal_open signals) _) as [m1 t1].
  pose proof (add_risk_fold rp_market_ticker existing_position_risk positions m1 t1) as H2.
  destruct (fold_left _ positions _) as [m2 t2].
  destruct H1 as [Ht1 Hk1]. destruct H2 as [Ht2 Hk2].
  pose proof (qsum_nonneg _ _ Hs) as S1. pose proof (qsum_nonneg _ _ Hp) as S2.
  split; [rewrite Ht2, Ht1; lra|].
  intros k v Hv. destruct (Hk2 k) as [_ Hv2]. rewrite (Hv2 v Hv), Ht2.
  pose proof (qsum_filter_le existing_position_risk
                (fun r => String.eqb (rp_market_ticker r) k) positions Hp) as L2.
  assert (N2 : 0 <= qsum existing_position_risk
                      (List.filter (fun r => String.eqb (rp_market_ticker r) k) positions)).
  { apply qsum_nonneg. intros r Hr. apply filter_In in Hr as [Hr _]. exact (Hp r Hr). }
  destruct (Hk1 k) as [_ Hv1].
  destruct (m1 !! k) as [v1|] eqn:E1; cbn [default from_option id].
  - rewrite (Hv1 v1 eq_refl), lookup_empty, Ht1. cbn [default from_option id].
    pose proof (qsum_filter_le existing_signal_risk
                  (fun r => String.eqb (rs_market_ticker r) k) _ Hs) as L1.
    assert (N1 : 0 <= qsum existing_signal_risk
                        (List.filter (fun r => String.eqb (rs_market_ticker r) k)
                           (List.filter risk_signal_open signals))).
    { apply qsum_nonneg. intros r Hr. apply filter_In in Hr as [Hr _]. exact (Hs r Hr). }
    lra.
  - rewrite Ht1. lra.
Qed.

Lemma compute_existing_risk_bounds_witness :
  let sg := [ {| rs_market_ticker := "KXA"%string; rs_side := Some "no"%string;
                 rs_p_mkt := Some (90 # 1); rs_size := 2%Z; rs_status := "pending"%string |};
              {| rs_market_ticker := "KXB"%string; rs_side := None;
                 rs_p_mkt := None; rs_size := 1%Z; rs_status := "executed"%string |} ] in
  let ps := [ {| rp_market_ticker := "KXA"%string; rp_side := Some "yes"%string;
                 rp_size := (-3)%Z; rp_avg_entry_price := Some (1 # 4) |} ] in
  Forall (fun r => default 0 (rs_p_mkt r) <= 100 /\ (0 <= rs_size r)%Z) sg /\
  (let '(per_market, total) := compute_existing_risk sg ps in
   0 <= total /\ forall m v, per_market !! m = Some v -> 0 <= v <= total).
Proof.
  cbv zeta.
  assert (H : Forall (fun r => default 0 (rs_p_mkt r) <= 100 /\ (0 <= rs_size r)%Z)
    [ {| rs_market_ticker := "KXA"%string; rs_side := Some "no"%string;
         rs_p_mkt := Some (90 # 1); rs_size := 2%Z; rs_status := "pending"%string |};
      {| rs_market_ticker := "KXB"%string; rs_side := None;
         rs_p_mkt := None; rs_size := 1%Z; rs_status := "executed"%string |} ]).
  { repeat constructor; cbn; lra || lia. }
  split; [exact H|].
  exact (compute_existing_risk_bounds _
           [ {| rp_market_ticker := "KXA"%string; rp_side := Some "yes"%string;
                rp_size := (-3)%Z; rp_avg_entry_price := Some (1 # 4) |} ] H).
Defined.
